(** * A shallow embedding of the streaming and session core of the
      Claude Code extension for VS Code

    The development follows the TypeScript sources:

    - [core/ClaudeStreamingClient.ts]: the subprocess transport
      ([streamFromCLI], [processStreamingLine], [isThinkingContent]);
    - [core/ClaudeSessionManager.ts]: the transcript reader
      ([parseSessionFile], [generateSessionTitle], [getProjectKey]);
    - [core/ClaudeCodeManager.ts]: the orchestrator ([initialize],
      [sendMessageStreaming], [callClaudeSDKQueryAPI],
      [loadClaudeCodeSessions]).

    JavaScript strings are sequences of UTF-16 code units, so that [length],
    [substring] and [split] count what the engine counts.  Numbers are
    doubles: a literal is rounded when it is parsed and printed as the
    engine prints the double; a time is a whole number of milliseconds or
    NaN.  Callbacks are modelled by the list of calls the sink receives, in
    order. *)

From Stdlib Require Import List NArith ZArith Bool Lia Ascii String.
From Stdlib Require Import Permutation Sorted.
Import ListNotations.

Set Implicit Arguments.
Set Warnings "-register-all".

(* ================================================================== *)
(** * JavaScript strings *)
(* ================================================================== *)

Module JsString.

(** A string is the list of its UTF-16 code units. *)
Definition jstring := list N.

(** An ASCII literal as a JavaScript string. *)
Definition js (s : string) : jstring :=
  map N_of_ascii (list_ascii_of_string s).
Arguments js s%_string.

(** A literal in which every apostrophe stands for a double quote: JSON text
    can then be written down without escaping. *)
Definition jsq (s : string) : jstring :=
  map (fun c => if N.eqb c 39 then 34%N else c) (js s).
Arguments jsq s%_string.

Definition LF : N := 10.
Definition QUOTE : N := 34.
Definition BACKSLASH : N := 92.

Fixpoint str_eqb (a b : jstring) : bool :=
  match a, b with
  | [], [] => true
  | x :: a', y :: b' => N.eqb x y && str_eqb a' b'
  | _, _ => false
  end.

(** [s.startsWith(p)] *)
Fixpoint startsWith (p s : jstring) : bool :=
  match p, s with
  | [], _ => true
  | x :: p', y :: s' => N.eqb x y && startsWith p' s'
  | _ :: _, [] => false
  end.

(** [s.includes(p)] *)
Fixpoint includes (p s : jstring) : bool :=
  startsWith p s ||
  match s with
  | [] => false
  | _ :: s' => includes p s'
  end.

(** [s.split(sep)] for a one-unit separator: never the empty array. *)
Fixpoint split (sep : N) (s : jstring) : list jstring :=
  match s with
  | [] => [[]]
  | c :: s' =>
      if N.eqb c sep then [] :: split sep s'
      else match split sep s' with
           | l :: ls => (c :: l) :: ls
           | [] => [[c]]
           end
  end.

(** WhiteSpace and LineTerminator of ECMAScript, the units [trim] strips. *)
Definition is_js_space (c : N) : bool :=
  existsb (N.eqb c)
    [9; 10; 11; 12; 13; 32; 160; 5760; 8232; 8233; 8239; 8287; 12288; 65279]%N
  || (N.leb 8192 c && N.leb c 8202).

Fixpoint trimStart (s : jstring) : jstring :=
  match s with
  | c :: s' => if is_js_space c then trimStart s' else s
  | [] => []
  end.

Definition trimEnd (s : jstring) : jstring := rev (trimStart (rev s)).

(** [s.trim()] *)
Definition trim (s : jstring) : jstring := trimEnd (trimStart s).

(** The lower-case form of one unit.  Three kinds of code points have a
    lower-case form that holds an ASCII unit: the Latin capitals, the dotted
    capital I (U+0130, which becomes [i] and U+0307) and the Kelvin sign
    (U+212A, which becomes [k]).  They are mapped as the engine maps them. *)
Definition lower_unit (c : N) : jstring :=
  if N.leb 65 c && N.leb c 90 then [(c + 32)%N]
  else if N.eqb c 304 then [105; 775]%N
  else if N.eqb c 8490 then [107%N]
  else [c].

(** [s.toLowerCase()].  A unit without an ASCII unit in its lower-case form
    is kept.  Where the engine changes such a unit, by itself or with its
    neighbours (a capital outside ASCII, a surrogate pair, a final sigma),
    it writes units outside ASCII in its place, at least one: the ASCII
    units of the result, and which of them are neighbours, are those of the
    engine's result.  The sources search the result for ASCII phrases and
    look it up among ASCII keys, and neither reads anything else of it. *)
Definition toLowerCase (s : jstring) : jstring := flat_map lower_unit s.

(** [s.substring(0, n)] *)
Definition substring0 (n : nat) (s : jstring) : jstring := firstn n s.

(** [s.replace(/c/g, d)] for single units [c] and [d]. *)
Definition replaceAll (c d : N) (s : jstring) : jstring :=
  map (fun x => if N.eqb x c then d else x) s.

(** Decimal digits of a natural number, as [String(n)] prints an integer. *)
Fixpoint digits_fuel (fuel : nat) (n : N) (acc : jstring) : jstring :=
  match fuel with
  | O => acc
  | S f =>
      let acc' := (48 + N.modulo n 10)%N :: acc in
      if N.ltb n 10 then acc' else digits_fuel f (N.div n 10) acc'
  end.

Definition N_toString (n : N) : jstring :=
  digits_fuel (S (N.to_nat (N.log2 n))) n [].

Definition Z_toString (z : Z) : jstring :=
  match z with
  | Z0 => js "0"
  | Zpos p => N_toString (Npos p)
  | Zneg p => 45%N :: N_toString (Npos p)
  end.

End JsString.
Import JsString.

(* ================================================================== *)
(** * Node buffers: [Buffer.prototype.toString()] *)
(* ================================================================== *)

Module Buffer.

(** A buffer is the list of its bytes. *)
Definition bytes := list N.

Definition REPLACEMENT : N := 65533.

Definition utf16_of_code_point (cp : N) : jstring :=
  if N.ltb cp 65536 then [cp]
  else let c := (cp - 65536)%N in
       [(55296 + N.div c 1024)%N; (56320 + N.modulo c 1024)%N].

(** The state of the UTF-8 decoder between two bytes: how many continuation
    bytes are still needed, the code point so far, and the range the next
    continuation byte must lie in. *)
Record dstate := mkDState {
  needed : nat;
  code_point : N;
  lower : N;
  upper : N
}.

Definition idle : dstate := mkDState 0 0 128 191.

Definition between (lo hi b : N) : bool := N.leb lo b && N.leb b hi.

(** A byte read when no sequence is open. *)
Definition lead (b : N) : jstring * dstate :=
  if N.leb b 127 then ([b], idle)
  else if between 194 223 b then ([], mkDState 1 (N.land b 31) 128 191)
  else if between 224 239 b then
    ([], mkDState 2 (N.land b 15)
                  (if N.eqb b 224 then 160 else 128)
                  (if N.eqb b 237 then 159 else 191))
  else if between 240 244 b then
    ([], mkDState 3 (N.land b 7)
                  (if N.eqb b 240 then 144 else 128)
                  (if N.eqb b 244 then 143 else 191))
  else ([REPLACEMENT], idle).

(** One byte of input.  A byte that cannot continue the open sequence ends
    it with U+FFFD and is then read again as a lead byte. *)
Definition decode_step (st : dstate) (b : N) : jstring * dstate :=
  match needed st with
  | O => lead b
  | S n =>
      if between (lower st) (upper st) b then
        let cp := N.lor (N.shiftl (code_point st) 6) (N.land b 63) in
        match n with
        | O => (utf16_of_code_point cp, idle)
        | S _ => ([], mkDState n cp 128 191)
        end
      else let (out, st') := lead b in (REPLACEMENT :: out, st')
  end.

(** The end of the buffer closes an open sequence with U+FFFD: a buffer is
    decoded on its own, whatever the next buffer starts with. *)
Fixpoint decode (st : dstate) (data : bytes) : jstring :=
  match data with
  | [] => match needed st with O => [] | S _ => [REPLACEMENT] end
  | b :: data' => let (out, st') := decode_step st b in out ++ decode st' data'
  end.

(** [data.toString()], that is [data.toString('utf8')]. *)
Definition toString (data : bytes) : jstring := decode idle data.

(** The UTF-8 bytes of a text of ASCII characters: its code units. *)
Definition of_ascii (text : jstring) : bytes := text.

End Buffer.

(* ================================================================== *)
(** * Numbers *)
(* ================================================================== *)

Module JsNumber.

Definition is_digit (c : N) : bool := N.leb 48 c && N.leb c 57.

(** The value of a run of decimal digits. *)
Fixpoint digits_value (s : jstring) (acc : N) : N :=
  match s with
  | [] => acc
  | c :: s' => digits_value s' (10 * acc + (c - 48))%N
  end.

Fixpoint span_digits (s : jstring) : jstring * jstring :=
  match s with
  | c :: s' =>
      if is_digit c then let (d, r) := span_digits s' in (c :: d, r)
      else ([], s)
  | [] => ([], [])
  end.

(** A Number other than NaN: a double.  A finite value that is not zero is
    [m * 2^e] with [m] odd, so that a value is written in one way. *)
Inductive number : Type :=
| Zero (negative : bool)
| Finite (negative : bool) (m : positive) (e : Z)
| Infinite (negative : bool).

Fixpoint odd_part (m : positive) (e : Z) : positive * Z :=
  match m with
  | xO m' => odd_part m' (e + 1)
  | _ => (m, e)
  end.

Local Open Scope Z_scope.

(** The double nearest to the rational [n / d], ties going to the even
    mantissa: 53 bits of quotient at the exponent [e], which is not below
    that of the subnormals; a value of [2^1024] or more is infinite, and
    one that rounds to nothing is zero. *)
Definition nearest (negative : bool) (n d : positive) : number :=
  let b := Z.log2 (Zpos n) - Z.log2 (Zpos d) in
  let e0 := b - 52 in
  let q0 := if 0 <=? e0 then Zpos n / (Zpos d * 2 ^ e0)
            else (Zpos n * 2 ^ (- e0)) / Zpos d in
  let e1 := if q0 <? 2 ^ 52 then e0 - 1 else e0 in
  let e := Z.max e1 (-1074) in
  let num := if 0 <=? e then Zpos n else Zpos n * 2 ^ (- e) in
  let den := if 0 <=? e then Zpos d * 2 ^ e else Zpos d in
  let q := num / den in
  let r := num mod den in
  let q' := if (den <? 2 * r) || ((den =? 2 * r) && Z.odd q) then q + 1 else q in
  match q' with
  | Zpos m =>
      let (m', e') := odd_part m e in
      if 1024 <=? Z.log2 (Zpos m') + e' then Infinite negative
      else Finite negative m' e'
  | _ => Zero negative
  end.

(** The double for the decimal [m * 10^e]. *)
Definition of_decimal (negative : bool) (m : N) (e : Z) : number :=
  match m with
  | N0 => Zero negative
  | Npos p =>
      if 0 <=? e then nearest negative (p * Z.to_pos (10 ^ e)) 1
      else nearest negative p (Z.to_pos (10 ^ (- e)))
  end.

(** The Number a JSON number literal denotes: sign, digits, fraction and
    exponent are read off the literal, and the decimal is rounded once. *)
Definition of_literal (lexeme : jstring) : number :=
  let (negative, s1) :=
    match lexeme with
    | c :: s' => if N.eqb c 45 then (true, s') else (false, lexeme)
    | [] => (false, [])
    end in
  let (int, s2) := span_digits s1 in
  let (frac, s3) :=
    match s2 with
    | c :: s' => if N.eqb c 46 then span_digits s' else ([], s2)
    | [] => ([], [])
    end in
  let exp :=
    match s3 with
    | _ :: g :: s4 =>
        if N.eqb g 45 then - Z.of_N (digits_value (fst (span_digits s4)) 0)
        else if N.eqb g 43 then Z.of_N (digits_value (fst (span_digits s4)) 0)
        else Z.of_N (digits_value (fst (span_digits (g :: s4))) 0)
    | _ => 0
    end in
  of_decimal negative (digits_value (int ++ frac) 0) (exp - Z.of_nat (List.length frac)).

(** ** Number::toString *)

(** [x / 10^t] for the rational [x = xn / xd], as a fraction. *)
Definition scaled (xn xd : Z) (t : Z) : Z * Z :=
  if 0 <=? t then (xn, xd * 10 ^ t) else (xn * 10 ^ (- t), xd).

(** The least [n], from a first guess that is not above it, with
    [x < 10^n]. *)
Fixpoint magnitude_from (fuel : nat) (xn xd : Z) (n : Z) : Z :=
  match fuel with
  | O => n
  | S f =>
      let (a, b) := scaled xn xd n in
      if a <? b then n else magnitude_from f xn xd (n + 1)
  end.

(** Whether the decimal [s * 10^t] is read as the double [m * 2^e]. *)
Definition reads_back (m : positive) (e : Z) (s : Z) (t : Z) : bool :=
  match of_decimal false (Z.to_N s) t with
  | Finite _ m' e' => Pos.eqb m m' && Z.eqb e e'
  | _ => false
  end.

(** The digits [s] and the exponent [n] the standard asks for: [s] has [k]
    digits, [s * 10^(n - k)] is read as the double [m * 2^e], [k] is as
    small as possible, and of two such [s] the nearer to the double is
    taken.  Seventeen digits are enough for every double. *)
Fixpoint shortest (fuel : nat) (m : positive) (e : Z) (xn xd : Z) (n : Z) (k : Z) : Z * Z :=
  let (a, b) := scaled xn xd (n - k) in
  let lo := a / b in
  let r := a mod b in
  let hi := lo + 1 in
  let lo_ok := reads_back m e lo (n - k) in
  let hi_ok := reads_back m e hi (n - k) in
  let prefer_lo := (2 * r <? b) || ((2 * r =? b) && Z.even lo) in
  match fuel with
  | O => (lo, n)
  | S f =>
      if r =? 0 then (lo, n)
      else if lo_ok && (prefer_lo || negb hi_ok) then (lo, n)
      else if hi_ok then (if hi =? 10 ^ k then (1, n + 1) else (hi, n))
      else shortest f m e xn xd n (k + 1)
  end.

Definition zeros (n : Z) : jstring := repeat 48%N (Z.to_nat n).

Definition Z_digits (z : Z) : jstring := N_toString (Z.to_N z).

(** The text of the positive value whose digits are [ds] and whose decimal
    point stands after the first [n] of them: plain up to 21 digits before
    the point and down to 6 zeros after it, with an exponent otherwise. *)
Definition layout (ds : jstring) (n : Z) : jstring :=
  let k := Z.of_nat (List.length ds) in
  if (k <=? n) && (n <=? 21) then ds ++ zeros (n - k)
  else if (0 <? n) && (n <=? 21) then
    firstn (Z.to_nat n) ds ++ 46%N :: skipn (Z.to_nat n) ds
  else if (-6 <? n) && (n <=? 0) then
    48%N :: 46%N :: zeros (- n) ++ ds
  else
    let exponent := (if n - 1 <? 0 then 45%N else 43%N) :: Z_digits (Z.abs (n - 1)) in
    match ds with
    | [d] => d :: 101%N :: exponent
    | d :: rest => d :: 46%N :: rest ++ 101%N :: exponent
    | [] => []
    end.

(** [String(x)], and [x] in a template or a concatenation. *)
Definition Number_toString (x : number) : jstring :=
  match x with
  | Zero _ => [48%N]
  | Infinite negative => (if negative then [45%N] else []) ++ js "Infinity"
  | Finite negative m e =>
      let xn := if 0 <=? e then Zpos m * 2 ^ e else Zpos m in
      let xd := if 0 <=? e then 1 else 2 ^ (- e) in
      let n := magnitude_from 4 xn xd ((Z.log2 (Zpos m) + e) * 30103 / 100000) in
      let (s, n') := shortest 17 m e xn xd n 1 in
      (if negative then [45%N] else []) ++ layout (Z_digits s) n'
  end.

(** ** Time values *)

(** What [getTime()] and [Date.now()] return: a whole number of
    milliseconds, or NaN for a date that is not valid. *)
Inductive time : Type :=
| NaN
| Millis (t : Z).

(** TimeClip: a finite Number within 8.64e15 of zero, cut to a whole
    number. *)
Definition TimeClip (x : number) : time :=
  match x with
  | Zero _ => Millis 0
  | Infinite _ => NaN
  | Finite negative m e =>
      let t := if 0 <=? e then Zpos m * 2 ^ e else Zpos m / 2 ^ (- e) in
      if 8640000000000000 <? t then NaN
      else Millis (if negative then - t else t)
  end.

(** [b - a] as the comparator of a sort hands it over: the sort reads a
    NaN, the difference when one of the two is NaN, as 0. *)
Definition time_sub (b a : time) : Z :=
  match b, a with
  | Millis y, Millis x => y - x
  | _, _ => 0
  end.

(** [a <= b]: false when one of the two is NaN. *)
Definition time_le (a b : time) : Prop :=
  match a, b with
  | Millis x, Millis y => x <= y
  | _, _ => False
  end.

End JsNumber.
Import JsNumber.

(* ================================================================== *)
(** * JSON values and [JSON.parse] *)
(* ================================================================== *)

Module Json.

(** What [JSON.parse] returns.  A number is the double its literal denotes;
    an object keeps its own properties in the engine's enumeration order. *)
Inductive json : Type :=
| JNull
| JBool (b : bool)
| JNumber (x : number)
| JString (s : jstring)
| JArray (items : list json)
| JObject (props : list (jstring * json)).

(** ** Property order of an ordinary object *)

(** An array index is the canonical decimal text of an integer below
    2^32 - 1; such keys are enumerated first, in ascending order. *)
Definition array_index (k : jstring) : option N :=
  match k with
  | [] => None
  | c :: rest =>
      if forallb is_digit k && (negb (N.eqb c 48) || match rest with [] => true | _ => false end)
         && Nat.leb (List.length k) 10
      then let n := digits_value k 0 in
           if N.ltb n 4294967295 then Some n else None
      else None
  end.

Fixpoint has_key (k : jstring) (ps : list (jstring * json)) : bool :=
  match ps with
  | [] => false
  | (k', _) :: ps' => str_eqb k k' || has_key k ps'
  end.

Fixpoint replace_value (k : jstring) (v : json) (ps : list (jstring * json)) :=
  match ps with
  | [] => []
  | (k', v') :: ps' =>
      if str_eqb k k' then (k', v) :: ps' else (k', v') :: replace_value k v ps'
  end.

Fixpoint insert_index (i : N) (k : jstring) (v : json) (ps : list (jstring * json)) :=
  match ps with
  | [] => [(k, v)]
  | (k', v') :: ps' =>
      match array_index k' with
      | Some j => if N.ltb j i then (k', v') :: insert_index i k v ps'
                  else (k, v) :: ps
      | None => (k, v) :: ps
      end
  end.

(** Defining the property [k] of an object under construction: a key seen
    before keeps its place and takes the new value. *)
Definition obj_set (k : jstring) (v : json) (ps : list (jstring * json)) :=
  if has_key k ps then replace_value k v ps
  else match array_index k with
       | Some i => insert_index i k v ps
       | None => ps ++ [(k, v)]
       end.

(** ** The grammar *)

Definition is_json_ws (c : N) : bool :=
  N.eqb c 32 || N.eqb c 9 || N.eqb c 10 || N.eqb c 13.

Fixpoint skip_ws (s : jstring) : jstring :=
  match s with
  | c :: s' => if is_json_ws c then skip_ws s' else s
  | [] => []
  end.

Definition hex_value (c : N) : option N :=
  if is_digit c then Some (c - 48)%N
  else if N.leb 97 c && N.leb c 102 then Some (c - 87)%N
  else if N.leb 65 c && N.leb c 70 then Some (c - 55)%N
  else None.

Definition hex4 (a b c d : N) : option N :=
  match hex_value a, hex_value b, hex_value c, hex_value d with
  | Some x, Some y, Some z, Some w => Some (((x * 16 + y) * 16 + z) * 16 + w)%N
  | _, _, _, _ => None
  end.

Definition unescape (e : N) : option N :=
  if N.eqb e QUOTE then Some QUOTE
  else if N.eqb e BACKSLASH then Some BACKSLASH
  else if N.eqb e 47 then Some 47%N
  else if N.eqb e 98 then Some 8%N
  else if N.eqb e 102 then Some 12%N
  else if N.eqb e 110 then Some 10%N
  else if N.eqb e 114 then Some 13%N
  else if N.eqb e 116 then Some 9%N
  else None.

Definition push_unit (c : N) (r : option (jstring * jstring)) :=
  match r with
  | Some (s, rest) => Some (c :: s, rest)
  | None => None
  end.

(** The units of a string literal after its opening quote, and what follows
    the closing quote. *)
Fixpoint parse_chars (s : jstring) : option (jstring * jstring) :=
  match s with
  | [] => None
  | c :: rest =>
      if N.eqb c QUOTE then Some ([], rest)
      else if N.eqb c BACKSLASH then
        match rest with
        | [] => None
        | e :: rest1 =>
            if N.eqb e 117 then
              match rest1 with
              | h1 :: h2 :: h3 :: h4 :: rest2 =>
                  match hex4 h1 h2 h3 h4 with
                  | Some u => push_unit u (parse_chars rest2)
                  | None => None
                  end
              | _ => None
              end
            else match unescape e with
                 | Some u => push_unit u (parse_chars rest1)
                 | None => None
                 end
        end
      else if N.ltb c 32 then None
      else push_unit c (parse_chars rest)
  end.

(** The integer part of a number: [0], or digits that do not start with 0. *)
Definition parse_int (s : jstring) : option (jstring * jstring) :=
  match s with
  | c :: s' =>
      if N.eqb c 48 then Some ([c], s')
      else if is_digit c then Some (span_digits s)
      else None
  | [] => None
  end.

Definition parse_frac (s : jstring) : option (jstring * jstring) :=
  match s with
  | c :: s' =>
      if N.eqb c 46 then
        match span_digits s' with
        | ([], _) => None
        | (d, r) => Some (c :: d, r)
        end
      else Some ([], s)
  | [] => Some ([], [])
  end.

Definition parse_exp (s : jstring) : option (jstring * jstring) :=
  match s with
  | c :: s' =>
      if N.eqb c 101 || N.eqb c 69 then
        let (sign, s2) :=
          match s' with
          | g :: s3 => if N.eqb g 43 || N.eqb g 45 then ([g], s3) else ([], s')
          | [] => ([], s')
          end in
        match span_digits s2 with
        | ([], _) => None
        | (d, r) => Some (c :: sign ++ d, r)
        end
      else Some ([], s)
  | [] => Some ([], [])
  end.

Definition parse_number (s : jstring) : option (jstring * jstring) :=
  let (minus, s1) :=
    match s with
    | c :: s' => if N.eqb c 45 then ([c], s') else ([], s)
    | [] => ([], s)
    end in
  match parse_int s1 with
  | None => None
  | Some (i, s2) =>
      match parse_frac s2 with
      | None => None
      | Some (f, s3) =>
          match parse_exp s3 with
          | None => None
          | Some (e, s4) => Some (minus ++ i ++ f ++ e, s4)
          end
      end
  end.

Definition parse_word (w : jstring) (v : json) (s : jstring) : option (json * jstring) :=
  if startsWith w s then Some (v, skipn (List.length w) s) else None.

(** A value, the elements of an array after the first bracket, the members
    of an object after the first brace.  The fuel bounds the depth of the
    calls: twice the length of the text and one more is enough, and then
    more fuel changes nothing ([parse_value_fuel]). *)
Fixpoint parse_value (fuel : nat) (s : jstring) : option (json * jstring) :=
  match fuel with
  | O => None
  | S f =>
      match skip_ws s with
      | [] => None
      | c :: rest =>
          if N.eqb c 123 then
            match skip_ws rest with
            | [] => None
            | c2 :: rest2 =>
                if N.eqb c2 125 then Some (JObject [], rest2)
                else parse_members f rest []
            end
          else if N.eqb c 91 then
            match skip_ws rest with
            | [] => None
            | c2 :: rest2 =>
                if N.eqb c2 93 then Some (JArray [], rest2)
                else parse_elements f rest []
            end
          else if N.eqb c QUOTE then
            match parse_chars rest with
            | Some (str, r) => Some (JString str, r)
            | None => None
            end
          else if N.eqb c 116 then parse_word (js "true") (JBool true) (c :: rest)
          else if N.eqb c 102 then parse_word (js "false") (JBool false) (c :: rest)
          else if N.eqb c 110 then parse_word (js "null") JNull (c :: rest)
          else match parse_number (c :: rest) with
               | Some (lexeme, r) => Some (JNumber (of_literal lexeme), r)
               | None => None
               end
      end
  end
with parse_elements (fuel : nat) (s : jstring) (acc : list json) : option (json * jstring) :=
  match fuel with
  | O => None
  | S f =>
      match parse_value f s with
      | None => None
      | Some (v, r) =>
          match skip_ws r with
          | [] => None
          | c :: r' =>
              if N.eqb c 44 then parse_elements f r' (v :: acc)
              else if N.eqb c 93 then Some (JArray (rev (v :: acc)), r')
              else None
          end
      end
  end
with parse_members (fuel : nat) (s : jstring) (acc : list (jstring * json))
  : option (json * jstring) :=
  match fuel with
  | O => None
  | S f =>
      match skip_ws s with
      | [] => None
      | q :: r =>
          if N.eqb q QUOTE then
            match parse_chars r with
            | None => None
            | Some (k, r1) =>
                match skip_ws r1 with
                | [] => None
                | colon :: r2 =>
                    if N.eqb colon 58 then
                      match parse_value f r2 with
                      | None => None
                      | Some (v, r3) =>
                          match skip_ws r3 with
                          | [] => None
                          | c :: r4 =>
                              if N.eqb c 44 then parse_members f r4 (obj_set k v acc)
                              else if N.eqb c 125 then Some (JObject (obj_set k v acc), r4)
                              else None
                          end
                      end
                    else None
                end
            end
          else None
      end
  end.

(** [JSON.parse(text)]: [None] stands for the SyntaxError it throws. *)
Definition JSON_parse (text : jstring) : option json :=
  match parse_value (S (2 * List.length text)) text with
  | Some (v, rest) =>
      match skip_ws rest with
      | [] => Some v
      | _ :: _ => None
      end
  | None => None
  end.

End Json.
Import Json.

(* ================================================================== *)
(** * The operations of the language on parsed values *)
(* ================================================================== *)

Module JsValue.

(** A value read from parsed data: [None] is [undefined]. *)
Definition value := option json.

Fixpoint lookup (k : jstring) (ps : list (jstring * json)) : value :=
  match ps with
  | [] => None
  | (k', v) :: ps' => if str_eqb k k' then Some v else lookup k ps'
  end.

(** [v.name] for a value that is neither [null] nor [undefined].  The names
    the sources read ([type], [message], [content], ...) are own properties
    of parsed objects only: no prototype defines them. *)
Definition get (v : json) (name : jstring) : value :=
  match v with
  | JObject ps => lookup name ps
  | _ => None
  end.

(** [v.name]: [None] is the TypeError of reading a property of [null] or
    [undefined]. *)
Definition getprop (v : value) (name : jstring) : option value :=
  match v with
  | None | Some JNull => None
  | Some x => Some (get x name)
  end.

(** [v?.name] *)
Definition getprop_opt (v : value) (name : jstring) : value :=
  match v with
  | None | Some JNull => None
  | Some x => get x name
  end.

(** ToBoolean: of the numbers, the two zeros are false. *)
Definition truthy (v : value) : bool :=
  match v with
  | None | Some JNull => false
  | Some (JBool b) => b
  | Some (JNumber (Zero _)) => false
  | Some (JNumber _) => true
  | Some (JString s) => match s with [] => false | _ :: _ => true end
  | Some (JArray _) | Some (JObject _) => true
  end.

(** [a || b] *)
Definition or_else (a b : value) : value := if truthy a then a else b.

(** [v === 'literal'] *)
Definition is_string (lit : jstring) (v : value) : bool :=
  match v with
  | Some (JString s) => str_eqb s lit
  | _ => false
  end.

(** ToString of a parsed value, as string concatenation and template
    literals apply it; [None] is the TypeError raised for an object whose own
    [toString] property hides the inherited method. *)
Fixpoint ToString_json (v : json) : option jstring :=
  match v with
  | JNull => Some (js "null")
  | JBool true => Some (js "true")
  | JBool false => Some (js "false")
  | JNumber x => Some (Number_toString x)
  | JString s => Some s
  | JArray items =>
      (fix join (l : list json) : option jstring :=
         match l with
         | [] => Some []
         | x :: l' =>
             match (match x with JNull => Some [] | _ => ToString_json x end) with
             | None => None
             | Some sx =>
                 match l' with
                 | [] => Some sx
                 | _ :: _ =>
                     match join l' with
                     | None => None
                     | Some sl => Some (sx ++ 44%N :: sl)
                     end
                 end
             end
         end) items
  | JObject ps =>
      if has_key (js "toString") ps then None else Some (js "[object Object]")
  end.

Definition ToString (v : value) : option jstring :=
  match v with
  | None => Some (js "undefined")
  | Some x => ToString_json x
  end.

(** ** [new Date(v).getTime()] *)

Section Dates.

(** [Date.parse]: the time the platform reads off a text, NaN when it
    reads none.  Which texts it reads besides the ISO format is left to the
    platform. *)
Variable Date_parse : jstring -> time.

(** [new Date(v).getTime()] for a parsed value.  A text is parsed; [null],
    a boolean and a number are read as numbers and clipped; nothing at all
    gives NaN; an array or an object is first turned into its text, and
    [None] is the TypeError raised when it has none. *)
Definition Date_getTime (v : value) : option time :=
  match v with
  | None => Some NaN
  | Some JNull => Some (Millis 0)
  | Some (JBool b) => Some (Millis (if b then 1 else 0))
  | Some (JNumber x) => Some (TimeClip x)
  | Some (JString s) => Some (Date_parse s)
  | Some x => option_map Date_parse (ToString_json x)
  end.

End Dates.

End JsValue.
Import JsValue.

(* ================================================================== *)
(** * [core/ClaudeStreamingClient.ts] *)
(* ================================================================== *)

Module StreamingClient.

(** [StreamingMessage.type] *)
Inductive kind : Type :=
  text | thinking | tool_use | tool_result | progress | complete | error.

(** [StreamingMessage]: the [content] is a string wherever the client builds
    it, and whatever the line carried where the client passes a field of an
    unrecognised object on.  The [metadata] is not modelled. *)
Record StreamingMessage := mkMessage {
  type : kind;
  content : json
}.

(** One call of a [StreamingCallbacks] member.  [OnComplete] carries the
    content of the final message (its id and timestamp come from the clock).
    The callbacks are the caller's; they are taken to return normally. *)
Inductive SinkCall : Type :=
| OnMessage (m : StreamingMessage)
| OnComplete (content : jstring)
| OnError (e : json).

Definition message (k : kind) (s : jstring) : SinkCall :=
  OnMessage (mkMessage k (JString s)).

(** ** [isThinkingContent] *)

Definition thinkingIndicators : list jstring :=
  [ js "I need to"; js "Let me"; js "First, I"; js "I should"; js "I'll need to";
    js "Looking at"; js "Based on"; js "To solve this"; js "I can see";
    js "analyzing"; js "considering"; js "thinking"; js "examining";
    js "planning"; js "preparing"; js "organizing"; js "structuring";
    js "preciso"; js "vou"; js "primeiro"; js "analisando"; js "pensando" ].

(** U+1F914, the thinking face, as its surrogate pair. *)
Definition THINKING_FACE : jstring := [55358; 56596]%N.

Definition isThinkingContent (content : jstring) : bool :=
  let lowerContent := toLowerCase content in
  existsb (fun indicator => includes (toLowerCase indicator) lowerContent)
          thinkingIndicators
  || startsWith THINKING_FACE content
  || includes (js "...") content.

(** ** Effects of processing one line *)

(** What the processing of a line acts on: the calls the sink has received,
    latest last, and [fullResponse], the text the content collector gathers. *)
Record effects := mkEffects {
  calls : list SinkCall;
  fullResponse : jstring
}.

Inductive outcome (A : Type) : Type :=
| Returned (a : A)
| Thrown.
Arguments Thrown {A}.

(** A computation that may call the sink, extend [fullResponse], and throw. *)
Definition M (A : Type) : Type := effects -> effects * outcome A.

Definition ret {A} (a : A) : M A := fun e => (e, Returned a).

Definition bind {A B} (m : M A) (k : A -> M B) : M B :=
  fun e =>
    match m e with
    | (e', Returned a) => k a e'
    | (e', Thrown) => (e', Thrown)
    end.

Definition throw {A} : M A := fun e => (e, Thrown).

(** [try { m } catch { h }]: the effects of [m] up to the throw stay. *)
Definition try_catch {A} (m h : M A) : M A :=
  fun e =>
    match m e with
    | (e', Returned a) => (e', Returned a)
    | (e', Thrown) => h e'
    end.

Definition lift {A} (o : option A) : M A :=
  match o with
  | Some a => ret a
  | None => throw
  end.

Definition emit (c : SinkCall) : M unit :=
  fun e => (mkEffects (calls e ++ [c]) (fullResponse e), Returned tt).

Declare Scope js_scope.
Delimit Scope js_scope with js.
Notation "x <- m ;; k" := (bind m (fun x => k))
  (at level 61, m at next level, right associativity) : js_scope.
Notation "m ;; k" := (bind m (fun _ => k))
  (at level 61, right associativity) : js_scope.
Local Open Scope js_scope.

(** The collector [streamFromCLI] passes:
    [(content, type) => { if (type === 'text') fullResponse += content }]. *)
Definition contentCollector (c : value) (k : kind) : M unit :=
  match k with
  | text =>
      s <- lift (ToString c) ;;
      fun e => (mkEffects (calls e) (fullResponse e ++ s), Returned tt)
  | _ => ret tt
  end.

(** [if (c) { body }] *)
Definition when (c : bool) (body : M unit) : M unit :=
  if c then body else ret tt.

(** ** The language of a written file *)

Definition langMap : list (jstring * jstring) :=
  [ (js "js", js "javascript"); (js "ts", js "typescript"); (js "py", js "python");
    (js "cs", js "csharp"); (js "java", js "java"); (js "cpp", js "cpp");
    (js "c", js "c"); (js "html", js "html"); (js "css", js "css");
    (js "json", js "json"); (js "xml", js "xml") ].

Fixpoint assoc (k : jstring) (m : list (jstring * jstring)) : option jstring :=
  match m with
  | [] => None
  | (k', v) :: m' => if str_eqb k k' then Some v else assoc k m'
  end.

(** [langMap[fileExt] || 'code'], as the template prints it.  [langMap] is an
    object literal, so the two lower-case names it inherits answer too. *)
Definition detectedLang (fileExt : jstring) : jstring :=
  match assoc fileExt langMap with
  | Some lang => lang
  | None =>
      if str_eqb fileExt (js "constructor") then js "function Object() { [native code] }"
      else if str_eqb fileExt (js "__proto__") then js "[object Object]"
      else js "code"
  end.

(** [filePath.split('.').pop()?.toLowerCase() || ''] *)
Definition fileExt (filePath : jstring) : jstring :=
  toLowerCase (last (split 46 filePath) []).

(** [x.toFixed(4)] is a method of numbers only. *)
Definition has_toFixed (v : value) : bool :=
  match v with
  | Some (JNumber _) => true
  | _ => false
  end.

(** ** [processStreamingLine] *)

(** One content block of an assistant message; [acc] is [content] so far. *)
Definition process_block (block : json) (acc : jstring) : M jstring :=
  btype <- lift (getprop (Some block) (js "type")) ;;
  if is_string (js "text") btype then
    s <- lift (ToString (get block (js "text"))) ;;
    ret (acc ++ s)
  else if is_string (js "tool_use") btype
          && is_string (js "Write") (get block (js "name")) then
    let input := get block (js "input") in
    let filePath := or_else (getprop_opt input (js "file_path")) (Some (JString [])) in
    let fileContent := or_else (getprop_opt input (js "content")) (Some (JString [])) in
    match filePath with
    | Some (JString path) =>
        let lang := detectedLang (fileExt path) in
        body <- lift (ToString fileContent) ;;
        emit (message tool_use
                (js "Creating file: " ++ path ++ [LF] ++ js "```" ++ lang ++ [LF]
                 ++ body ++ [LF] ++ js "```")) ;;
        contentCollector fileContent text ;;
        ret acc
    | _ => throw
    end
  else ret acc.

Fixpoint process_blocks (blocks : list json) (acc : jstring) : M jstring :=
  match blocks with
  | [] => ret acc
  | b :: blocks' => acc' <- process_block b acc ;; process_blocks blocks' acc'
  end.

(** The branch for [data.type === 'assistant' && data.message]. *)
Definition process_assistant (msg : json) : M unit :=
  let mcontent := get msg (js "content") in
  content <-
    match mcontent with
    | Some (JArray blocks) => process_blocks blocks []
    | Some (JString s) => ret s
    | _ => ret []
    end ;;
  match content with
  | [] => ret tt
  | _ :: _ =>
      let messageType := if isThinkingContent content then thinking else text in
      emit (message messageType content) ;;
      contentCollector (Some (JString content)) messageType
  end.

(** The branch for [data.type === 'result']. *)
Definition process_result (data : json) : M unit :=
  duration <- lift (ToString (get data (js "duration_ms"))) ;;
  let usage := get data (js "usage") in
  when (truthy usage)
    (_ <- lift (ToString (getprop_opt usage (js "input_tokens"))) ;;
     _ <- lift (ToString (getprop_opt usage (js "output_tokens"))) ;;
     let cost := get data (js "total_cost_usd") in
     when (truthy cost) (if has_toFixed cost then ret tt else throw)) ;;
  emit (message progress (js "Completed in " ++ duration ++ js "ms")).

(** The body of the [try] block once the line is parsed. *)
Definition process_data (line : jstring) (data : json) : M unit :=
  dtype <- lift (getprop (Some data) (js "type")) ;;
  if is_string (js "system") dtype && is_string (js "init") (get data (js "subtype")) then
    _ <- lift (ToString (get data (js "session_id"))) ;;
    emit (message progress (js "Initializing Claude session..."))
  else if is_string (js "assistant") dtype && truthy (get data (js "message")) then
    match get data (js "message") with
    | Some msg => process_assistant msg
    | None => ret tt
    end
  else if is_string (js "result") dtype then
    process_result data
  else if is_string (js "error") dtype then
    match or_else (get data (js "message"))
            (or_else (getprop_opt (get data (js "error")) (js "message"))
                     (Some (JString (js "Unknown error")))) with
    | Some e => emit (OnError e)
    | None => ret tt
    end
  else
    _ <- lift (ToString dtype) ;;
    let content :=
      or_else (get data (js "content"))
        (or_else (get data (js "text"))
           (or_else (get data (js "message")) (Some (JString line)))) in
    match content with
    | Some c =>
        when (truthy content)
          (emit (OnMessage (mkMessage text c)) ;;
           contentCollector content text)
    | None => ret tt
    end.

(** The [catch] block: the line is plain text. *)
Definition process_plain (line : jstring) : M unit :=
  match trim line with
  | [] => ret tt
  | _ :: _ =>
      let messageType := if isThinkingContent line then thinking else text in
      emit (message messageType (line ++ [LF])) ;;
      contentCollector (Some (JString (line ++ [LF]))) messageType
  end.

Definition processStreamingLine (line : jstring) : M unit :=
  try_catch
    (data <- lift (JSON_parse line) ;; process_data line data)
    (process_plain line).

(** A line never escapes its own [try]: the [catch] block cannot throw. *)
Definition run_line (e : effects) (line : jstring) : effects :=
  fst (processStreamingLine line e).

(** ** [streamFromCLI] *)

(** The promise [streamFromCLI] returns. *)
Inductive promise : Type :=
| Pending
| Resolved
| Rejected (reason : jstring).

(** The variables the handlers of one request share. *)
Record stream := mkStream {
  eff : effects;
  messageBuffer : jstring;
  hasReceivedData : bool;
  settled : promise;
  timer : bool
}.

Definition initial : stream := mkStream (mkEffects [] []) [] false Pending true.

(** What the child process and the clock can do to a request. *)
Inductive ProcessEvent : Type :=
| Stdout (data : Buffer.bytes)
| Stderr (data : Buffer.bytes)
| Close (code : option Z)
| ProcessError (message : jstring)
| Timeout.

Definition sink (st : stream) : list SinkCall := calls (eff st).

Definition with_eff (st : stream) (e : effects) : stream :=
  mkStream e (messageBuffer st) (hasReceivedData st) (settled st) (timer st).

Definition call (st : stream) (c : SinkCall) : stream :=
  with_eff st (mkEffects (calls (eff st) ++ [c]) (fullResponse (eff st))).

(** [resolve()] and [reject(...)]: only the first of them settles. *)
Definition settle (st : stream) (p : promise) : stream :=
  match settled st with
  | Pending => mkStream (eff st) (messageBuffer st) (hasReceivedData st) p (timer st)
  | _ => st
  end.

(** The complete lines of the buffer, each trimmed, the blank ones left out:
    [for (const line of lines) if (line.trim()) process(line.trim())]. *)
Definition process_lines (e : effects) (lines : list jstring) : effects :=
  fold_left (fun e line =>
               match trim line with
               | [] => e
               | _ :: _ => run_line e (trim line)
               end) lines e.

(** The text a chunk adds: [messageBuffer += chunk] and the split on
    newline, the last fragment going back to the buffer. *)
Definition receive (st : stream) (chunk : jstring) : stream :=
  let lines := split LF (messageBuffer st ++ chunk) in
  mkStream (process_lines (eff st) (removelast lines))
           (last lines []) true (settled st) (timer st).

(** [claudeProcess.stdout.on('data', ...)] *)
Definition on_stdout (st : stream) (data : Buffer.bytes) : stream :=
  receive st (Buffer.toString data).

(** [claudeProcess.stderr.on('data', ...)] *)
Definition on_stderr (st : stream) (data : Buffer.bytes) : stream :=
  let error := Buffer.toString data in
  if includes (js "error") (toLowerCase error)
     || includes (js "failed") (toLowerCase error)
  then call st (OnError (JString error))
  else st.

Definition NO_RESPONSE : jstring := js "No response received from Claude CLI".
Definition TIMED_OUT : jstring := js "Claude CLI request timed out after 2 minutes".

(** The exit code as the template prints it; [None] is the [null] of a
    process ended by a signal. *)
Definition code_text (code : option Z) : jstring :=
  match code with
  | Some z => Z_toString z
  | None => js "null"
  end.

Definition failed_with (code : option Z) : jstring :=
  js "Claude CLI failed with code " ++ code_text code.

Definition stop_timer (st : stream) : stream :=
  mkStream (eff st) (messageBuffer st) (hasReceivedData st) (settled st) false.

(** The two listeners of ['close']: the outcome, then [clearTimeout]. *)
Definition on_close (st : stream) (code : option Z) : stream :=
  stop_timer
    match code with
    | Some 0%Z =>
        if negb (hasReceivedData st)
           || match trim (fullResponse (eff st)) with [] => true | _ :: _ => false end
        then settle (call st (OnError (JString NO_RESPONSE))) (Rejected NO_RESPONSE)
        else settle (call st (OnComplete (fullResponse (eff st)))) Resolved
    | _ =>
        settle (call st (OnError (JString (failed_with code))))
               (Rejected (failed_with code))
    end.

(** [claudeProcess.on('error', ...)] *)
Definition on_error (st : stream) (msg : jstring) : stream :=
  settle (call st (OnError (JString msg))) (Rejected msg).

(** The callback of [setTimeout]; it does not run once the timer is cleared. *)
Definition on_timeout (st : stream) : stream :=
  if timer st
  then stop_timer (settle (call st (OnError (JString TIMED_OUT))) (Rejected TIMED_OUT))
  else st.

Definition streamFromCLI_step (st : stream) (ev : ProcessEvent) : stream :=
  match ev with
  | Stdout data => on_stdout st data
  | Stderr data => on_stderr st data
  | Close code => on_close st code
  | ProcessError msg => on_error st msg
  | Timeout => on_timeout st
  end.

(** ** [sendMessageStreaming] *)

(** [try { await this.streamFromCLI(...) } catch (error) { onError(message) }]:
    the [catch] runs when the promise is rejected, right after the handler
    that rejected it. *)
Definition step (st : stream) (ev : ProcessEvent) : stream :=
  let st' := streamFromCLI_step st ev in
  match settled st, settled st' with
  | Pending, Rejected reason => call st' (OnError (JString reason))
  | _, _ => st'
  end.

Definition run (st : stream) (evs : list ProcessEvent) : stream :=
  fold_left step evs st.

(** The calls the sink of one request receives. *)
Definition sendMessageStreaming (evs : list ProcessEvent) : list SinkCall :=
  sink (run initial evs).

End StreamingClient.

(* ================================================================== *)
(** * [JSON.stringify] and [Array.prototype.sort] *)
(* ================================================================== *)

Module JsLib.

Definition hex_digit (n : N) : N :=
  if N.ltb n 10 then (48 + n)%N else (87 + n)%N.

(** [n.toString(16)] for an integer that is not negative. *)
Fixpoint hex_fuel (fuel : nat) (n : N) (acc : jstring) : jstring :=
  match fuel with
  | O => acc
  | S f =>
      let acc' := hex_digit (N.modulo n 16) :: acc in
      if N.ltb n 16 then acc' else hex_fuel f (N.div n 16) acc'
  end.

Definition N_toString16 (n : N) : jstring :=
  hex_fuel (S (N.to_nat (N.log2 n))) n [].

(** The escape [\uXXXX] of a code unit, in lower-case digits. *)
Definition escape_unit (c : N) : jstring :=
  [BACKSLASH; 117%N;
   hex_digit (N.div c 4096);
   hex_digit (N.modulo (N.div c 256) 16);
   hex_digit (N.modulo (N.div c 16) 16);
   hex_digit (N.modulo c 16)].

Definition is_high_surrogate (c : N) : bool := N.leb 55296 c && N.leb c 56319.
Definition is_low_surrogate (c : N) : bool := N.leb 56320 c && N.leb c 57343.

(** The characters of a quoted string: QuoteJSONString without the quotes. *)
Fixpoint quote_chars (s : jstring) : jstring :=
  match s with
  | [] => []
  | c :: rest =>
      if N.eqb c 8 then BACKSLASH :: 98%N :: quote_chars rest
      else if N.eqb c 9 then BACKSLASH :: 116%N :: quote_chars rest
      else if N.eqb c 10 then BACKSLASH :: 110%N :: quote_chars rest
      else if N.eqb c 12 then BACKSLASH :: 102%N :: quote_chars rest
      else if N.eqb c 13 then BACKSLASH :: 114%N :: quote_chars rest
      else if N.eqb c QUOTE then BACKSLASH :: QUOTE :: quote_chars rest
      else if N.eqb c BACKSLASH then BACKSLASH :: BACKSLASH :: quote_chars rest
      else if N.ltb c 32 then escape_unit c ++ quote_chars rest
      else if is_high_surrogate c then
        match rest with
        | d :: rest' =>
            if is_low_surrogate d then c :: d :: quote_chars rest'
            else escape_unit c ++ quote_chars rest
        | [] => escape_unit c
        end
      else if is_low_surrogate c then escape_unit c ++ quote_chars rest
      else c :: quote_chars rest
  end.

Definition quote (s : jstring) : jstring := QUOTE :: quote_chars s ++ [QUOTE].

(** The parts of an array or object between its brackets. *)
Fixpoint join_parts (sep : jstring) (parts : list jstring) : jstring :=
  match parts with
  | [] => []
  | [p] => p
  | p :: parts' => p ++ sep ++ join_parts sep parts'
  end.

Definition wrap (open close : N) (gap indent inner : jstring) (parts : list jstring) : jstring :=
  match parts with
  | [] => [open; close]
  | _ :: _ =>
      match gap with
      | [] => open :: join_parts [44%N] parts ++ [close]
      | _ :: _ =>
          open :: LF :: inner
            ++ join_parts (44%N :: LF :: inner) parts
            ++ LF :: indent ++ [close]
      end
  end.

(** SerializeJSONProperty on a parsed value: [gap] is the indentation unit
    (empty for the compact form), [indent] the current indentation.  A
    finite number prints as [String] prints it, an infinite one as [null]. *)
Fixpoint serialize (gap indent : jstring) (v : json) : jstring :=
  match v with
  | JNull => js "null"
  | JBool true => js "true"
  | JBool false => js "false"
  | JNumber (Infinite _) => js "null"
  | JNumber x => Number_toString x
  | JString s => quote s
  | JArray items =>
      let inner := indent ++ gap in
      wrap 91 93 gap indent inner
        ((fix elements (l : list json) : list jstring :=
            match l with
            | [] => []
            | x :: l' => serialize gap inner x :: elements l'
            end) items)
  | JObject ps =>
      let inner := indent ++ gap in
      wrap 123 125 gap indent inner
        ((fix members (l : list (jstring * json)) : list jstring :=
            match l with
            | [] => []
            | (k, x) :: l' =>
                (quote k ++ 58%N :: match gap with [] => [] | _ :: _ => [32%N] end
                 ++ serialize gap inner x) :: members l'
            end) ps)
  end.

(** [JSON.stringify(v)] *)
Definition JSON_stringify (v : json) : jstring := serialize [] [] v.

(** [JSON.stringify(v, null, 2)] *)
Definition JSON_stringify2 (v : json) : jstring := serialize (js "  ") [] v.

(** ** Sorting *)

Section Sort.
Variable A : Type.
(** The comparator of [sort]: negative when its first argument goes first. *)
Variable compare : A -> A -> Z.

Fixpoint insert (x : A) (l : list A) : list A :=
  match l with
  | [] => [x]
  | y :: l' => if Z.leb (compare x y) 0 then x :: l else y :: insert x l'
  end.

(** [l.sort(compare)]: the sort is stable, so for a comparator that orders
    the elements the result does not depend on the algorithm; this is
    insertion from the right, which keeps equal elements in their order.
    For a comparator that does not order them (the difference of two times
    when a NaN stands among different times) the standard leaves the order
    to the engine: the result is then known to be a rearrangement only. *)
Definition sort (l : list A) : list A := fold_right insert [] l.
End Sort.

(** [l.slice(from, to)] for two indices that are not negative. *)
Definition slice {A} (from to : nat) (l : list A) : list A :=
  firstn (to - from) (skipn from l).

(** [l.findIndex(p)]; [None] for -1. *)
Fixpoint findIndex {A} (p : A -> bool) (l : list A) : option nat :=
  match l with
  | [] => None
  | x :: l' => if p x then Some O else option_map S (findIndex p l')
  end.

(** [l.filter((x, index) => p x index)] *)
Fixpoint filter_index_from {A} (p : A -> nat -> bool) (i : nat) (l : list A) : list A :=
  match l with
  | [] => []
  | x :: l' => if p x i then x :: filter_index_from p (S i) l'
               else filter_index_from p (S i) l'
  end.

Definition filter_index {A} (p : A -> nat -> bool) (l : list A) : list A :=
  filter_index_from p 0 l.

End JsLib.
Import JsLib.

(* ================================================================== *)
(** * [types/index.ts] *)
(* ================================================================== *)

Module Types.

(** [ClaudeTask.status] *)
Inductive status : Type := pending | running | completed | error.

(** [ClaudeMessage].  A message read from a transcript carries whatever the
    entry held as [uuid] and [role]. *)
Record ClaudeMessage := mkClaudeMessage {
  msg_id : value;
  role : value;
  content : jstring;
  timestamp : time
}.

(** [ClaudeTask.metadata], the fields the core writes. *)
Record TaskMetadata := mkTaskMetadata {
  sessionId : jstring;
  cwd : value;
  version : value;
  gitBranch : value;
  projectDir : option jstring
}.

(** [ClaudeTask]: one session. *)
Record ClaudeTask := mkClaudeTask {
  id : jstring;
  title : jstring;
  description : jstring;
  task_status : status;
  messages : list ClaudeMessage;
  createdAt : time;
  updatedAt : time;
  metadata : TaskMetadata
}.

(** [(a, b) => b.updatedAt - a.updatedAt] *)
Definition by_updatedAt_desc (a b : ClaudeTask) : Z := time_sub (updatedAt b) (updatedAt a).

(** A position in a document; the editor counts lines and characters
    from 0. *)
Record Position := mkPosition {
  pos_line : N;
  pos_character : N
}.

(** [FileContext.selection] *)
Record Selection := mkSelection {
  sel_start : Position;
  sel_end : Position
}.

(** [FileContext] *)
Record FileContext := mkFileContext {
  file_path : jstring;
  file_content : option jstring;
  file_selection : option Selection
}.

(** [WorkspaceContext] *)
Record WorkspaceContext := mkWorkspaceContext {
  rootPath : jstring;
  openFiles : list FileContext;
  currentFile : option FileContext
}.

End Types.
Import Types.

(* ================================================================== *)
(** * [core/ClaudeSessionManager.ts] *)
(* ================================================================== *)

Module SessionManager.

(** U+1F527, the wrench, as its surrogate pair. *)
Definition WRENCH : jstring := [55357; 56615]%N.

(** One item of a list-typed content; [None] is a TypeError. *)
Definition format_item (item : json) : option jstring :=
  match getprop (Some item) (js "type") with
  | None => None
  | Some itype =>
      if is_string (js "text") itype then ToString (get item (js "text"))
      else if is_string (js "tool_use") itype then
        match ToString (get item (js "name")) with
        | None => None
        | Some name =>
            Some ([LF; LF] ++ WRENCH ++ js " **Tool Use:** " ++ name ++ [LF]
                  ++ match get item (js "input") with
                     | Some input =>
                         if truthy (Some input)
                         then js "Parameters: " ++ JSON_stringify2 input ++ [LF]
                         else []
                     | None => []
                     end)
        end
      else
        match ToString itype with
        | None => None
        | Some t => Some (LF :: js "[" ++ t ++ js "]: " ++ JSON_stringify2 item ++ [LF])
        end
  end.

Fixpoint format_items (items : list json) (formatted : jstring) : option jstring :=
  match items with
  | [] => Some formatted
  | item :: items' =>
      match format_item item with
      | None => None
      | Some s => format_items items' (formatted ++ s)
      end
  end.

(** [formatComplexContent] *)
Definition formatComplexContent (content : value) : option jstring :=
  match content with
  | Some (JArray items) => option_map trim (format_items items [])
  | _ => ToString content
  end.

(** The entries the loop of [parseSessionFile] turns into messages. *)
Definition is_turn (entry : json) : bool :=
  is_string (js "user") (get entry (js "type"))
  || is_string (js "assistant") (get entry (js "type")).

(** [determineSessionStatus] *)
Definition determineSessionStatus (entries : list json) : status :=
  match last entries JNull with
  | lastMessage =>
      if is_string (js "user") (get lastMessage (js "type")) then pending
      else if is_string (js "assistant") (get lastMessage (js "type")) then completed
      else completed
  end.

Definition PLACEHOLDER : jstring := js "Claude Code Session".

(** [generateSessionTitle] *)
Definition generateSessionTitle (messages : list ClaudeMessage) : jstring :=
  match find (fun m => is_string (js "user") (role m)) messages with
  | Some firstUserMessage =>
      match content firstUserMessage with
      | [] => PLACEHOLDER
      | _ :: _ =>
          let title := trim (replaceAll LF 32 (substring0 50 (content firstUserMessage))) in
          title ++ (if Nat.ltb 50 (List.length (content firstUserMessage))
                    then js "..." else [])
      end
  | None => PLACEHOLDER
  end.

(** [projectPath.replace(/\//g, '-').replace(/^-/, '')] *)
Definition getProjectKey (projectPath : jstring) : jstring :=
  match replaceAll 47 45 projectPath with
  | c :: rest => if N.eqb c 45 then rest else c :: rest
  | [] => []
  end.

(** [projectDir.replace(/-/g, '/')], the path [getAllSessions] records for a
    project directory. *)
Definition projectDir_of (dir : jstring) : jstring := replaceAll 45 47 dir.

(** ** [generateSessionId] *)

Definition UUID_TEMPLATE : jstring := js "xxxxxxxx-xxxx-4xxx-yxxx-xxxxxxxxxxxx".

(** [template.replace(/[xy]/g, c => ...)]: the callback runs once for each
    [x] and [y], from left to right.  [random16 i] is the value of
    [Math.random() * 16 | 0] in the call number [i]; it lies between 0 and 15,
    [Math.random()] being below 1. *)
Fixpoint replace_xy (random16 : nat -> N) (i : nat) (template : jstring) : jstring :=
  match template with
  | [] => []
  | c :: rest =>
      if N.eqb c 120 then
        N_toString16 (random16 i) ++ replace_xy random16 (S i) rest
      else if N.eqb c 121 then
        N_toString16 (N.lor (N.land (random16 i) 3) 8) ++ replace_xy random16 (S i) rest
      else c :: replace_xy random16 i rest
  end.

Definition generateSessionId (random16 : nat -> N) : jstring :=
  replace_xy random16 0 UUID_TEMPLATE.

Section Transcripts.

(** [Date.parse]: how the platform reads the text of a timestamp. *)
Variable Date_parse : jstring -> time.

(** The message of one entry. [None]: the entry is no turn of the
    conversation; [Some None]: reading it raised a TypeError. *)
Definition entry_message (entry : json) : option (option ClaudeMessage) :=
  match getprop (Some entry) (js "type") with
  | None => Some None
  | Some _ =>
      if is_turn entry then
        Some
          match getprop (get entry (js "message")) (js "content") with
          | None => None
          | Some c =>
              match (match c with
                     | Some (JString s) => Some s
                     | _ => formatComplexContent c
                     end) with
              | None => None
              | Some text =>
                  match Date_getTime Date_parse (get entry (js "timestamp")) with
                  | None => None
                  | Some time =>
                      Some (mkClaudeMessage (get entry (js "uuid"))
                              (getprop_opt (get entry (js "message")) (js "role"))
                              text time)
                  end
              end
          end
      else None
  end.

(** The loop over the entries; [None] is a TypeError. *)
Fixpoint entry_messages (entries : list json) : option (list ClaudeMessage) :=
  match entries with
  | [] => Some []
  | entry :: entries' =>
      match entry_message entry with
      | Some None => None
      | Some (Some m) => option_map (cons m) (entry_messages entries')
      | None => entry_messages entries'
      end
  end.

(** The lines of a transcript that hold something. *)
Definition file_lines (content : jstring) : list jstring :=
  filter (fun line => match trim line with [] => false | _ :: _ => true end)
         (split LF (trim content)).

(** The entries of a transcript: its parseable lines, in order. *)
Fixpoint parse_lines (lines : list jstring) : list json :=
  match lines with
  | [] => []
  | line :: lines' =>
      match JSON_parse line with
      | Some entry => entry :: parse_lines lines'
      | None => parse_lines lines'
      end
  end.

Definition file_entries (content : jstring) : list json :=
  parse_lines (file_lines content).

(** [parseSessionFile], from the text [readFileSync] returned; [None] is
    the [null] it returns, also from its [catch]. *)
Definition parseSessionFile (content : jstring) (sessionId : jstring) : option ClaudeTask :=
  match file_entries content with
  | [] => None
  | (firstEntry :: _) as entries =>
      match entry_messages entries,
            Date_getTime Date_parse (get firstEntry (js "timestamp")),
            Date_getTime Date_parse (get (last entries JNull) (js "timestamp")) with
      | Some messages, Some created, Some updated =>
          Some (mkClaudeTask sessionId
                  (generateSessionTitle messages)
                  (js "Claude Code Session - "
                   ++ N_toString (N.of_nat (List.length messages)) ++ js " messages")
                  (determineSessionStatus entries)
                  messages
                  created
                  updated
                  (mkTaskMetadata sessionId
                     (get firstEntry (js "cwd"))
                     (get firstEntry (js "version"))
                     (get firstEntry (js "gitBranch"))
                     None))
      | _, _, _ => None
      end
  end.

(** A projects directory: for a project key and a file name, the text of
    the file [<projectsDir>/<key>/<name>] when it exists. *)
Definition disk := jstring -> jstring -> option jstring.

(** [getSession], for the workspace folder's path, if there is one. *)
Definition getSession (fs : disk) (workspaceFolder : option jstring)
           (sessionId : jstring) : option ClaudeTask :=
  match workspaceFolder with
  | None => None
  | Some projectPath =>
      match fs (getProjectKey projectPath) (sessionId ++ js ".jsonl") with
      | None => None
      | Some content => parseSessionFile content sessionId
      end
  end.

(** [getProjectSessions], from the session files of the project directory,
    most recently modified first, each with its id and text. *)
Fixpoint getProjectSessions (files : list (jstring * jstring)) : list ClaudeTask :=
  match files with
  | [] => []
  | (sessionId, content) :: files' =>
      match parseSessionFile content sessionId with
      | Some task => task :: getProjectSessions files'
      | None => getProjectSessions files'
      end
  end.

(** [getLatestSessionId] *)
Definition getLatestSessionId (files : list (jstring * jstring)) : option jstring :=
  match getProjectSessions files with
  | [] => None
  | task :: _ => Some (id task)
  end.

(** [sessionExists] *)
Definition sessionExists (fs : disk) (workspaceFolder : option jstring)
           (sessionId : jstring) : bool :=
  match workspaceFolder with
  | None => false
  | Some projectPath =>
      match fs (getProjectKey projectPath) (sessionId ++ js ".jsonl") with
      | Some _ => true
      | None => false
      end
  end.

Definition with_projectDir (task : ClaudeTask) (dir : jstring) : ClaudeTask :=
  mkClaudeTask (id task) (title task) (description task) (task_status task)
    (messages task) (createdAt task) (updatedAt task)
    (mkTaskMetadata (sessionId (metadata task)) (cwd (metadata task))
       (version (metadata task)) (gitBranch (metadata task))
       (Some (projectDir_of dir))).

(** [getAllSessions], from the project directories and their session files. *)
Definition getAllSessions (dirs : list (jstring * list (jstring * jstring))) : list ClaudeTask :=
  sort by_updatedAt_desc
    (flat_map (fun d => map (fun task => with_projectDir task (fst d))
                            (getProjectSessions (snd d))) dirs).

End Transcripts.

End SessionManager.

(* ================================================================== *)
(** * [core/ClaudeCodeManager.ts] *)
(* ================================================================== *)

Module Manager.

Import StreamingClient.

(** ** The subprocess transport of the manager *)

(** [emitStreamingMessage] reads [message.content?.substring(0, 100)] for its
    log before it fires the event: a content that is neither a string nor
    missing raises a TypeError and nothing is fired. *)
Definition emitStreamingMessage (k : kind) (content : value) : option StreamingMessage :=
  match content with
  | Some (JString s) => Some (mkMessage k (JString s))
  | _ => None
  end.

(** [processStreamingJSON]: the message it fires; [None] is a TypeError. *)
Definition processStreamingJSON (data : json) : option StreamingMessage :=
  match getprop (Some data) (js "type") with
  | None => None
  | Some dtype =>
      let body := or_else (get data (js "content"))
                    (or_else (get data (js "text")) (Some (JString []))) in
      if is_string (js "thinking") dtype then emitStreamingMessage thinking body
      else if is_string (js "text") dtype || is_string (js "assistant") dtype then
        emitStreamingMessage text body
      else if is_string (js "tool_use") dtype then
        match ToString (or_else (get data (js "name")) (Some (JString (js "Unknown")))) with
        | Some name => emitStreamingMessage tool_use (Some (JString (js "Using tool: " ++ name)))
        | None => None
        end
      else if is_string (js "tool_result") dtype then
        emitStreamingMessage tool_result
          (or_else (get data (js "content")) (Some (JString (js "Tool execution completed"))))
      else emitStreamingMessage text (Some (JString (JSON_stringify data)))
  end.

(** [try { processStreamingJSON(JSON.parse(line)) } catch { emit text }] *)
Definition process_text (line : jstring) : list StreamingMessage :=
  match JSON_parse line with
  | Some data =>
      match processStreamingJSON data with
      | Some m => [m]
      | None => match trim line with
                | [] => []
                | _ :: _ => [mkMessage text (JString (trim line))]
                end
      end
  | None => match trim line with
            | [] => []
            | _ :: _ => [mkMessage text (JString (trim line))]
            end
  end.

(** The variables of one call of [callClaudeCodeCLIStreaming]: the events
    fired so far, latest last, and the line buffer. *)
Record cli := mkCli {
  fired : list SinkCall;
  buffer : jstring;
  outcome : promise
}.

Definition cli_initial : cli := mkCli [] [] Pending.

Definition fire_lines (lines : list jstring) : list SinkCall :=
  flat_map (fun line =>
              match trim line with
              | [] => []
              | _ :: _ => map OnMessage (process_text line)
              end) lines.

Definition cli_receive (st : cli) (chunk : jstring) : cli :=
  let lines := split LF (buffer st ++ chunk) in
  mkCli (fired st ++ fire_lines (removelast lines)) (last lines []) (outcome st).

(** [claudeProcess.stdout.on('data', ...)] *)
Definition cli_on_stdout (st : cli) (chunk : Buffer.bytes) : cli :=
  cli_receive st (Buffer.toString chunk).

Definition COMPLETED : jstring := js "Streaming response completed".

(** [resolve()] and [reject(...)] on a promise: the first one settles it. *)
Definition settle_with (old new : promise) : promise :=
  match old with
  | Pending => new
  | _ => old
  end.

(** [claudeProcess.on('close', ...)]: what is left in the buffer is
    processed, then the promise is settled. *)
Definition cli_on_close (st : cli) (code : option Z) : cli :=
  let flushed := fired st ++ fire_lines [buffer st] in
  match code with
  | Some 0%Z =>
      mkCli (flushed ++ [OnComplete COMPLETED]) (buffer st)
            (settle_with (outcome st) Resolved)
  | _ =>
      mkCli flushed (buffer st)
            (settle_with (outcome st)
               (Rejected (js "Claude Code process exited with code " ++ code_text code)))
  end.

(** ** The message sent to the command line *)

(** [lines.slice(selection.start.line, selection.end.line + 1).join('\n')],
    the lines being those of [currentFile.content || '']. *)
Definition selectedCode (file : FileContext) (sel : Selection) : jstring :=
  let content := match file_content file with Some c => c | None => [] end in
  join_parts [LF]
    (slice (N.to_nat (pos_line (sel_start sel)))
           (N.to_nat (pos_line (sel_end sel)) + 1)
           (split LF content)).

Definition FENCE : jstring := js "```".

(** [contextMessage], as [callClaudeCodeCLIStreaming], [callClaudeSDKQueryAPI]
    and [callClaudeCodeCLI] build it: the message, the current file with the
    selected code, and the root of the project. *)
Definition contextMessage (message : jstring) (workspaceContext : option WorkspaceContext)
  : jstring :=
  match workspaceContext with
  | None => message
  | Some ctx =>
      message
      ++ match currentFile ctx with
         | Some file =>
             [LF; LF] ++ js "Current file: " ++ file_path file
             ++ match file_selection file with
                | Some sel =>
                    [LF; LF] ++ js "Selected code:" ++ [LF] ++ FENCE ++ [LF]
                    ++ selectedCode file sel ++ [LF] ++ FENCE
                | None => []
                end
         | None => []
         end
      ++ match rootPath ctx with
         | [] => []
         | _ :: _ => [LF; LF] ++ js "Project: " ++ rootPath ctx
         end
  end.

(** [contextMessage.replace(/"/g, '\\"').replace(/\n/g, ' ')] *)
Definition escape_quotes (s : jstring) : jstring :=
  flat_map (fun c => if N.eqb c QUOTE then [BACKSLASH; QUOTE] else [c]) s.

Definition quoted_argument (contextMessage : jstring) : jstring :=
  replaceAll LF 32 (escape_quotes contextMessage).

(** The command line [callClaudeCodeCLI] hands to [exec]. *)
Definition command (claudeExecutablePath contextMessage : jstring) : jstring :=
  claudeExecutablePath ++ js " --print " ++ QUOTE :: quoted_argument contextMessage ++ [QUOTE].

(** ** Transport selection *)

(** The two transports. *)
Inductive transport : Type := Direct | Subprocess.


(** How a transport call ended. *)
Inductive result : Type :=
| Done
| Error (message : jstring).

(** The fields of the manager the selection reads and writes. *)
Record manager := mkManager {
  isInitialized : bool;
  useSDK : bool
}.




(** One transport call made for a request. *)
Record attempt (Req : Type) := mkAttempt {
  via : transport;
  request : Req
}.

Definition NOT_STARTED : jstring := js "Claude Code session not started".

Section Send.
(** The request: message, files, workspace context and session id. *)
Variable Req : Type.

(** [callClaudeSDKQueryAPI]: the query, and on any failure the demotion and
    one call of the subprocess transport with the same arguments. *)
Definition callClaudeSDKQueryAPI (m : manager) (req : Req) (sdk cli : result)
  : manager * list (attempt Req) * result :=
  match sdk with
  | Done => (m, [mkAttempt Direct req], Done)
  | Error _ =>
      (mkManager (isInitialized m) false,
       [mkAttempt Direct req; mkAttempt Subprocess req], cli)
  end.

(** [sendMessageStreaming], given how each transport would end if called. *)
Definition sendMessageStreaming (m : manager) (req : Req) (sdk cli : result)
  : manager * list (attempt Req) * result :=
  if negb (isInitialized m) then (m, [], Error NOT_STARTED)
  else if useSDK m then callClaudeSDKQueryAPI m req sdk cli
  else (m, [mkAttempt Subprocess req], cli).






End Send.

(** ** Merging sessions *)

(** [allSessions.filter((session, index, arr) =>
       arr.findIndex(s => s.id === session.id) === index)] *)
Definition uniqueSessions (allSessions : list ClaudeTask) : list ClaudeTask :=
  filter_index
    (fun session index =>
       match findIndex (fun s => str_eqb (id s) (id session)) allSessions with
       | Some i => Nat.eqb i index
       | None => false
       end)
    allSessions.

(** [loadClaudeCodeSessions], from the sessions read from disk and the tasks
    held in memory. *)
Definition loadClaudeCodeSessions (realSessions tasks : list ClaudeTask) : list ClaudeTask :=
  sort by_updatedAt_desc (uniqueSessions (realSessions ++ tasks)).

(** ** The tasks of the manager *)

(** Tasks are objects: [this.tasks] and [this.currentTask] hold references
    to them, and a task changed through one is changed for the other.  The
    store keeps the objects by address. *)
Record store := mkStore {
  objects : list ClaudeTask;
  tasks : list nat;
  currentTask : option nat;
  (** the tasks [_onTaskUpdate] fired, latest last *)
  onTaskUpdate : list nat;
  (** the calls of [startNewTask] that wait at their [await] *)
  starting : nat
}.

Definition empty_store : store := mkStore [] [] None [] 0.

Definition deref (s : store) (a : nat) : option ClaudeTask := nth_error (objects s) a.

(** [getTasks()], each task as it is now. *)
Definition getTasks (s : store) : list (option ClaudeTask) := map (deref s) (tasks s).

(** [getCurrentTask()] *)
Definition getCurrentTask (s : store) : option ClaudeTask :=
  match currentTask s with
  | Some a => deref s a
  | None => None
  end.

Fixpoint set_nth {A} (n : nat) (x : A) (l : list A) : list A :=
  match l, n with
  | [], _ => []
  | _ :: l', O => x :: l'
  | y :: l', S n' => y :: set_nth n' x l'
  end.

Definition NEW_TASK : jstring := js "New Task".

Definition new_task (sessionId title : jstring) (createdAt updatedAt : Z) : ClaudeTask :=
  mkClaudeTask sessionId title [] pending [] (Millis createdAt) (Millis updatedAt)
    (mkTaskMetadata sessionId None None None None).

(** [this.tasks.unshift(task); this.currentTask = task;
     this._onTaskUpdate.fire(task)] for a task just built. *)
Definition add_task (s : store) (task : ClaudeTask) : store :=
  let a := List.length (objects s) in
  mkStore (objects s ++ [task]) (a :: tasks s) (Some a) (onTaskUpdate s ++ [a]) (starting s).

(** [startNewTask], up to the point where it gives control back to its
    caller.  Without the SDK the identifier is generated on the spot and the
    call runs to its end.  With the SDK the call waits for
    [startNewSession()] at its [await]: it has not touched the tasks when it
    returns, and goes on in a later turn of the event loop
    ([startNewTask_resumed]).  The identifier and the two readings of the
    clock are given. *)
Definition startNewTask (useSDK : bool) (s : store) (sessionId : jstring)
           (createdAt updatedAt : Z) : store :=
  if useSDK
  then mkStore (objects s) (tasks s) (currentTask s) (onTaskUpdate s) (S (starting s))
  else add_task s (new_task sessionId NEW_TASK createdAt updatedAt).

Definition startNewTask_resumed (s : store) (sessionId : jstring)
           (createdAt updatedAt : Z) : store :=
  match starting s with
  | O => s
  | S n =>
      add_task (mkStore (objects s) (tasks s) (currentTask s) (onTaskUpdate s) n)
               (new_task sessionId NEW_TASK createdAt updatedAt)
  end.

(** What [updateCurrentTask] does to the current task. *)
Definition record_message (now : Z) (message : ClaudeMessage) (task : ClaudeTask) : ClaudeTask :=
  let user := is_string (js "user") (role message) in
  mkClaudeTask (id task)
    (if user && str_eqb (title task) NEW_TASK
     then substring0 50 (Types.content message) ++ js "..."
     else title task)
    (description task)
    (if user then running else task_status task)
    (messages task ++ [message])
    (createdAt task) (Millis now) (metadata task).

(** [updateCurrentTask]; [sessionId], [createdAt] and [updatedAt] are what
    [startNewTask] would draw if it is called. *)
Definition updateCurrentTask (useSDK : bool) (s : store) (sessionId : jstring)
           (createdAt updatedAt now : Z) (message : ClaudeMessage) : store :=
  let s1 := match currentTask s with
            | None => startNewTask useSDK s sessionId createdAt updatedAt
            | Some _ => s
            end in
  match currentTask s1 with
  | Some a =>
      match deref s1 a with
      | Some task =>
          mkStore (set_nth a (record_message now message task) (objects s1))
                  (tasks s1) (currentTask s1) (onTaskUpdate s1 ++ [a]) (starting s1)
      | None => s1
      end
  | None => s1
  end.

(** [stopCurrentTask] *)
Definition stopCurrentTask (s : store) (now : Z) : store :=
  match currentTask s with
  | Some a =>
      match deref s a with
      | Some task =>
          match task_status task with
          | running =>
              mkStore (set_nth a (mkClaudeTask (id task) (title task) (description task)
                                    completed (messages task) (createdAt task) (Millis now)
                                    (metadata task))
                                 (objects s))
                      (tasks s) (currentTask s) (onTaskUpdate s ++ [a]) (starting s)
          | _ => s
          end
      | None => s
      end
  | None => s
  end.

(** [startNewSessionWithId]: [sessionId || generateSessionId()]. *)
Definition startNewSessionWithId (s : store) (sessionId : option jstring)
           (generated : jstring) (createdAt updatedAt : Z) : store :=
  let newSessionId := match sessionId with
                      | Some (c :: r) => c :: r
                      | _ => generated
                      end in
  add_task s (new_task newSessionId (js "New Claude Code Session") createdAt updatedAt).

(** One call of [updateCurrentTask], with what it may draw. *)
Record recording := mkRecording {
  fresh_id : jstring;
  fresh_createdAt : Z;
  fresh_updatedAt : Z;
  recorded_at : Z;
  recorded : ClaudeMessage
}.

Definition record_all (useSDK : bool) (s : store) (rs : list recording) : store :=
  fold_left (fun s r => updateCurrentTask useSDK s (fresh_id r) (fresh_createdAt r)
                          (fresh_updatedAt r) (recorded_at r) (recorded r))
            rs s.

End Manager.

(* ================================================================== *)
(** * [core/ClaudeSDKClient.ts] *)
(* ================================================================== *)

Module SDKClient.

(** [ClaudeSDKResponse]: the content and the usage of its metadata (the
    request identifier is drawn at random). *)
Record ClaudeSDKResponse := mkResponse {
  content : jstring;
  inputTokens : nat;
  outputTokens : nat
}.

Definition maxMessages : nat := 10.

Definition NOTHING_RECEIVED : jstring := js "SDK connected but no response received".

(** The loop of [executeSDKQuery] over the messages the query yields, which
    are plain data; [failing] tells whether the query raises an error after
    the last of them instead of ending.  [None] is an error thrown. *)
Fixpoint read_messages (yielded : list json) (failing : bool) (messageCount : nat)
         (fullResponse : jstring) : option jstring :=
  match yielded with
  | [] => if failing then None else Some fullResponse
  | msg :: rest =>
      if Nat.ltb maxMessages (S messageCount) then Some fullResponse
      else
        match getprop (Some msg) (js "type") with
        | None => None
        | Some mtype =>
            if is_string (js "result") mtype && truthy (get msg (js "result")) then
              option_map (app fullResponse) (ToString (get msg (js "result")))
            else if truthy (get msg (js "content")) then
              match ToString (get msg (js "content")) with
              | Some s => read_messages rest failing (S messageCount) (fullResponse ++ s)
              | None => None
              end
            else read_messages rest failing (S messageCount) fullResponse
        end
  end.

(** [executeSDKQuery]; [query] tells whether the SDK was loaded. *)
Definition executeSDKQuery (query : bool) (message : jstring)
           (yielded : list json) (failing : bool) : option ClaudeSDKResponse :=
  if query then
    match read_messages yielded failing 0 [] with
    | Some fullResponse =>
        let fullResponse' := match trim fullResponse with
                             | [] => NOTHING_RECEIVED
                             | _ :: _ => fullResponse
                             end in
        Some (mkResponse fullResponse' (List.length message) (List.length fullResponse'))
    | None => None
    end
  else None.

End SDKClient.

(* ================================================================== *)
(** * [providers/ClaudeChatProvider.ts] *)
(* ================================================================== *)

Module ChatProvider.

Import StreamingClient.

(** A [StreamingMessage] as the provider reads it, its metadata included. *)
Record Message := mkIncoming {
  type : kind;
  content : json;
  metadata : value
}.

Section Provider.

(** The formatters the provider imports from [utils/AnsiColorConverter]. *)
Variable formatThinkingText : json -> json.
Variable formatToolUsage : value -> value -> json.
Variable hasAnsiCodes : json -> bool.
Variable toStyledSpans : json -> json.

(** The numbers [onStreamingProgress] carries. *)
Variable Progress : Type.

(** What the provider posts to the webview. *)
Inductive post : Type :=
| showTyping
| hideTyping
| streamingError (error : jstring)
| streamingMessage (messageId : option jstring) (messageType : kind) (content : json)
                   (cssClass : jstring) (metadata : value)
| streamingProgress (messageId : option jstring) (fraction : Progress)
| streamingComplete (messageId : option jstring) (finalMessage : ClaudeMessage)
| addMessage (message : ClaudeMessage)
| clearMessages
| workspaceContext (context : WorkspaceContext).

(** The fields of the provider; [view] tells whether [_view] is set. *)
Record provider := mkProvider {
  view : bool;
  messages : list ClaudeMessage;
  isStreaming : bool;
  streamingMessageId : option jstring;
  posted : list post
}.

Definition created : provider := mkProvider false [] false None [].

Definition postMessage (p : provider) (m : post) : provider :=
  mkProvider (view p) (messages p) (isStreaming p) (streamingMessageId p) (posted p ++ [m]).

(** [resolveWebviewView] *)
Definition resolveWebviewView (p : provider) : provider :=
  mkProvider true (messages p) (isStreaming p) (streamingMessageId p) (posted p).

(** [handleSendMessage] up to its [await]; [now] is [Date.now()]. *)
Definition handleSendMessage_begin (p : provider) (now : Z) : provider :=
  let p1 := mkProvider (view p) (messages p) true (Some (Z_toString now)) (posted p) in
  if view p1 then postMessage p1 showTyping else p1.

(** [handleSendMessage] after its [await]: the call of the manager returned,
    or failed with a message. *)
Definition handleSendMessage_end (p : provider) (useStreaming : bool)
           (failure : option jstring) : provider :=
  match failure with
  | None =>
      if useStreaming then p
      else mkProvider (view p) (messages p) false None (posted p)
  | Some errorMessage =>
      let p1 := mkProvider (view p) (messages p) false None (posted p) in
      if view p1
      then postMessage (postMessage p1 hideTyping) (streamingError errorMessage)
      else p1
  end.

(** [handleStreamingMessage] *)
Definition handleStreamingMessage (p : provider) (m : Message) : provider :=
  if negb (view p) || negb (isStreaming p) then p
  else
    let p1 := postMessage p hideTyping in
    let '(processedContent, cssClass) :=
      match type m with
      | thinking => (formatThinkingText (content m), js "thinking-text")
      | tool_use =>
          (if truthy (getprop_opt (metadata m) (js "toolName"))
           then formatToolUsage (getprop_opt (metadata m) (js "toolName")) (metadata m)
           else content m,
           js "tool-usage")
      | tool_result => (content m, js "tool-result")
      | progress => (content m, js "progress-update")
      | _ =>
          (if hasAnsiCodes (content m) then toStyledSpans (content m) else content m,
           js "streaming-text")
      end in
    postMessage p1
      (streamingMessage (streamingMessageId p) (type m) processedContent cssClass (metadata m)).

(** [updateStreamingProgress] *)
Definition updateStreamingProgress (p : provider) (fraction : Progress) : provider :=
  if negb (view p) || negb (isStreaming p) then p
  else postMessage p (streamingProgress (streamingMessageId p) fraction).

(** [finalizeStreamingMessage] *)
Definition finalizeStreamingMessage (p : provider) (finalMessage : ClaudeMessage) : provider :=
  if negb (view p) || negb (isStreaming p) then p
  else
    let p1 := postMessage (postMessage p hideTyping)
                (streamingComplete (streamingMessageId p) finalMessage) in
    mkProvider (view p1) (messages p1) false None (posted p1).

(** [addMessage] *)
Definition addMessage_ (p : provider) (message : ClaudeMessage) : provider :=
  let p1 := mkProvider (view p) (messages p ++ [message]) (isStreaming p)
              (streamingMessageId p) (posted p) in
  if view p1 then postMessage p1 (addMessage message) else p1.

(** [clearChat] *)
Definition clearChat (p : provider) : provider :=
  let p1 := mkProvider (view p) [] (isStreaming p) (streamingMessageId p) (posted p) in
  if view p1 then postMessage p1 clearMessages else p1.

(** [sendWorkspaceContext], for the context the manager returns. *)
Definition sendWorkspaceContext (p : provider) (context : WorkspaceContext) : provider :=
  if view p then postMessage p (workspaceContext context) else p.

(** What happens to a provider: the webview is resolved, the user sends,
    clears or asks for the context, the manager fires an event. *)
Inductive happening : Type :=
| Resolved
| SendBegins (now : Z)
| SendEnds (useStreaming : bool) (failure : option jstring)
| OnStreamingMessage (m : Message)
| OnStreamingProgress (fraction : Progress)
| OnStreamingComplete (finalMessage : ClaudeMessage)
| OnMessageReceived (message : ClaudeMessage)
| ClearChat
| GetWorkspaceContext (context : WorkspaceContext).

Definition handle (p : provider) (h : happening) : provider :=
  match h with
  | Resolved => resolveWebviewView p
  | SendBegins now => handleSendMessage_begin p now
  | SendEnds useStreaming failure => handleSendMessage_end p useStreaming failure
  | OnStreamingMessage m => handleStreamingMessage p m
  | OnStreamingProgress fraction => updateStreamingProgress p fraction
  | OnStreamingComplete finalMessage => finalizeStreamingMessage p finalMessage
  | OnMessageReceived message => addMessage_ p message
  | ClearChat => clearChat p
  | GetWorkspaceContext context => sendWorkspaceContext p context
  end.

Definition handle_all (p : provider) (hs : list happening) : provider :=
  fold_left handle hs p.

End Provider.

End ChatProvider.

(* ================================================================== *)
(** * Properties *)
(* ================================================================== *)

(** ** Numbers *)

Section NumberExamples.

(** A literal as [JSON.parse] reads it and [String] prints it. *)
Definition printed (literal : string) : jstring :=
  Number_toString (of_literal (js literal)).

(** Zeros at the end and exponents are not kept; an integer above 2^53 is
    rounded; 21 digits are printed in full and 22 with an exponent; six
    zeros after the point are printed and seven are not; what is too small
    is zero and what is too large is infinite. *)
Lemma printed_examples :
  printed "1.50" = js "1.5"
  /\ printed "1e3" = js "1000"
  /\ printed "9007199254740993" = js "9007199254740992"
  /\ printed "123456789012345680000" = js "123456789012345680000"
  /\ printed "1234567890123456800000" = js "1.2345678901234568e+21"
  /\ printed "0.000001" = js "0.000001"
  /\ printed "0.0000001" = js "1e-7"
  /\ printed "0.1" = js "0.1"
  /\ printed "0.30000000000000004" = js "0.30000000000000004"
  /\ printed "5e-324" = js "5e-324"
  /\ printed "-0" = js "0"
  /\ printed "1e-400" = js "0"
  /\ printed "-1e400" = js "-Infinity".
Proof. repeat split; vm_compute; reflexivity. Qed.

(** The time of a number: whole, and NaN beyond 8.64e15. *)
Lemma TimeClip_examples :
  TimeClip (of_literal (js "5.9")) = Millis 5
  /\ TimeClip (of_literal (js "-5.9")) = Millis (-5)
  /\ TimeClip (of_literal (js "8640000000000000")) = Millis 8640000000000000
  /\ TimeClip (of_literal (js "8640000000000001")) = NaN
  /\ TimeClip (of_literal (js "1e400")) = NaN.
Proof. repeat split; vm_compute; reflexivity. Qed.

End NumberExamples.

(** ** Strings *)

Section StringFacts.

Lemma str_eqb_eq (a b : jstring) : str_eqb a b = true <-> a = b.
Proof.
  revert b; induction a as [|x a IH]; intros [|y b]; simpl; split;
    try congruence; try reflexivity.
  - rewrite andb_true_iff, N.eqb_eq, IH. intros [-> ->]. reflexivity.
  - intros H; injection H as -> ->.
    rewrite N.eqb_refl. simpl. apply IH. reflexivity.
Qed.

Lemma str_eqb_refl (a : jstring) : str_eqb a a = true.
Proof. apply str_eqb_eq. reflexivity. Qed.

(** A replaced unit is gone. *)
Lemma replaceAll_notin (c d : N) (s : jstring) :
  c <> d -> ~ In c (replaceAll c d s).
Proof.
  intros Hcd. unfold replaceAll. rewrite in_map_iff. intros [x [Hx _]].
  destruct (N.eqb x c) eqn:E.
  - congruence.
  - apply N.eqb_neq in E. congruence.
Qed.

(** *** [split] *)

Definition no_unit (sep : N) (s : jstring) : Prop := ~ In sep s.

Lemma split_not_nil (sep : N) (s : jstring) : split sep s <> [].
Proof.
  induction s as [|c s IH]; simpl; [discriminate|].
  destruct (N.eqb c sep); [discriminate|].
  destruct (split sep s); [contradiction|discriminate].
Qed.

Lemma split_no_unit (sep : N) (s : jstring) :
  no_unit sep s -> split sep s = [s].
Proof.
  unfold no_unit. induction s as [|c s IH]; simpl; intros H; [reflexivity|].
  destruct (N.eqb c sep) eqn:E.
  - apply N.eqb_eq in E. exfalso. apply H. left. congruence.
  - rewrite IH; [reflexivity|]. intros Hin. apply H. right. exact Hin.
Qed.

(** The text before the first separator is the first fragment. *)
Lemma split_app_sep (sep : N) (l r : jstring) :
  no_unit sep l -> split sep (l ++ sep :: r) = l :: split sep r.
Proof.
  unfold no_unit. induction l as [|c l IH]; simpl; intros H.
  - rewrite N.eqb_refl. reflexivity.
  - destruct (N.eqb c sep) eqn:E.
    + apply N.eqb_eq in E. exfalso. apply H. left. congruence.
    + rewrite IH; [reflexivity|]. intros Hin. apply H. right. exact Hin.
Qed.

(** No fragment holds the separator. *)
Lemma split_fragments (sep : N) (s : jstring) :
  Forall (no_unit sep) (split sep s).
Proof.
  induction s as [|c s IH]; simpl.
  - constructor; [intros []|constructor].
  - destruct (N.eqb c sep) eqn:E.
    + constructor; [intros []|exact IH].
    + pose proof (split_not_nil sep s) as Hne.
      destruct (split sep s) as [|l ls]; [contradiction|].
      inversion IH as [|? ? Hl Hls]; subst.
      constructor; [|exact Hls].
      intros [Hc|Hin]; [|exact (Hl Hin)].
      apply N.eqb_neq in E. congruence.
Qed.

(** Splitting a concatenation: the last fragment of the first part and the
    first fragment of the second are one fragment. *)
Lemma split_app (sep : N) (a b : jstring) :
  split sep (a ++ b) =
  removelast (split sep a)
    ++ match split sep b with
       | y :: lb => (last (split sep a) [] ++ y) :: lb
       | [] => []
       end.
Proof.
  induction a as [|c a IH]; simpl.
  - pose proof (split_not_nil sep b). destruct (split sep b); [contradiction|reflexivity].
  - destruct (N.eqb c sep) eqn:E.
    + pose proof (split_not_nil sep a) as Hne.
      rewrite IH. destruct (split sep a) as [|l ls]; [contradiction|]. reflexivity.
    + pose proof (split_not_nil sep a) as Hne.
      pose proof (split_not_nil sep b) as Hnb.
      rewrite IH.
      destruct (split sep a) as [|l ls]; [contradiction|].
      destruct (split sep b) as [|y lb]; [contradiction|].
      destruct ls as [|l2 ls]; simpl; reflexivity.
Qed.

Lemma last_split_no_unit (sep : N) (s : jstring) :
  no_unit sep (last (split sep s) []).
Proof.
  pose proof (split_fragments sep s) as HF.
  pose proof (split_not_nil sep s) as Hne.
  induction (split sep s) as [|l ls IH]; [contradiction|].
  inversion HF; subst. destruct ls as [|l2 ls]; [assumption|].
  apply IH; [assumption|discriminate].
Qed.

(** *** [trim] *)

Lemma trimStart_idem (s : jstring) : trimStart (trimStart s) = trimStart s.
Proof.
  induction s as [|c s IH]; simpl; [reflexivity|].
  destruct (is_js_space c) eqn:E; [exact IH|].
  simpl. rewrite E. reflexivity.
Qed.

Lemma trimStart_head (c : N) (s : jstring) :
  is_js_space c = false -> trimStart (c :: s) = c :: s.
Proof. intros E. simpl. rewrite E. reflexivity. Qed.

(** Trimming the front of [s ++ [c]] keeps a final [c] that is no space. *)
Lemma trimStart_snoc (s : jstring) (c : N) :
  is_js_space c = false ->
  exists s', trimStart (s ++ [c]) = s' ++ [c].
Proof.
  intros E. induction s as [|x s IH]; simpl.
  - rewrite E. exists []. reflexivity.
  - destruct (is_js_space x); [exact IH|].
    exists (x :: s). reflexivity.
Qed.

Lemma trimStart_cases (s : jstring) :
  trimStart s = [] \/ exists c r, trimStart s = c :: r /\ is_js_space c = false.
Proof.
  induction s as [|x s IH]; simpl; [left; reflexivity|].
  destruct (is_js_space x) eqn:E; [exact IH|].
  right. exists x, s. split; [reflexivity|exact E].
Qed.

Lemma trim_cases (s : jstring) :
  trim s = [] \/ exists c r, trim s = c :: r /\ is_js_space c = false.
Proof.
  unfold trim, trimEnd.
  destruct (trimStart_cases s) as [->|[c [r [-> Hc]]]].
  - left. reflexivity.
  - right. simpl rev.
    destruct (@trimStart_snoc (rev r) c Hc) as [s' ->].
    rewrite rev_app_distr. simpl. exists c, (rev s'). split; [reflexivity|exact Hc].
Qed.

Lemma trimStart_length (s : jstring) : List.length (trimStart s) <= List.length s.
Proof.
  induction s as [|c s IH]; simpl; [lia|].
  destruct (is_js_space c); simpl; lia.
Qed.

Lemma trim_length (s : jstring) : List.length (trim s) <= List.length s.
Proof.
  unfold trim, trimEnd. rewrite length_rev.
  pose proof (trimStart_length (rev (trimStart s))) as H.
  rewrite length_rev in H. pose proof (trimStart_length s). lia.
Qed.

Theorem trim_idem (s : jstring) : trim (trim s) = trim s.
Proof.
  destruct (trim_cases s) as [E|[c [r [E Hc]]]].
  - rewrite E. reflexivity.
  - assert (Hs : trimStart (trim s) = trim s).
    { rewrite E. apply trimStart_head. exact Hc. }
    unfold trim at 1. rewrite Hs.
    unfold trim, trimEnd. rewrite rev_involutive, trimStart_idem. reflexivity.
Qed.

End StringFacts.


(** ** The fuel of [JSON.parse] *)

Section ParserFuel.

Lemma skip_ws_length (s : jstring) : List.length (skip_ws s) <= List.length s.
Proof.
  induction s as [|c s IH]; simpl; [lia|].
  destruct (is_json_ws c); simpl; lia.
Qed.

Lemma push_unit_some (c : N) (r : option (jstring * jstring)) (str rest : jstring) :
  push_unit c r = Some (str, rest) -> exists str', r = Some (str', rest).
Proof.
  destruct r as [[s' r']|]; simpl; [|discriminate].
  intros H. injection H as _ <-. eexists. reflexivity.
Qed.

Lemma parse_chars_length (s str r : jstring) :
  parse_chars s = Some (str, r) -> List.length r < List.length s.
Proof.
  remember (List.length s) as n eqn:Hn. revert s Hn str r.
  induction n as [n IH] using lt_wf_ind. intros s Hn str r H. subst n.
  destruct s as [|c rest]; [discriminate|]. simpl in H.
  destruct (N.eqb c QUOTE).
  { injection H as _ <-. simpl. lia. }
  destruct (N.eqb c BACKSLASH).
  { destruct rest as [|e rest1]; [discriminate|].
    destruct (N.eqb e 117).
    - destruct rest1 as [|h1 [|h2 [|h3 [|h4 rest2]]]]; try discriminate.
      destruct (hex4 h1 h2 h3 h4); [|discriminate].
      apply push_unit_some in H. destruct H as [str' H].
      assert (Hlt : List.length rest2 < List.length (c :: e :: h1 :: h2 :: h3 :: h4 :: rest2))
        by (simpl; lia).
      pose proof (IH _ Hlt rest2 eq_refl str' r H). simpl in *. lia.
    - destruct (unescape e); [|discriminate].
      apply push_unit_some in H. destruct H as [str' H].
      assert (Hlt : List.length rest1 < List.length (c :: e :: rest1)) by (simpl; lia).
      pose proof (IH _ Hlt rest1 eq_refl str' r H). simpl in *. lia. }
  destruct (N.ltb c 32); [discriminate|].
  apply push_unit_some in H. destruct H as [str' H].
  assert (Hlt : List.length rest < List.length (c :: rest)) by (simpl; lia).
  pose proof (IH _ Hlt rest eq_refl str' r H). simpl in *. lia.
Qed.

Lemma span_digits_length (s d r : jstring) :
  span_digits s = (d, r) -> List.length r <= List.length s.
Proof.
  revert d r. induction s as [|c s IH]; simpl; intros d r H.
  - injection H as _ <-. simpl. lia.
  - destruct (is_digit c).
    + destruct (span_digits s) as [d' r'] eqn:E. injection H as _ <-.
      specialize (IH d' r' eq_refl). lia.
    + injection H as _ <-. simpl. lia.
Qed.

Lemma parse_int_length (s i r : jstring) :
  parse_int s = Some (i, r) -> List.length r < List.length s.
Proof.
  destruct s as [|c s']; simpl; [discriminate|].
  destruct (N.eqb c 48).
  - intros H. injection H as _ <-. lia.
  - destruct (is_digit c) eqn:Ed; [|discriminate].
    destruct (span_digits s') as [d' r'] eqn:E. intros H. injection H as _ <-.
    apply span_digits_length in E. lia.
Qed.

Lemma parse_frac_length (s f r : jstring) :
  parse_frac s = Some (f, r) -> List.length r <= List.length s.
Proof.
  destruct s as [|c s']; simpl.
  - intros H. injection H as _ <-. simpl. lia.
  - destruct (N.eqb c 46).
    + destruct (span_digits s') as [d r'] eqn:E.
      destruct d; [discriminate|]. intros H. injection H as _ <-.
      apply span_digits_length in E. lia.
    + intros H. injection H as _ <-. simpl. lia.
Qed.

Lemma parse_exp_length (s e r : jstring) :
  parse_exp s = Some (e, r) -> List.length r <= List.length s.
Proof.
  destruct s as [|c s']; simpl.
  - intros H. injection H as _ <-. simpl. lia.
  - destruct (N.eqb c 101 || N.eqb c 69).
    + destruct (match s' with
                | [] => ([], s')
                | g :: s3 => if N.eqb g 43 || N.eqb g 45 then ([g], s3) else ([], s')
                end) as [sign s2] eqn:Es.
      assert (Hs2 : List.length s2 <= List.length s').
      { destruct s' as [|g s3]; [injection Es as _ <-; lia|].
        destruct (N.eqb g 43 || N.eqb g 45); injection Es as _ <-; simpl; lia. }
      destruct (span_digits s2) as [d r'] eqn:E.
      destruct d; [discriminate|]. intros H. injection H as _ <-.
      apply span_digits_length in E. lia.
    + intros H. injection H as _ <-. simpl. lia.
Qed.

Lemma parse_number_length (s lexeme r : jstring) :
  parse_number s = Some (lexeme, r) -> List.length r < List.length s.
Proof.
  unfold parse_number.
  destruct (match s with
            | [] => ([], s)
            | c :: s' => if N.eqb c 45 then ([c], s') else ([], s)
            end) as [minus s1] eqn:Em.
  assert (Hs1 : List.length s1 <= List.length s).
  { destruct s as [|c s']; [injection Em as _ <-; lia|].
    destruct (N.eqb c 45); injection Em as _ <-; simpl; lia. }
  destruct (parse_int s1) as [[i s2]|] eqn:Ei; [|discriminate].
  destruct (parse_frac s2) as [[f s3]|] eqn:Ef; [|discriminate].
  destruct (parse_exp s3) as [[e s4]|] eqn:Ee; [|discriminate].
  intros H. injection H as _ <-.
  apply parse_int_length in Ei. apply parse_frac_length in Ef.
  apply parse_exp_length in Ee. lia.
Qed.

Lemma parse_word_length (w : jstring) (v v' : json) (s r : jstring) :
  w <> [] -> parse_word w v s = Some (v', r) -> List.length r < List.length s.
Proof.
  unfold parse_word. intros Hw. destruct (startsWith w s) eqn:E; [|discriminate].
  intros H. injection H as _ <-.
  destruct w as [|x w]; [contradiction|]. destruct s as [|y s]; [discriminate|].
  simpl. rewrite length_skipn. lia.
Qed.

Lemma skip_ws_cons (s : jstring) (c : N) (rest : jstring) :
  skip_ws s = c :: rest -> S (List.length rest) <= List.length s.
Proof.
  intros E. pose proof (skip_ws_length s) as H. rewrite E in H. exact H.
Qed.

(** Whatever is parsed consumes at least one unit. *)
Lemma parse_consumes (fuel : nat) :
  (forall s v r, parse_value fuel s = Some (v, r) -> List.length r < List.length s)
  /\ (forall s acc v r,
         parse_elements fuel s acc = Some (v, r) -> List.length r < List.length s)
  /\ (forall s acc v r,
         parse_members fuel s acc = Some (v, r) -> List.length r < List.length s).
Proof.
  induction fuel as [|f [IHv [IHe IHm]]]; [repeat split; discriminate|].
  repeat split.
  - intros s v r H. simpl in H.
    destruct (skip_ws s) as [|c rest] eqn:Es; [discriminate|].
    apply skip_ws_cons in Es.
    destruct (N.eqb c 123).
    { destruct (skip_ws rest) as [|c2 rest2] eqn:E2; [discriminate|].
      apply skip_ws_cons in E2.
      destruct (N.eqb c2 125).
      - injection H as _ <-. lia.
      - apply IHm in H. lia. }
    destruct (N.eqb c 91).
    { destruct (skip_ws rest) as [|c2 rest2] eqn:E2; [discriminate|].
      apply skip_ws_cons in E2.
      destruct (N.eqb c2 93).
      - injection H as _ <-. lia.
      - apply IHe in H. lia. }
    destruct (N.eqb c QUOTE).
    { destruct (parse_chars rest) as [[str r']|] eqn:Ec; [|discriminate].
      injection H as _ <-. apply parse_chars_length in Ec. lia. }
    destruct (N.eqb c 116).
    { apply parse_word_length in H; [simpl in H; lia|discriminate]. }
    destruct (N.eqb c 102).
    { apply parse_word_length in H; [simpl in H; lia|discriminate]. }
    destruct (N.eqb c 110).
    { apply parse_word_length in H; [simpl in H; lia|discriminate]. }
    destruct (parse_number (c :: rest)) as [[lexeme r']|] eqn:En; [|discriminate].
    injection H as _ <-. apply parse_number_length in En. simpl in En. lia.
  - intros s acc v r H. simpl in H.
    destruct (parse_value f s) as [[v1 r1]|] eqn:Ev; [|discriminate].
    apply IHv in Ev.
    destruct (skip_ws r1) as [|c r'] eqn:E1; [discriminate|].
    apply skip_ws_cons in E1.
    destruct (N.eqb c 44).
    + apply IHe in H. lia.
    + destruct (N.eqb c 93); [|discriminate]. injection H as _ <-. lia.
  - intros s acc v r H. simpl in H.
    destruct (skip_ws s) as [|q r0] eqn:Es; [discriminate|].
    apply skip_ws_cons in Es.
    destruct (N.eqb q QUOTE); [|discriminate].
    destruct (parse_chars r0) as [[k r1]|] eqn:Ec; [|discriminate].
    apply parse_chars_length in Ec.
    destruct (skip_ws r1) as [|colon r2] eqn:E1; [discriminate|].
    apply skip_ws_cons in E1.
    destruct (N.eqb colon 58); [|discriminate].
    destruct (parse_value f r2) as [[v1 r3]|] eqn:Ev; [|discriminate].
    apply IHv in Ev.
    destruct (skip_ws r3) as [|c r4] eqn:E3; [discriminate|].
    apply skip_ws_cons in E3.
    destruct (N.eqb c 44).
    + apply IHm in H. lia.
    + destruct (N.eqb c 125); [|discriminate]. injection H as _ <-. lia.
Qed.

(** With fuel for twice the length of the text, more fuel changes nothing. *)
Lemma parse_fuel (fuel : nat) :
  (forall s fuel', 2 * List.length s + 1 <= fuel -> fuel <= fuel' ->
                   parse_value fuel' s = parse_value fuel s)
  /\ (forall s acc fuel', 2 * List.length s + 2 <= fuel -> fuel <= fuel' ->
                          parse_elements fuel' s acc = parse_elements fuel s acc)
  /\ (forall s acc fuel', 2 * List.length s + 2 <= fuel -> fuel <= fuel' ->
                          parse_members fuel' s acc = parse_members fuel s acc).
Proof.
  induction fuel as [|f [IHv [IHe IHm]]]; [repeat split; intros; lia|].
  repeat split.
  - intros s [|f'] Hs Hf; [lia|]. simpl.
    destruct (skip_ws s) as [|c rest] eqn:Es; [reflexivity|].
    apply skip_ws_cons in Es.
    destruct (N.eqb c 123).
    { destruct (skip_ws rest) as [|c2 rest2] eqn:E2; [reflexivity|].
      destruct (N.eqb c2 125); [reflexivity|]. apply IHm; lia. }
    destruct (N.eqb c 91).
    { destruct (skip_ws rest) as [|c2 rest2] eqn:E2; [reflexivity|].
      destruct (N.eqb c2 93); [reflexivity|]. apply IHe; lia. }
    reflexivity.
  - intros s acc [|f'] Hs Hf; [lia|]. simpl.
    rewrite (IHv s f') by lia.
    destruct (parse_value f s) as [[v1 r1]|] eqn:Ev; [|reflexivity].
    apply (proj1 (parse_consumes f)) in Ev.
    destruct (skip_ws r1) as [|c r'] eqn:E1; [reflexivity|].
    apply skip_ws_cons in E1.
    destruct (N.eqb c 44); [|reflexivity]. apply IHe; lia.
  - intros s acc [|f'] Hs Hf; [lia|]. simpl.
    destruct (skip_ws s) as [|q r0] eqn:Es; [reflexivity|].
    apply skip_ws_cons in Es.
    destruct (N.eqb q QUOTE); [|reflexivity].
    destruct (parse_chars r0) as [[k r1]|] eqn:Ec; [|reflexivity].
    apply parse_chars_length in Ec.
    destruct (skip_ws r1) as [|colon r2] eqn:E1; [reflexivity|].
    apply skip_ws_cons in E1.
    destruct (N.eqb colon 58); [|reflexivity].
    rewrite (IHv r2 f') by lia.
    destruct (parse_value f r2) as [[v1 r3]|] eqn:Ev; [|reflexivity].
    apply (proj1 (parse_consumes f)) in Ev.
    destruct (skip_ws r3) as [|c r4] eqn:E3; [reflexivity|].
    apply skip_ws_cons in E3.
    destruct (N.eqb c 44); [|reflexivity]. apply IHm; lia.
Qed.

(** [JSON_parse] never runs out of fuel: any larger fuel parses the text to
    the same value, or fails as it does. *)
Theorem parse_value_fuel (text : jstring) (fuel : nat) :
  S (2 * List.length text) <= fuel ->
  parse_value fuel text = parse_value (S (2 * List.length text)) text.
Proof.
  intros H. apply (proj1 (parse_fuel (S (2 * List.length text)))); lia.
Qed.

(** The fuel of [JSON_parse] on the line of a result, and ten times more. *)
Lemma parse_value_fuel_witness :
  parse_value 1000 (jsq "{'type':'result','usage':[1,2,{'a':null}]}")
  = parse_value (S (2 * List.length (jsq "{'type':'result','usage':[1,2,{'a':null}]}")))
      (jsq "{'type':'result','usage':[1,2,{'a':null}]}").
Proof.
  apply parse_value_fuel. vm_compute. lia.
Defined.

End ParserFuel.

(** ** Project keys *)

Section ProjectKeys.
Import SessionManager.

Definition SLASH : N := 47.
Definition DASH : N := 45.

(** An absolute path starts with a slash. *)
Definition absolute (p : jstring) : Prop :=
  exists rest, p = SLASH :: rest.

(** The path recorded for a project directory holds no dash. *)
Lemma projectDir_of_no_dash (dir : jstring) : ~ In DASH (projectDir_of dir).
Proof. apply replaceAll_notin. discriminate. Qed.

(** C10.  The derivation of the project key from the project path is not
    injective: two distinct absolute paths, [/a/b] and [/a-b], have the
    same key.  The path [getAllSessions] rebuilds from a key, every dash
    turned into a slash, is never the original path when that path holds
    a dash. *)
Theorem getProjectKey_not_injective_and_not_recovered :
  (exists p q : jstring,
      absolute p /\ absolute q /\ p <> q /\ getProjectKey p = getProjectKey q)
  /\ (forall p : jstring, In DASH p -> projectDir_of (getProjectKey p) <> p).
Proof.
  split.
  - exists (js "/a/b"), (js "/a-b"). repeat split.
    + eexists. reflexivity.
    + eexists. reflexivity.
    + discriminate.
  - intros p Hin Heq. apply (@projectDir_of_no_dash (getProjectKey p)).
    rewrite Heq. exact Hin.
Qed.

(** A project key holds no slash: it names one directory. *)
Theorem getProjectKey_no_slash (p : jstring) : ~ In SLASH (getProjectKey p).
Proof.
  unfold getProjectKey.
  assert (H : ~ In SLASH (replaceAll 47 45 p))
    by (apply (@replaceAll_notin SLASH DASH p); discriminate).
  destruct (replaceAll 47 45 p) as [|c rest]; [intros []|].
  destruct (N.eqb c 45); [|exact H].
  intros Hin. apply H. right. exact Hin.
Qed.

(** The second half of C10 at the path [/home/u/my-app]. *)
Lemma getProjectKey_not_recovered_witness :
  In DASH (js "/home/u/my-app")
  /\ projectDir_of (getProjectKey (js "/home/u/my-app")) <> js "/home/u/my-app".
Proof.
  assert (H : In DASH (js "/home/u/my-app")) by (vm_compute; tauto).
  split; [exact H|].
  exact (proj2 getProjectKey_not_injective_and_not_recovered _ H).
Defined.

End ProjectKeys.

(** ** Merging the sessions of the disk and of the memory *)

Section Sorting.
Variable A : Type.
Variable key : A -> time.

(** The comparator [(a, b) => key b - key a]. *)
Let desc (a b : A) : Z := time_sub (key b) (key a).

(** [a] may stand before [b]. *)
Definition before (a b : A) : Prop := time_le (key b) (key a).

(** The key is a time, not NaN. *)
Definition timed (a : A) : Prop := key a <> NaN.

Lemma insert_perm (x : A) (l : list A) : Permutation (x :: l) (insert desc x l).
Proof.
  induction l as [|y l IH]; simpl; [reflexivity|].
  destruct (Z.leb (desc x y) 0); [reflexivity|].
  rewrite perm_swap. constructor. exact IH.
Qed.

Lemma sort_perm (l : list A) : Permutation l (sort desc l).
Proof.
  induction l as [|x l IH]; simpl; [constructor|].
  rewrite <- insert_perm. constructor. exact IH.
Qed.

Lemma before_trans (a b c : A) : before a b -> before b c -> before a c.
Proof.
  unfold before, time_le.
  destruct (key a), (key b), (key c); try contradiction. lia.
Qed.

Lemma insert_sorted (x : A) (l : list A) :
  timed x -> Forall timed l ->
  StronglySorted before l -> StronglySorted before (insert desc x l).
Proof.
  intros Hx. induction l as [|y l IH]; simpl; intros Ht Hs.
  - constructor; constructor.
  - inversion Hs as [|? ? Hl Hy]; subst.
    inversion Ht as [|? ? Hty Htl]; subst.
    assert (Hcmp : (desc x y <= 0)%Z <-> before x y).
    { unfold desc, before, time_sub, time_le, timed in *.
      destruct (key x), (key y); try contradiction. lia. }
    assert (Hrev : (0 < desc x y)%Z -> before y x).
    { unfold desc, before, time_sub, time_le, timed in *.
      destruct (key x), (key y); try contradiction. lia. }
    destruct (Z.leb (desc x y) 0) eqn:E.
    + apply Z.leb_le in E. apply Hcmp in E.
      constructor; [exact Hs|].
      constructor; [exact E|].
      eapply Forall_impl; [|exact Hy].
      intros z Hz. exact (before_trans x y z E Hz).
    + apply Z.leb_gt in E. apply Hrev in E.
      constructor; [apply IH; assumption|].
      eapply Permutation_Forall; [apply insert_perm|].
      constructor; [exact E|exact Hy].
Qed.

Lemma sort_timed (l : list A) : Forall timed l -> Forall timed (sort desc l).
Proof.
  intros H. eapply Permutation_Forall; [apply sort_perm|exact H].
Qed.

Lemma sort_sorted (l : list A) :
  Forall timed l -> StronglySorted before (sort desc l).
Proof.
  induction l as [|x l IH]; simpl; intros Ht; [constructor|].
  inversion Ht as [|? ? Hx Hl]; subst.
  apply insert_sorted; [exact Hx|apply sort_timed; exact Hl|apply IH; exact Hl].
Qed.

End Sorting.

(** ** The project recorded for a session *)

Section ProjectOfSession.
Import SessionManager.
Variable Date_parse : jstring -> time.

(** Every session [getAllSessions] returns records, as its project, the name
    of a project directory with each dash turned into a slash. *)
Lemma getAllSessions_projectDir
  (dirs : list (jstring * list (jstring * jstring))) (task : ClaudeTask) :
  In task (getAllSessions Date_parse dirs) ->
  exists dir, In dir (map fst dirs)
              /\ projectDir (metadata task) = Some (projectDir_of dir).
Proof.
  unfold getAllSessions. intros H.
  apply (Permutation_in _ (Permutation_sym (sort_perm updatedAt _))) in H.
  apply in_flat_map in H. destruct H as [[dir files] [Hd Ht]].
  apply in_map_iff in Ht. destruct Ht as [t [<- _]].
  exists dir. split; [|reflexivity].
  apply in_map_iff. exists (dir, files). split; [reflexivity|exact Hd].
Qed.

End ProjectOfSession.

Section Deduplication.
Variable A : Type.
Variable same : A -> A -> bool.
Hypothesis same_refl : forall x, same x x = true.

(** [findIndex] answers the length of a prefix exactly when the prefix
    holds no match and the next element is one. *)
Lemma findIndex_prefix (p : A -> bool) (pre : list A) (x : A) (l : list A) :
  p x = true ->
  (findIndex p (pre ++ x :: l) = Some (List.length pre) <-> existsb p pre = false).
Proof.
  intros Hx. induction pre as [|y pre IH]; simpl.
  - rewrite Hx. tauto.
  - destruct (p y) eqn:Ey; simpl.
    + split; discriminate.
    + destruct (findIndex p (pre ++ x :: l)) as [i|]; simpl.
      * rewrite <- IH. split; intros H; [injection H as ->; reflexivity|congruence].
      * rewrite <- IH. split; discriminate.
Qed.

(** The filter of [uniqueSessions], on a suffix [l] of [pre ++ l]. *)
Let keep (all : list A) (x : A) (index : nat) : bool :=
  match findIndex (fun s => same s x) all with
  | Some i => Nat.eqb i index
  | None => false
  end.

Lemma keep_iff (pre : list A) (x : A) (l : list A) :
  keep (pre ++ x :: l) x (List.length pre) = negb (existsb (fun s => same s x) pre).
Proof.
  unfold keep.
  pose proof (@findIndex_prefix (fun s => same s x) pre x l (same_refl x)) as H.
  destruct (findIndex (fun s => same s x) (pre ++ x :: l)) as [i|] eqn:E.
  - destruct (Nat.eqb i (List.length pre)) eqn:Ei.
    + apply Nat.eqb_eq in Ei. subst i.
      destruct H as [H _]. rewrite (H eq_refl). reflexivity.
    + destruct (existsb (fun s => same s x) pre) eqn:Ex; [reflexivity|].
      destruct H as [_ H]. specialize (H eq_refl). injection H as ->.
      rewrite Nat.eqb_refl in Ei. discriminate.
  - destruct (existsb (fun s => same s x) pre) eqn:Ex; [reflexivity|].
    destruct H as [_ H]. specialize (H eq_refl). discriminate.
Qed.

(** What the filter keeps of a suffix: the elements no earlier element of
    the whole list matches. *)
Fixpoint firsts (pre l : list A) : list A :=
  match l with
  | [] => []
  | x :: l' =>
      if existsb (fun s => same s x) pre then firsts (pre ++ [x]) l'
      else x :: firsts (pre ++ [x]) l'
  end.

Lemma filter_index_firsts (pre l : list A) :
  filter_index_from (keep (pre ++ l)) (List.length pre) l = firsts pre l.
Proof.
  revert pre. induction l as [|x l IH]; intros pre; simpl; [reflexivity|].
  rewrite keep_iff.
  specialize (IH (pre ++ [x])).
  rewrite <- app_assoc, length_app in IH. simpl in IH.
  rewrite Nat.add_1_r in IH. rewrite IH.
  destruct (existsb (fun s => same s x) pre); reflexivity.
Qed.

End Deduplication.

Section FirstOccurrence.
Variable A : Type.
Variable ident : A -> jstring.

Let same (a b : A) : bool := str_eqb (ident a) (ident b).

Lemma same_true (a b : A) : same a b = true <-> ident a = ident b.
Proof. apply str_eqb_eq. Qed.

Lemma same_reflexive (a : A) : same a a = true.
Proof. apply str_eqb_refl. Qed.

Lemma matched_earlier (pre : list A) (x s : A) :
  existsb (fun y => same y x) pre = true -> same x s = true ->
  existsb (fun y => same y s) pre = true.
Proof.
  rewrite !existsb_exists. intros [y [Hy Hyx]] Hxs. exists y. split; [exact Hy|].
  apply same_true in Hyx, Hxs. apply same_true. congruence.
Qed.

(** An element is kept exactly when nothing before the suffix has its id
    and it is the first of the suffix with its id. *)
Lemma firsts_spec (l pre : list A) (s : A) :
  In s (firsts same pre l) <->
  existsb (fun y => same y s) pre = false
  /\ find (fun x => same x s) l = Some s.
Proof.
  revert pre. induction l as [|x l IH]; intros pre; simpl.
  - split; [intros []|intros [_ H]; discriminate].
  - destruct (existsb (fun y => same y x) pre) eqn:Ex.
    + rewrite IH, existsb_app. simpl. rewrite orb_false_r, orb_false_iff.
      split.
      * intros [[Hp Hx] Hf]. rewrite Hx. tauto.
      * intros [Hp Hf]. destruct (same x s) eqn:Hx.
        -- rewrite (@matched_earlier pre x s Ex Hx) in Hp. discriminate.
        -- tauto.
    + simpl. rewrite IH, existsb_app. simpl. rewrite orb_false_r, orb_false_iff.
      split.
      * intros [<-|[[Hp Hx] Hf]].
        -- rewrite same_reflexive. tauto.
        -- rewrite Hx. tauto.
      * intros [Hp Hf]. destruct (same x s) eqn:Hx.
        -- left. congruence.
        -- right. tauto.
Qed.

Lemma firsts_NoDup (l pre : list A) : NoDup (map ident (firsts same pre l)).
Proof.
  revert pre. induction l as [|x l IH]; intros pre; simpl; [constructor|].
  destruct (existsb (fun y => same y x) pre); [apply IH|].
  simpl. constructor; [|apply IH].
  rewrite in_map_iff. intros [s [Hid Hs]].
  apply firsts_spec in Hs. destruct Hs as [Hp _].
  rewrite existsb_app in Hp. simpl in Hp.
  apply orb_false_iff in Hp. destruct Hp as [_ Hx].
  rewrite orb_false_r in Hx.
  assert (same x s = true) by (apply same_true; congruence).
  congruence.
Qed.

(** Every id of the list is the id of its first occurrence. *)
Lemma find_first (l : list A) (s : A) :
  In s l ->
  exists s', find (fun x => same x s) l = Some s' /\ ident s' = ident s
             /\ find (fun x => same x s') l = Some s'.
Proof.
  intros Hin.
  destruct (find (fun x => same x s) l) as [s'|] eqn:E.
  - apply find_some in E as Hs'. destruct Hs' as [_ Hid]. apply same_true in Hid.
    exists s'. repeat split; [exact Hid|].
    rewrite <- E. clear E Hin. induction l as [|x l IH]; simpl; [reflexivity|].
    replace (same x s') with (same x s); [destruct (same x s); [reflexivity|exact IH]|].
    unfold same. rewrite Hid. reflexivity.
  - exfalso. apply (find_none _ _ E) in Hin. rewrite same_reflexive in Hin. discriminate.
Qed.

End FirstOccurrence.

Section MergedSessions.
Import Manager.

Lemma uniqueSessions_firsts (all : list ClaudeTask) :
  uniqueSessions all = firsts (fun a b => str_eqb (id a) (id b)) [] all.
Proof.
  unfold uniqueSessions, filter_index.
  rewrite <- (@filter_index_firsts _ (fun a b => str_eqb (id a) (id b))
                (fun x => str_eqb_refl (id x)) [] all).
  reflexivity.
Qed.

(** C9 (as amended).  The list [loadClaudeCodeSessions] returns for the
    sessions of the disk followed by the tasks in memory holds every id of
    the two lists exactly once, the session kept for an id being the first
    with that id in the concatenated list.  When the [updatedAt] of every
    session is a time, it is sorted by [updatedAt], latest first. *)
Theorem loadClaudeCodeSessions_unique_sorted (realSessions tasks : list ClaudeTask) :
  let merged := loadClaudeCodeSessions realSessions tasks in
  NoDup (map id merged)
  /\ (forall s, In s (realSessions ++ tasks) ->
                exists s', In s' merged /\ id s' = id s)
  /\ (forall s, In s merged <->
                find (fun x => str_eqb (id x) (id s)) (realSessions ++ tasks) = Some s)
  /\ (Forall (fun s => updatedAt s <> NaN) (realSessions ++ tasks) ->
      StronglySorted (fun a b => time_le (updatedAt b) (updatedAt a)) merged).
Proof.
  intros merged. subst merged. unfold loadClaudeCodeSessions.
  set (all := realSessions ++ tasks).
  pose proof (sort_perm updatedAt (uniqueSessions all)) as Hperm.
  assert (Hin : forall s, In s (sort by_updatedAt_desc (uniqueSessions all)) <->
                          find (fun x => str_eqb (id x) (id s)) all = Some s).
  { intros s. split.
    - intros H. apply (Permutation_in _ (Permutation_sym Hperm)) in H.
      rewrite uniqueSessions_firsts in H. apply firsts_spec in H. tauto.
    - intros H. apply (Permutation_in _ Hperm).
      rewrite uniqueSessions_firsts. apply firsts_spec. split; [reflexivity|exact H]. }
  split; [|split; [|split]].
  - eapply Permutation_NoDup; [apply Permutation_map; exact Hperm|].
    rewrite uniqueSessions_firsts. apply firsts_NoDup.
  - intros s Hs. destruct (find_first id all s Hs) as [s' [_ [Hid Hf]]].
    exists s'. split; [apply Hin; exact Hf|exact Hid].
  - exact Hin.
  - intros Htimed. apply (@sort_sorted _ updatedAt).
    apply Forall_forall. intros s Hs.
    rewrite Forall_forall in Htimed. apply Htimed.
    apply (Permutation_in _ Hperm) in Hs. apply Hin in Hs.
    apply find_some in Hs. exact (proj1 Hs).
Qed.

(** Two sessions as the manager builds them, the second the later. *)
Definition EARLIER : ClaudeTask := new_task (js "a") NEW_TASK 1 1.
Definition LATER : ClaudeTask := new_task (js "b") NEW_TASK 2 2.

(** C9 on a session of the disk and two tasks of the memory, one of which
    has the id of the session. *)
Lemma loadClaudeCodeSessions_unique_sorted_witness :
  loadClaudeCodeSessions [EARLIER] [LATER; EARLIER] = [LATER; EARLIER]
  /\ StronglySorted (fun a b => time_le (updatedAt b) (updatedAt a))
       (loadClaudeCodeSessions [EARLIER] [LATER; EARLIER]).
Proof.
  split; [reflexivity|].
  apply (proj2 (proj2 (proj2
           (loadClaudeCodeSessions_unique_sorted [EARLIER] [LATER; EARLIER])))).
  repeat constructor; discriminate.
Defined.

(** Two transcripts of one turn: the entry of the first has no timestamp,
    that of the second the time 5. *)
Definition UNDATED_FILE : jstring :=
  jsq "{'type':'user','message':{'role':'user','content':'hi'}}".

Definition DATED_FILE : jstring :=
  jsq "{'type':'user','message':{'role':'user','content':'yo'},'timestamp':5}".

(** The sessions read from the two, whatever the platform reads as a date. *)
Definition FROM_DISK (parse : jstring -> time) : list ClaudeTask :=
  SessionManager.getProjectSessions parse [(js "a", UNDATED_FILE); (js "b", DATED_FILE)].

(** C9 as stated fails on the sessions of the two transcripts: the
    [updatedAt] of the first is NaN, the comparator answers NaN, and no
    order of the two sessions is sorted by [updatedAt]. *)
Lemma undated_session_counterexample :
  (forall parse, map updatedAt (FROM_DISK parse) = [NaN; Millis 5])
  /\ (forall parse,
         map id (loadClaudeCodeSessions (FROM_DISK parse) []) = [js "a"; js "b"])
  /\ (forall parse merged,
         Permutation (loadClaudeCodeSessions (FROM_DISK parse) []) merged ->
         ~ StronglySorted (fun a b => time_le (updatedAt b) (updatedAt a)) merged).
Proof.
  split; [intros parse; vm_compute; reflexivity|].
  split; [intros parse; vm_compute; reflexivity|].
  intros parse merged Hperm Hsorted.
  vm_compute in Hperm.
  apply Permutation_length_2_inv in Hperm.
  destruct Hperm as [-> | ->];
    inversion Hsorted as [|? ? _ Hall]; subst;
    inversion Hall as [|? ? Hle _]; subst; exact Hle.
Qed.

End MergedSessions.

(** ** Transport selection *)

Section Selection.
Import Manager.
Variable Req : Type.






End Selection.



(** ** The subprocess transport: what a line may do to the sink *)

Section LineEffects.
Import StreamingClient.
Local Open Scope js_scope.

(** A call other than [onComplete]. *)
Definition not_complete (c : SinkCall) : Prop :=
  match c with
  | OnComplete _ => False
  | _ => True
  end.

(** A computation that only adds calls to the sink, none of them
    [onComplete]. *)
Definition quiet {A} (m : M A) : Prop :=
  forall e, exists new,
    calls (fst (m e)) = calls e ++ new /\ Forall not_complete new.

Lemma quiet_ret {A} (a : A) : quiet (ret a).
Proof. intros e. exists []. simpl. rewrite app_nil_r. auto. Qed.

Lemma quiet_throw {A} : quiet (@throw A).
Proof. intros e. exists []. simpl. rewrite app_nil_r. auto. Qed.

Lemma quiet_lift {A} (o : option A) : quiet (lift o).
Proof. destruct o; [apply quiet_ret|apply quiet_throw]. Qed.

Lemma quiet_bind {A B} (m : M A) (k : A -> M B) :
  quiet m -> (forall a, quiet (k a)) -> quiet (bind m k).
Proof.
  intros Hm Hk e. unfold bind.
  destruct (Hm e) as [n1 [E1 F1]].
  destruct (m e) as [e1 [a|]]; simpl in *.
  - destruct (Hk a e1) as [n2 [E2 F2]].
    exists (n1 ++ n2). rewrite E2, E1, app_assoc. split; [reflexivity|].
    apply Forall_app. auto.
  - exists n1. auto.
Qed.

Lemma quiet_try_catch {A} (m h : M A) :
  quiet m -> quiet h -> quiet (try_catch m h).
Proof.
  intros Hm Hh e. unfold try_catch.
  destruct (Hm e) as [n1 [E1 F1]].
  destruct (m e) as [e1 [a|]]; simpl in *.
  - exists n1. auto.
  - destruct (Hh e1) as [n2 [E2 F2]].
    exists (n1 ++ n2). rewrite E2, E1, app_assoc. split; [reflexivity|].
    apply Forall_app. auto.
Qed.

Lemma quiet_emit (c : SinkCall) : not_complete c -> quiet (emit c).
Proof. intros Hc e. exists [c]. simpl. auto. Qed.

Lemma quiet_collect (c : value) (k : kind) : quiet (contentCollector c k).
Proof.
  destruct k; simpl; try apply quiet_ret.
  apply quiet_bind; [apply quiet_lift|].
  intros s e. exists []. simpl. rewrite app_nil_r. auto.
Qed.

Lemma quiet_when (c : bool) (body : M unit) : quiet body -> quiet (when c body).
Proof. destruct c; simpl; [auto|intros; apply quiet_ret]. Qed.

Ltac quiet_step :=
  match goal with
  | |- quiet (ret _) => apply quiet_ret
  | |- quiet throw => apply quiet_throw
  | |- quiet (lift _) => apply quiet_lift
  | |- quiet (emit _) => apply quiet_emit; exact I
  | |- quiet (contentCollector _ _) => apply quiet_collect
  | |- quiet (when _ _) => apply quiet_when
  | |- quiet (bind _ _) => apply quiet_bind; [|intros]
  | |- quiet (try_catch _ _) => apply quiet_try_catch
  | |- quiet (if ?b then _ else _) => destruct b
  | |- quiet (match ?x with _ => _ end) => destruct x
  end.

Lemma quiet_block (block : json) (acc : jstring) : quiet (process_block block acc).
Proof. unfold process_block, message. repeat quiet_step. Qed.

Lemma quiet_blocks (blocks : list json) (acc : jstring) :
  quiet (process_blocks blocks acc).
Proof.
  revert acc. induction blocks as [|b blocks IH]; intros acc; simpl.
  - apply quiet_ret.
  - apply quiet_bind; [apply quiet_block|intros; apply IH].
Qed.

Lemma quiet_assistant (msg : json) : quiet (process_assistant msg).
Proof.
  unfold process_assistant, message.
  apply quiet_bind.
  - destruct (get msg (js "content")) as [[]|]; try apply quiet_ret.
    apply quiet_blocks.
  - intros. repeat quiet_step.
Qed.

Lemma quiet_result (data : json) : quiet (process_result data).
Proof. unfold process_result, message. repeat quiet_step. Qed.

Lemma quiet_data (line : jstring) (data : json) : quiet (process_data line data).
Proof.
  unfold process_data, message.
  apply quiet_bind; [apply quiet_lift|]. intros dtype.
  destruct (_ && _); [repeat quiet_step|].
  destruct (_ && _).
  { destruct (get data (js "message")); [apply quiet_assistant|apply quiet_ret]. }
  destruct (is_string (js "result") dtype); [apply quiet_result|].
  destruct (is_string (js "error") dtype); repeat quiet_step.
Qed.

Lemma quiet_plain (line : jstring) : quiet (process_plain line).
Proof. unfold process_plain, message. repeat quiet_step. Qed.

(** A line adds calls to the sink, and never [onComplete]. *)
Lemma quiet_line (line : jstring) : quiet (processStreamingLine line).
Proof.
  unfold processStreamingLine.
  apply quiet_try_catch; [|apply quiet_plain].
  apply quiet_bind; [apply quiet_lift|intros; apply quiet_data].
Qed.

Lemma process_lines_quiet (lines : list jstring) (e : effects) :
  exists new,
    calls (process_lines e lines) = calls e ++ new /\ Forall not_complete new.
Proof.
  revert e. induction lines as [|l lines IH]; intros e; simpl.
  - exists []. rewrite app_nil_r. auto.
  - unfold process_lines in *. simpl.
    set (e1 := match trim l with [] => e | _ :: _ => run_line e (trim l) end).
    assert (H1 : exists n1, calls e1 = calls e ++ n1 /\ Forall not_complete n1).
    { subst e1. destruct (trim l) eqn:E.
      - exists []. rewrite app_nil_r. auto.
      - apply quiet_line. }
    destruct H1 as [n1 [E1 F1]]. destruct (IH e1) as [n2 [E2 F2]].
    exists (n1 ++ n2). rewrite E2, E1, app_assoc. split; [reflexivity|].
    apply Forall_app. auto.
Qed.

End LineEffects.

Unset Implicit Arguments.

(** ** The subprocess transport: one request *)

Section Requests.
Import StreamingClient.

Definition closes (ev : ProcessEvent) : bool :=
  match ev with
  | Close _ => true
  | _ => false
  end.

(** Process events among which the process does not close. *)
Definition no_close (evs : list ProcessEvent) : Prop :=
  forallb (fun ev => negb (closes ev)) evs = true.

Lemma run_app (st : stream) (evs evs' : list ProcessEvent) :
  run st (evs ++ evs') = run (run st evs) evs'.
Proof. apply fold_left_app. Qed.

(** The calls a rejection adds: the handler's [onError], and the one of the
    [catch] in [sendMessageStreaming] when the promise was still pending. *)
Definition rejection (st : stream) (reason : jstring) : list SinkCall :=
  OnError (JString reason)
  :: match settled st with
     | Pending => [OnError (JString reason)]
     | _ => []
     end.

Lemma sink_reject (st : stream) (reason : jstring) :
  let st' := settle (call st (OnError (JString reason))) (Rejected reason) in
  sink match settled st, settled st' with
       | Pending, Rejected r => call st' (OnError (JString r))
       | _, _ => st'
       end = sink st ++ rejection st reason.
Proof.
  unfold rejection, settle, call, with_eff, sink. simpl.
  destruct (settled st); simpl; rewrite <- ?app_assoc; reflexivity.
Qed.

(** What the listeners of ['close'] and the [catch] add to the sink. *)
Definition close_calls (st : stream) (code : option Z) : list SinkCall :=
  match code with
  | Some 0%Z =>
      if negb (hasReceivedData st)
         || match trim (fullResponse (eff st)) with [] => true | _ :: _ => false end
      then rejection st NO_RESPONSE
      else [OnComplete (fullResponse (eff st))]
  | _ => rejection st (failed_with code)
  end.

Lemma sink_step_close (st : stream) (code : option Z) :
  sink (step st (Close code)) = sink st ++ close_calls st code.
Proof.
  unfold step, close_calls. simpl. unfold on_close.
  assert (R : forall reason,
             sink match settled st,
                        settled (stop_timer (settle (call st (OnError (JString reason)))
                                                    (Rejected reason))) with
                  | Pending, Rejected r =>
                      call (stop_timer (settle (call st (OnError (JString reason)))
                                               (Rejected reason))) (OnError (JString r))
                  | _, _ => stop_timer (settle (call st (OnError (JString reason)))
                                               (Rejected reason))
                  end = sink st ++ rejection st reason).
  { intros reason. unfold rejection, settle, call, with_eff, stop_timer, sink. simpl.
    destruct (settled st); simpl; rewrite <- ?app_assoc; reflexivity. }
  destruct code as [[|p|p]|]; try apply R.
  destruct (negb (hasReceivedData st) || _); [apply R|].
  unfold settle, call, with_eff, stop_timer, sink. simpl.
  destruct (settled st); reflexivity.
Qed.

(** Before the process closes the sink only gains calls, and never
    [onComplete]. *)
Lemma sink_step_open (st : stream) (ev : ProcessEvent) :
  closes ev = false ->
  exists new, sink (step st ev) = sink st ++ new /\ Forall not_complete new.
Proof.
  intros Hev. destruct ev as [data|data|code|msg|]; try discriminate.
  - unfold step. simpl. unfold on_stdout, receive. simpl.
    destruct (process_lines_quiet
                (removelast (split LF (messageBuffer st ++ Buffer.toString data)))
                (eff st)) as [new [E F]].
    exists new. split; [|exact F].
    destruct (settled st); exact E.
  - unfold step. simpl. unfold on_stderr.
    destruct (_ || _).
    + exists [OnError (JString (Buffer.toString data))]. split.
      * simpl. destruct (settled st); reflexivity.
      * repeat constructor.
    + exists []. rewrite app_nil_r. split; [|constructor].
      destruct (settled st); reflexivity.
  - exists (rejection st msg). split.
    + apply (sink_reject st msg).
    + unfold rejection. destruct (settled st); repeat constructor.
  - unfold step. simpl. unfold on_timeout. destruct (timer st) eqn:Ht.
    + exists (rejection st TIMED_OUT). split.
      * unfold rejection, settle, call, with_eff, stop_timer, sink. simpl.
        destruct (settled st); simpl; rewrite <- ?app_assoc; reflexivity.
      * unfold rejection. destruct (settled st); repeat constructor.
    + exists []. rewrite app_nil_r. split; [|constructor].
      destruct (settled st); reflexivity.
Qed.

Lemma sink_run_open (evs : list ProcessEvent) (st : stream) :
  no_close evs ->
  exists new, sink (run st evs) = sink st ++ new /\ Forall not_complete new.
Proof.
  unfold no_close. revert st. induction evs as [|ev evs IH]; intros st H; simpl in *.
  - exists []. rewrite app_nil_r. auto.
  - apply andb_true_iff in H. destruct H as [Hev H].
    apply negb_true_iff in Hev.
    destruct (@sink_step_open st ev Hev) as [n1 [E1 F1]].
    destruct (IH (step st ev) H) as [n2 [E2 F2]].
    exists (n1 ++ n2). unfold run in *. rewrite E2, E1, app_assoc.
    split; [reflexivity|]. apply Forall_app. auto.
Qed.

Lemma not_complete_notin (l : list SinkCall) (text : jstring) :
  Forall not_complete l -> ~ In (OnComplete text) l.
Proof.
  intros F Hin. rewrite Forall_forall in F. exact (F _ Hin).
Qed.

(** The calls of a request before its process closes hold no [onComplete]. *)
Lemma open_request_not_complete (evs : list ProcessEvent) :
  no_close evs -> Forall not_complete (sendMessageStreaming evs).
Proof.
  intros H. unfold sendMessageStreaming.
  destruct (@sink_run_open evs initial H) as [new [E F]].
  rewrite E. exact F.
Qed.

(** A request whose process closes last: the calls before the close, then
    those of the close. *)
Lemma closed_request (evs : list ProcessEvent) (code : option Z) :
  sendMessageStreaming (evs ++ [Close code])
  = sendMessageStreaming evs ++ close_calls (run initial evs) code.
Proof.
  unfold sendMessageStreaming. rewrite run_app. simpl.
  apply sink_step_close.
Qed.

End Requests.

(** ** The subprocess transport: single lines *)

Section Lines.
Import StreamingClient.

(** The kind the heuristic gives a line of plain text. *)
Definition plain_kind (line : jstring) : kind :=
  if isThinkingContent line then thinking else text.

(** [fullResponse] after the collector saw a line of plain text. *)
Definition collected (full line : jstring) : jstring :=
  match plain_kind line with
  | text => full ++ line ++ [LF]
  | _ => full
  end.

(** A non-blank line that is not JSON: one event, the line and a newline. *)
Lemma plain_line (e : effects) (line : jstring) :
  trim line <> [] -> JSON_parse line = None ->
  run_line e line
  = mkEffects (calls e ++ [message (plain_kind line) (line ++ [LF])])
              (collected (fullResponse e) line).
Proof.
  intros Hne Hparse. unfold run_line, processStreamingLine, try_catch, bind, lift.
  rewrite Hparse. unfold throw, process_plain. simpl.
  destruct (trim line) eqn:E; [contradiction|].
  unfold collected, plain_kind, bind, emit, contentCollector.
  destruct (isThinkingContent line); reflexivity.
Qed.

(** One complete line arriving with an empty buffer. *)
Lemma receive_line (st : stream) (l : jstring) :
  ~ In LF l -> messageBuffer st = [] ->
  receive st (l ++ [LF])
  = mkStream (match trim l with
              | [] => eff st
              | _ :: _ => run_line (eff st) (trim l)
              end) [] true (settled st) (timer st).
Proof.
  intros Hl Hb. unfold receive. rewrite Hb. simpl app.
  rewrite (@split_app_sep LF l [] Hl). reflexivity.
Qed.

(** A chunk of standard output leaves the promise and the timer alone, so
    the [catch] of [sendMessageStreaming] does not run. *)
Lemma step_stdout (st : stream) (data : Buffer.bytes) :
  step st (Stdout data) = receive st (Buffer.toString data).
Proof.
  unfold step. simpl. unfold on_stdout, receive. simpl.
  destruct (settled st); reflexivity.
Qed.

Lemma is_string_inj (a b : jstring) (v : value) :
  is_string a v = true -> a <> b -> is_string b v = false.
Proof.
  destruct v as [[]|]; simpl; try discriminate.
  intros Ha Hab. apply str_eqb_eq in Ha. subst.
  destruct (str_eqb a b) eqn:E; [|reflexivity].
  apply str_eqb_eq in E. contradiction.
Qed.

(** The reads [process_result] makes for the operator log raise nothing:
    the token counts print, and the cost, when there is one, is a number. *)
Definition logs_cleanly (data : json) : bool :=
  let usage := get data (js "usage") in
  negb (truthy usage)
  || (match ToString (getprop_opt usage (js "input_tokens")),
            ToString (getprop_opt usage (js "output_tokens")) with
      | Some _, Some _ => true
      | _, _ => false
      end
      && (negb (truthy (get data (js "total_cost_usd")))
          || has_toFixed (get data (js "total_cost_usd")))).

Lemma result_line (e : effects) (line : jstring) (data : json) (duration : jstring) :
  JSON_parse line = Some data ->
  is_string (js "result") (get data (js "type")) = true ->
  ToString (get data (js "duration_ms")) = Some duration ->
  logs_cleanly data = true ->
  run_line e line
  = mkEffects (calls e ++ [message progress (js "Completed in " ++ duration ++ js "ms")])
              (fullResponse e).
Proof.
  intros Hparse Htype Hd Hlogs.
  unfold run_line, processStreamingLine, try_catch, bind, lift.
  rewrite Hparse. unfold ret, process_data, bind, lift.
  assert (Hdata : getprop (Some data) (js "type") = Some (get data (js "type"))).
  { destruct data; try reflexivity. discriminate. }
  rewrite Hdata. unfold ret.
  rewrite (is_string_inj (js "result") (js "system") _ Htype) by discriminate.
  rewrite (is_string_inj (js "result") (js "assistant") _ Htype) by discriminate.
  rewrite Htype. simpl andb.
  unfold process_result, bind, lift. rewrite Hd. unfold ret, when.
  unfold logs_cleanly in Hlogs.
  destruct (truthy (get data (js "usage"))) eqn:Hu; simpl in Hlogs.
  - unfold bind, lift.
    destruct (ToString (getprop_opt (get data (js "usage")) (js "input_tokens")));
      [|discriminate].
    destruct (ToString (getprop_opt (get data (js "usage")) (js "output_tokens")));
      [|discriminate].
    unfold ret. simpl in Hlogs.
    destruct (truthy (get data (js "total_cost_usd"))); simpl in *.
    + rewrite Hlogs. reflexivity.
    + reflexivity.
  - reflexivity.
Qed.

End Lines.

(** ** The claims about the subprocess transport *)

Section Transport.
Import StreamingClient.

Lemma no_unit_dec (sep : N) (s : jstring) :
  forallb (fun c => negb (N.eqb c sep)) s = true -> ~ In sep s.
Proof.
  rewrite forallb_forall. intros H Hin. specialize (H _ Hin).
  rewrite N.eqb_refl in H. discriminate.
Qed.

Lemma JSON_parse_empty : JSON_parse [] = None.
Proof. reflexivity. Qed.

(** The process writes a line of ASCII text, newline included, in one
    buffer. *)
Definition line_out (l : jstring) : ProcessEvent :=
  Stdout (Buffer.of_ascii (l ++ [LF])).

(** C1 (as amended).  A complete line that parses as a JSON object of type
    [result], whatever its subtype, is delivered as exactly one [progress]
    event whose content is [Completed in <duration_ms>ms], the duration
    printed as the engine prints the value; the line adds no [text] event,
    no [complete] event and nothing to the collected response.  (The line
    is read with an empty buffer; the fields read for the operator log
    print, see [logs_cleanly].) *)
Theorem result_line_is_progress
  (st : stream) (data : Buffer.bytes) (l : jstring) (parsed : json) (duration : jstring) :
  Buffer.toString data = l ++ [LF] -> ~ In LF l -> messageBuffer st = [] ->
  JSON_parse (trim l) = Some parsed ->
  is_string (js "result") (get parsed (js "type")) = true ->
  ToString (get parsed (js "duration_ms")) = Some duration ->
  logs_cleanly parsed = true ->
  sink (step st (Stdout data))
  = sink st ++ [message progress (js "Completed in " ++ duration ++ js "ms")]
  /\ fullResponse (eff (step st (Stdout data))) = fullResponse (eff st).
Proof.
  intros Hdata Hl Hb Hparse Htype Hd Hlogs.
  rewrite step_stdout, Hdata, (receive_line st l Hl Hb).
  destruct (trim l) as [|c r] eqn:E.
  - rewrite JSON_parse_empty in Hparse. discriminate.
  - unfold sink. simpl eff.
    rewrite (result_line (eff st) (c :: r) parsed duration Hparse Htype Hd Hlogs).
    split; reflexivity.
Qed.

(** The line of the scenario of C1. *)
Definition DONE_LINE : jstring :=
  jsq "{'type':'result','subtype':'success','result':'Done.'}".

(** A result line that carries a duration, written with a zero at its
    end. *)
Definition TIMED_LINE : jstring :=
  jsq "{'type':'result','subtype':'success','duration_ms':1.50}".

(** C1 at the line of the scenario: it carries no [duration_ms], and the one
    event delivered is the [progress] event [Completed in undefinedms].  At
    a line with a duration, the duration is printed as the number it is. *)
Lemma result_line_is_progress_witness :
  (sink (step initial (line_out DONE_LINE))
   = [message progress (js "Completed in undefinedms")]
   /\ fullResponse (eff (step initial (line_out DONE_LINE))) = [])
  /\ (sink (step initial (line_out TIMED_LINE))
      = [message progress (js "Completed in 1.5ms")]
      /\ fullResponse (eff (step initial (line_out TIMED_LINE))) = []).
Proof.
  split.
  - refine (result_line_is_progress initial (Buffer.of_ascii (DONE_LINE ++ [LF])) DONE_LINE
              (JObject [(js "type", JString (js "result"));
                        (js "subtype", JString (js "success"));
                        (js "result", JString (js "Done."))])
              (js "undefined") _ _ _ _ _ _ _);
      try reflexivity.
    apply no_unit_dec. reflexivity.
  - refine (result_line_is_progress initial (Buffer.of_ascii (TIMED_LINE ++ [LF])) TIMED_LINE
              (JObject [(js "type", JString (js "result"));
                        (js "subtype", JString (js "success"));
                        (js "duration_ms", JNumber (of_literal (js "1.50")))])
              (js "1.5") _ _ _ _ _ _ _);
      try reflexivity.
    apply no_unit_dec. reflexivity.
Defined.

(** C1 as stated fails at the line of its own scenario: the sink receives
    one [progress] event, not a [text] event carrying [Done.] followed by a
    [complete] event.  Nor does a completion follow when the process then
    exits with code 0: nothing was collected, and the request ends with the
    error that no response was received. *)
Lemma result_line_counterexample :
  sendMessageStreaming [line_out DONE_LINE]
  = [message progress (js "Completed in undefinedms")]
  /\ ~ (exists c : SinkCall,
          sendMessageStreaming [line_out DONE_LINE]
          = [message text (js "Done."); c])
  /\ sendMessageStreaming [line_out DONE_LINE; Close (Some 0%Z)]
     = [message progress (js "Completed in undefinedms");
        OnError (JString NO_RESPONSE); OnError (JString NO_RESPONSE)].
Proof.
  assert (E : sendMessageStreaming [line_out DONE_LINE]
              = [message progress (js "Completed in undefinedms")])
    by (vm_compute; reflexivity).
  split; [exact E|]. split; [|vm_compute; reflexivity].
  intros [c Hc]. rewrite E in Hc. discriminate.
Qed.

(** C8 (as amended).  A complete line read with an empty buffer is trimmed.
    A blank line emits nothing.  A line whose trimmed text is not blank and
    does not parse as JSON emits exactly one event: its content is the
    trimmed text with a newline appended, its kind [thinking] when
    [isThinkingContent] holds of the trimmed text and [text] otherwise. *)
Theorem plain_line_is_one_event
  (st : stream) (data : Buffer.bytes) (l : jstring) :
  Buffer.toString data = l ++ [LF] -> ~ In LF l -> messageBuffer st = [] ->
  (trim l = [] -> sink (step st (Stdout data)) = sink st)
  /\ (trim l <> [] -> JSON_parse (trim l) = None ->
      sink (step st (Stdout data))
      = sink st ++ [message (if isThinkingContent (trim l) then thinking else text)
                            (trim l ++ [LF])]).
Proof.
  intros Hdata Hl Hb. rewrite step_stdout, Hdata, (receive_line st l Hl Hb).
  split.
  - intros E. rewrite E. reflexivity.
  - intros Hne Hparse. destruct (trim l) as [|c r] eqn:E; [contradiction|].
    unfold sink. simpl eff. rewrite plain_line.
    + reflexivity.
    + rewrite <- E, trim_idem, E. discriminate.
    + exact Hparse.
Qed.

(** The line of the scenario of C8. *)
Definition LET_ME_LINE : jstring := js "Let me check the file first".

(** C8 at the line of the scenario: a single [thinking] event. *)
Lemma plain_line_is_one_event_witness :
  sendMessageStreaming [line_out LET_ME_LINE]
  = [message thinking (LET_ME_LINE ++ [LF])].
Proof.
  refine (proj2 (plain_line_is_one_event initial (Buffer.of_ascii (LET_ME_LINE ++ [LF]))
                   LET_ME_LINE
                   _ _ _) _ _); try reflexivity.
  - apply no_unit_dec. reflexivity.
  - discriminate.
Defined.

(** C8 as stated fails on a blank line and on a line with blanks around it:
    neither parses as JSON; the first emits no event, the second an event
    whose content is not the line with a newline appended. *)
Lemma plain_line_counterexample :
  (JSON_parse [] = None
   /\ sendMessageStreaming [line_out []] = [])
  /\ (JSON_parse (js "  hi") = None
      /\ sendMessageStreaming [line_out (js "  hi")]
         = [message text (js "hi" ++ [LF])]
      /\ message text (js "hi" ++ [LF]) <> message text (js "  hi" ++ [LF])).
Proof.
  repeat split; try (vm_compute; reflexivity). discriminate.
Qed.

(** C7.  When the process closes with exit code 0 and no data was received,
    or the collected text is blank, the sink receives [onError] with
    [No response received from Claude CLI], and no [onComplete] at all. *)
Theorem no_response_is_an_error (evs : list ProcessEvent) :
  no_close evs ->
  hasReceivedData (run initial evs) = false
  \/ trim (fullResponse (eff (run initial evs))) = [] ->
  In (OnError (JString NO_RESPONSE)) (sendMessageStreaming (evs ++ [Close (Some 0%Z)]))
  /\ forall text, ~ In (OnComplete text) (sendMessageStreaming (evs ++ [Close (Some 0%Z)])).
Proof.
  intros Hopen Hnone. rewrite closed_request.
  assert (Hc : close_calls (run initial evs) (Some 0%Z)
               = rejection (run initial evs) NO_RESPONSE).
  { unfold close_calls. destruct Hnone as [-> | ->]; [reflexivity|].
    rewrite orb_true_r. reflexivity. }
  rewrite Hc. split.
  - apply in_or_app. right. left. reflexivity.
  - intros text Hin. apply in_app_or in Hin. destruct Hin as [Hin|Hin].
    + exact (not_complete_notin _ text (open_request_not_complete evs Hopen) Hin).
    + unfold rejection in Hin. destruct (settled (run initial evs));
        simpl in Hin; intuition discriminate.
Qed.

(** C7 on two requests: one whose process wrote nothing, and one whose only
    line was classified as thinking. *)
Lemma no_response_is_an_error_witness :
  (In (OnError (JString NO_RESPONSE)) (sendMessageStreaming ([] ++ [Close (Some 0%Z)]))
   /\ forall text, ~ In (OnComplete text) (sendMessageStreaming ([] ++ [Close (Some 0%Z)])))
  /\ (In (OnError (JString NO_RESPONSE))
        (sendMessageStreaming ([line_out LET_ME_LINE] ++ [Close (Some 0%Z)]))
      /\ forall text,
          ~ In (OnComplete text)
            (sendMessageStreaming ([line_out LET_ME_LINE] ++ [Close (Some 0%Z)]))).
Proof.
  split.
  - apply (no_response_is_an_error []); [reflexivity|left; reflexivity].
  - apply (no_response_is_an_error [line_out LET_ME_LINE]);
      [reflexivity|right; reflexivity].
Defined.

End Transport.

Section Termination.
Import StreamingClient.

(** [onComplete] or [onError]: a call that reports how the request ended. *)
Definition is_terminal (c : SinkCall) : bool :=
  match c with
  | OnComplete _ | OnError _ => true
  | OnMessage _ => false
  end.

Definition count_terminal (l : list SinkCall) : nat :=
  List.length (filter is_terminal l).

Lemma rejection_shape (st : stream) (reason : jstring) :
  rejection st reason <> []
  /\ Forall (fun c => c = OnError (JString reason)) (rejection st reason)
  /\ Forall not_complete (rejection st reason).
Proof.
  unfold rejection. destruct (settled st); repeat split;
    try discriminate; repeat constructor.
Qed.

(** C4 (as amended).  When the process closes, the close delivers either
    one [onComplete], or [onError] (one call or more, all with the same
    message), never both; no [onComplete] is delivered before the close.
    The close completes exactly when the exit code is 0, data was received
    and the collected text is not blank, and [onComplete] then carries the
    collected text.  On exit code 0 otherwise the message of [onError] is
    [No response received from Claude CLI]; on any other exit code it is
    [Claude CLI failed with code <code>]. *)
Theorem close_delivers_complete_or_error (evs : list ProcessEvent) (code : option Z) :
  no_close evs ->
  exists closing : list SinkCall,
    sendMessageStreaming (evs ++ [Close code]) = sendMessageStreaming evs ++ closing
    /\ Forall not_complete (sendMessageStreaming evs)
    /\ ((code = Some 0%Z
         /\ hasReceivedData (run initial evs) = true
         /\ trim (fullResponse (eff (run initial evs))) <> []
         /\ closing = [OnComplete (fullResponse (eff (run initial evs)))])
        \/ (exists reason,
               closing <> []
               /\ Forall (fun c => c = OnError (JString reason)) closing
               /\ (code = Some 0%Z ->
                   (hasReceivedData (run initial evs) = false
                    \/ trim (fullResponse (eff (run initial evs))) = [])
                   /\ reason = NO_RESPONSE)
               /\ (code <> Some 0%Z -> reason = failed_with code))).
Proof.
  intros Hopen. exists (close_calls (run initial evs) code).
  split; [apply closed_request|].
  split; [apply open_request_not_complete; exact Hopen|].
  unfold close_calls.
  assert (Hfail : forall c : option Z, c <> Some 0%Z ->
            exists reason,
              rejection (run initial evs) (failed_with c) <> []
              /\ Forall (fun x => x = OnError (JString reason))
                        (rejection (run initial evs) (failed_with c))
              /\ (c = Some 0%Z ->
                  (hasReceivedData (run initial evs) = false
                   \/ trim (fullResponse (eff (run initial evs))) = [])
                  /\ reason = NO_RESPONSE)
              /\ (c <> Some 0%Z -> reason = failed_with c)).
  { intros c Hc. exists (failed_with c).
    destruct (rejection_shape (run initial evs) (failed_with c)) as [H1 [H2 _]].
    split; [exact H1|]. split; [exact H2|]. split; [contradiction|reflexivity]. }
  destruct code as [[|p|p]|]; try (right; apply Hfail; discriminate).
  destruct (hasReceivedData (run initial evs)) eqn:Hd; simpl negb; simpl orb.
  - destruct (trim (fullResponse (eff (run initial evs)))) as [|c r] eqn:Ht.
    + right. exists NO_RESPONSE.
      destruct (rejection_shape (run initial evs) NO_RESPONSE) as [H1 [H2 _]].
      split; [exact H1|]. split; [exact H2|].
      split; [intros _; split; [right|]; reflexivity|congruence].
    + left. repeat split. discriminate.
  - right. exists NO_RESPONSE.
    destruct (rejection_shape (run initial evs) NO_RESPONSE) as [H1 [H2 _]].
    split; [exact H1|]. split; [exact H2|].
    split; [intros _; split; [left|]; reflexivity|congruence].
Qed.

(** C4 on the request of the scenario, whose process exits with code 1 after
    one line: the close delivers [onError] only, and no [onComplete]. *)
Lemma close_delivers_complete_or_error_witness :
  exists closing : list SinkCall,
    sendMessageStreaming ([line_out (js "hello")] ++ [Close (Some 1%Z)])
    = sendMessageStreaming [line_out (js "hello")] ++ closing
    /\ Forall not_complete (sendMessageStreaming [line_out (js "hello")])
    /\ Forall (fun c => c = OnError (JString (js "Claude CLI failed with code 1"))) closing
    /\ closing <> [].
Proof.
  destruct (close_delivers_complete_or_error [line_out (js "hello")] (Some 1%Z) eq_refl)
    as [closing [H1 [H2 [[H3 _]|[reason [H3 [H4 [_ H5]]]]]]]]; [discriminate|].
  exists closing. rewrite (H5 ltac:(discriminate)) in H4.
  repeat split; assumption.
Defined.

(** C4 as stated fails on a request that succeeds after its process wrote
    an error on standard error, or an error line on standard output: the
    sink receives [onError] for what was written and [onComplete] at the
    close, both. *)
Lemma error_then_complete_counterexample :
  (sendMessageStreaming [Stderr (Buffer.of_ascii (js "error: retrying"));
                         line_out (js "hello"); Close (Some 0%Z)]
   = [OnError (JString (js "error: retrying"));
      message text (js "hello" ++ [LF]); OnComplete (js "hello" ++ [LF])]
   /\ count_terminal
        (sendMessageStreaming [Stderr (Buffer.of_ascii (js "error: retrying"));
                               line_out (js "hello"); Close (Some 0%Z)]) = 2)
  /\ (sendMessageStreaming [line_out (jsq "{'type':'error','message':'busy'}");
                            line_out (js "hello"); Close (Some 0%Z)]
      = [OnError (JString (js "busy"));
         message text (js "hello" ++ [LF]); OnComplete (js "hello" ++ [LF])]
      /\ count_terminal
           (sendMessageStreaming [line_out (jsq "{'type':'error','message':'busy'}");
                                  line_out (js "hello"); Close (Some 0%Z)]) = 2).
Proof.
  repeat split; vm_compute; reflexivity.
Qed.

(** When the process exits with code 1 the sink receives [onError] twice,
    from the close handler and from the [catch] of [sendMessageStreaming]. *)
Lemma exit_code_1_reports_twice :
  sendMessageStreaming [Close (Some 1%Z)]
  = [OnError (JString (js "Claude CLI failed with code 1"));
     OnError (JString (js "Claude CLI failed with code 1"))].
Proof. vm_compute. reflexivity. Qed.

Lemma unique_last {A} (P : A -> Prop) (l pre post : list A) (x y : A) :
  Forall P l -> ~ P x -> l ++ [y] = pre ++ x :: post -> post = [].
Proof.
  revert pre. induction l as [|a l IH]; intros pre F Hx E; simpl in E.
  - destruct pre as [|b pre]; simpl in E.
    + injection E as _ E. symmetry. exact E.
    + injection E as _ E. destruct pre; discriminate.
  - inversion F as [|? ? Ha Hl]; subst.
    destruct pre as [|b pre]; simpl in E.
    + injection E as E _. subst. contradiction.
    + injection E as _ E. exact (IH pre Hl Hx E).
Qed.

(** No call follows an [onComplete] in a request whose process closes last. *)
Lemma complete_is_last (evs : list ProcessEvent) (code : option Z)
      (pre post : list SinkCall) (text : jstring) :
  no_close evs ->
  sendMessageStreaming (evs ++ [Close code]) = pre ++ OnComplete text :: post ->
  post = [].
Proof.
  intros Hopen E. rewrite closed_request in E.
  pose proof (open_request_not_complete evs Hopen) as Hbefore.
  assert (Hrej : forall reason,
             sendMessageStreaming evs ++ rejection (run initial evs) reason
             = pre ++ OnComplete text :: post -> post = []).
  { intros reason E'. exfalso.
    destruct (rejection_shape (run initial evs) reason) as [_ [_ Hr]].
    assert (F : Forall not_complete
                  (sendMessageStreaming evs ++ rejection (run initial evs) reason))
      by (apply Forall_app; auto).
    rewrite E' in F. apply Forall_app in F. destruct F as [_ F].
    inversion F as [|? ? Hc _]. exact Hc. }
  unfold close_calls in E. destruct code as [[|p|p]|]; try (eapply Hrej; exact E).
  destruct (negb (hasReceivedData (run initial evs)) || _); [eapply Hrej; exact E|].
  eapply (unique_last not_complete); [exact Hbefore| |exact E].
  intros H. exact H.
Qed.

Lemma step_timeout_buffer (st : stream) :
  messageBuffer (step st Timeout) = messageBuffer st.
Proof.
  unfold step. simpl. unfold on_timeout, stop_timer, settle, call, with_eff.
  destruct (timer st); destruct (settled st); reflexivity.
Qed.

Lemma step_timeout_error (st : stream) :
  timer st = true -> In (OnError (JString TIMED_OUT)) (sink (step st Timeout)).
Proof.
  intros Ht. unfold step. simpl. unfold on_timeout. rewrite Ht.
  unfold stop_timer, settle, call, with_eff, sink.
  destruct (settled st); simpl; apply in_or_app; simpl; tauto.
Qed.

(** C6 (as amended).  Only completion is final: in a request whose process
    closes last, no call follows an [onComplete].  An error is not: after
    the timeout has fired its [onError], a complete line of plain text that
    arrives on standard output is still delivered to the sink as an event. *)
Theorem output_after_error_is_delivered :
  (forall (evs : list ProcessEvent) (code : option Z)
          (pre post : list SinkCall) (text : jstring),
      no_close evs ->
      sendMessageStreaming (evs ++ [Close code]) = pre ++ OnComplete text :: post ->
      post = [])
  /\ (forall (st : stream) (data : Buffer.bytes) (l : jstring),
         Buffer.toString data = l ++ [LF] -> ~ In LF l -> messageBuffer st = [] ->
         trim l <> [] -> JSON_parse (trim l) = None ->
         timer st = true ->
         In (OnError (JString TIMED_OUT)) (sink (step st Timeout))
         /\ sink (step (step st Timeout) (Stdout data))
            = sink (step st Timeout)
                ++ [message (if isThinkingContent (trim l) then thinking else text)
                            (trim l ++ [LF])]).
Proof.
  split.
  - intros evs code pre post text. apply complete_is_last.
  - intros st data l Hdata Hl Hb Hne Hparse Ht.
    split; [apply step_timeout_error; exact Ht|].
    rewrite step_stdout, Hdata.
    rewrite (receive_line (step st Timeout) l Hl)
      by (rewrite step_timeout_buffer; exact Hb).
    destruct (trim l) as [|c r] eqn:E; [contradiction|].
    unfold sink at 1. simpl eff. rewrite plain_line.
    + reflexivity.
    + rewrite <- E, trim_idem, E. discriminate.
    + exact Hparse.
Qed.

(** C6 on a request whose process writes a line after the timeout. *)
Lemma output_after_error_is_delivered_witness :
  In (OnError (JString TIMED_OUT)) (sink (step initial Timeout))
  /\ sink (step (step initial Timeout) (line_out (js "hello")))
     = sink (step initial Timeout) ++ [message text (js "hello" ++ [LF])].
Proof.
  refine (proj2 output_after_error_is_delivered initial
            (Buffer.of_ascii (js "hello" ++ [LF])) (js "hello")
            _ _ _ _ _ _); try reflexivity.
  - apply no_unit_dec. reflexivity.
  - discriminate.
Defined.

(** No call follows a call that reports how the request ended. *)
Definition nothing_after_terminal (l : list SinkCall) : Prop :=
  forall pre c post, l = pre ++ c :: post -> is_terminal c = true -> post = [].

(** C6 as stated fails: the line written after the timeout follows the
    [onError] calls of the timeout. *)
Lemma output_after_timeout_counterexample :
  sendMessageStreaming [Timeout; line_out (js "hello")]
  = [OnError (JString TIMED_OUT); OnError (JString TIMED_OUT);
     message text (js "hello" ++ [LF])]
  /\ ~ nothing_after_terminal
         (sendMessageStreaming [Timeout; line_out (js "hello")]).
Proof.
  assert (E : sendMessageStreaming [Timeout; line_out (js "hello")]
              = [OnError (JString TIMED_OUT); OnError (JString TIMED_OUT);
                 message text (js "hello" ++ [LF])])
    by (vm_compute; reflexivity).
  split; [exact E|].
  intros H. rewrite E in H.
  specialize (H [] (OnError (JString TIMED_OUT))
                [OnError (JString TIMED_OUT); message text (js "hello" ++ [LF])]
                eq_refl eq_refl).
  discriminate.
Qed.

(** A request that succeeds: the process closes with exit code 0 after data
    arrived and text was collected.  The close delivers [onComplete], once,
    with the collected text. *)
Theorem success_is_complete (evs : list ProcessEvent) :
  no_close evs ->
  hasReceivedData (run initial evs) = true ->
  trim (fullResponse (eff (run initial evs))) <> [] ->
  sendMessageStreaming (evs ++ [Close (Some 0%Z)])
  = sendMessageStreaming evs ++ [OnComplete (fullResponse (eff (run initial evs)))]
  /\ Forall not_complete (sendMessageStreaming evs).
Proof.
  intros Hopen Hdata Htext. rewrite closed_request.
  split; [|apply open_request_not_complete; exact Hopen].
  unfold close_calls. rewrite Hdata.
  destruct (trim (fullResponse (eff (run initial evs)))); [contradiction|reflexivity].
Qed.

Lemma success_is_complete_witness :
  sendMessageStreaming ([line_out (js "hello")] ++ [Close (Some 0%Z)])
  = sendMessageStreaming [line_out (js "hello")] ++ [OnComplete (js "hello" ++ [LF])]
  /\ Forall not_complete (sendMessageStreaming [line_out (js "hello")]).
Proof.
  apply (success_is_complete [line_out (js "hello")]);
    [reflexivity|reflexivity|discriminate].
Defined.

End Termination.

(** ** Chunks *)

Section Chunks.
Import StreamingClient.

Lemma last_app_cons {A} (l l' : list A) (d : A) :
  l' <> [] -> last (l ++ l') d = last l' d.
Proof.
  intros Hne. induction l as [|x l IH]; [reflexivity|].
  simpl. destruct (l ++ l') eqn:E; [|exact IH].
  apply app_eq_nil in E. destruct E; contradiction.
Qed.

(** The buffer after a chunk, followed by the next chunk, splits as the
    tail of the whole text does. *)
Lemma split_resume (buf c1 c2 : jstring) :
  split LF ((buf ++ c1) ++ c2)
  = removelast (split LF (buf ++ c1))
      ++ split LF (last (split LF (buf ++ c1)) [] ++ c2).
Proof.
  rewrite split_app.
  rewrite (split_app LF (last (split LF (buf ++ c1)) []) c2).
  rewrite (split_no_unit (last_split_no_unit LF (buf ++ c1))).
  reflexivity.
Qed.

(** Two chunks of text are received as their concatenation is. *)
Lemma receive_app (st : stream) (c1 c2 : jstring) :
  receive (receive st c1) c2 = receive st (c1 ++ c2).
Proof.
  unfold receive. simpl.
  rewrite app_assoc, split_resume.
  set (L1 := split LF (messageBuffer st ++ c1)).
  set (L2 := split LF (last L1 [] ++ c2)).
  assert (Hne : L2 <> []) by apply split_not_nil.
  rewrite (removelast_app _ Hne), (last_app_cons _ _ _ Hne).
  unfold process_lines. rewrite fold_left_app. reflexivity.
Qed.

(** Text delivered in any number of chunks is received as if it had been
    delivered in one. *)
Theorem receive_chunks (chunks : list jstring) (st : stream) :
  chunks <> [] ->
  fold_left receive chunks st = receive st (List.concat chunks).
Proof.
  revert st. induction chunks as [|c chunks IH]; intros st Hne; [contradiction|].
  destruct chunks as [|c2 chunks].
  - simpl. rewrite app_nil_r. reflexivity.
  - change (fold_left receive (c :: c2 :: chunks) st)
      with (fold_left receive (c2 :: chunks) (receive st c)).
    rewrite IH by discriminate.
    rewrite receive_app. reflexivity.
Qed.

Lemma receive_chunks_witness :
  fold_left receive [js "Let me ch"; js "eck"; LF :: js "{}"] initial
  = receive initial (List.concat [js "Let me ch"; js "eck"; LF :: js "{}"]).
Proof.
  apply receive_chunks. discriminate.
Defined.

(** Bytes of ASCII text. *)
Definition ascii (data : Buffer.bytes) : Prop :=
  forallb (fun b => N.leb b 127) data = true.

Lemma toString_ascii (data : Buffer.bytes) : ascii data -> Buffer.toString data = data.
Proof.
  unfold ascii, Buffer.toString. induction data as [|b data IH]; simpl; intros H.
  - reflexivity.
  - apply andb_true_iff in H. destruct H as [Hb H].
    unfold Buffer.decode_step, Buffer.lead. simpl. rewrite Hb. simpl.
    rewrite IH by exact H. reflexivity.
Qed.

Lemma toString_app_ascii (a b : Buffer.bytes) :
  ascii (a ++ b) ->
  Buffer.toString (a ++ b) = Buffer.toString a ++ Buffer.toString b.
Proof.
  intros H. rewrite (toString_ascii _ H).
  unfold ascii in H. rewrite forallb_app in H. apply andb_true_iff in H.
  destruct H as [Ha Hb].
  rewrite (toString_ascii a Ha), (toString_ascii b Hb). reflexivity.
Qed.

(** Standard output that is ASCII text reaches the handlers in the same way
    however the pipe cuts it into buffers. *)
Theorem ascii_chunks (chunks : list Buffer.bytes) (st : stream) :
  chunks <> [] -> ascii (List.concat chunks) ->
  run st (map Stdout chunks) = step st (Stdout (List.concat chunks)).
Proof.
  revert st. induction chunks as [|c chunks IH]; intros st Hne Ha; [contradiction|].
  destruct chunks as [|c2 chunks].
  - simpl. rewrite app_nil_r. reflexivity.
  - assert (Hrest : c2 :: chunks <> []) by discriminate.
    remember (c2 :: chunks) as rest eqn:Hr. clear Hr.
    simpl List.concat in *. simpl map. unfold run. simpl fold_left.
    fold (run (step st (Stdout c)) (map Stdout rest)).
    assert (Ha' : ascii c /\ ascii (List.concat rest)).
    { unfold ascii in *. rewrite forallb_app in Ha. apply andb_true_iff in Ha. exact Ha. }
    destruct Ha' as [Hc Hcat].
    rewrite (IH (step st (Stdout c)) Hrest Hcat).
    rewrite !step_stdout.
    rewrite (toString_app_ascii _ _ Ha), receive_app. reflexivity.
Qed.

Lemma ascii_chunks_witness :
  run initial (map Stdout [Buffer.of_ascii (js "Let me ch"); Buffer.of_ascii (js "eck");
                           Buffer.of_ascii (LF :: js "{}")])
  = step initial
      (Stdout (List.concat [Buffer.of_ascii (js "Let me ch"); Buffer.of_ascii (js "eck");
                            Buffer.of_ascii (LF :: js "{}")])).
Proof.
  apply ascii_chunks; [discriminate|reflexivity].
Defined.

(** The transport of the manager receives two chunks of text as it receives
    their concatenation. *)
Lemma cli_receive_app (st : Manager.cli) (c1 c2 : jstring) :
  Manager.cli_receive (Manager.cli_receive st c1) c2 = Manager.cli_receive st (c1 ++ c2).
Proof.
  unfold Manager.cli_receive. simpl.
  rewrite app_assoc, split_resume.
  set (L1 := split LF (Manager.buffer st ++ c1)).
  set (L2 := split LF (last L1 [] ++ c2)).
  assert (Hne : L2 <> []) by apply split_not_nil.
  rewrite (removelast_app _ Hne), (last_app_cons _ _ _ Hne).
  unfold Manager.fire_lines. rewrite flat_map_app, app_assoc. reflexivity.
Qed.

(** Text delivered to the transport of the manager in any number of chunks
    fires the events of the same text delivered in one. *)
Theorem cli_receive_chunks (chunks : list jstring) (st : Manager.cli) :
  chunks <> [] ->
  fold_left Manager.cli_receive chunks st = Manager.cli_receive st (List.concat chunks).
Proof.
  revert st. induction chunks as [|c chunks IH]; intros st Hne; [contradiction|].
  destruct chunks as [|c2 chunks].
  - simpl. rewrite app_nil_r. reflexivity.
  - change (fold_left Manager.cli_receive (c :: c2 :: chunks) st)
      with (fold_left Manager.cli_receive (c2 :: chunks) (Manager.cli_receive st c)).
    rewrite IH by discriminate.
    rewrite cli_receive_app. reflexivity.
Qed.

Lemma cli_receive_chunks_witness :
  fold_left Manager.cli_receive [jsq "{'type':"; jsq "'text','text':'a'}"; [LF]]
            Manager.cli_initial
  = Manager.cli_receive Manager.cli_initial
      (List.concat [jsq "{'type':"; jsq "'text','text':'a'}"; [LF]]).
Proof.
  apply cli_receive_chunks. discriminate.
Defined.


(** The bytes of [é] and a newline, U+00E9 being [C3 A9] in UTF-8. *)
Definition E_ACUTE_LINE : Buffer.bytes := [195; 169; 10]%N.

(** C2 at a buffer boundary inside a character.  Delivered whole, the three
    bytes are the line [é]; delivered as [C3] and then [A9 0A], each buffer
    is decoded on its own and the line becomes two replacement characters.
    The transport of the client and the one of the manager both do so. *)
Theorem split_character_changes_events :
  (sendMessageStreaming [Stdout E_ACUTE_LINE] = [message text [233; 10]%N]
   /\ sendMessageStreaming [Stdout [195]%N; Stdout [169; 10]%N]
      = [message text [65533; 65533; 10]%N])
  /\ (Manager.fired (Manager.cli_on_stdout Manager.cli_initial E_ACUTE_LINE)
      = [message text [233]%N]
      /\ Manager.fired
           (Manager.cli_on_stdout
              (Manager.cli_on_stdout Manager.cli_initial [195]%N) [169; 10]%N)
         = [message text [65533; 65533]%N]).
Proof.
  repeat split; vm_compute; reflexivity.
Qed.

End Chunks.

(** ** Sessions read from transcripts *)

Section Sessions.
Import SessionManager.

Variable Date_parse : jstring -> time.

(** The entries that become messages are those whose type is [user] or
    [assistant]. *)
Lemma entry_messages_length (entries : list json) (msgs : list ClaudeMessage) :
  entry_messages Date_parse entries = Some msgs ->
  List.length msgs = List.length (filter is_turn entries).
Proof.
  revert msgs. induction entries as [|entry entries IH]; intros msgs H; simpl in H.
  - injection H as <-. reflexivity.
  - unfold entry_message in H. simpl filter.
    destruct (getprop (Some entry) (js "type")) as [t|]; [|discriminate].
    destruct (is_turn entry).
    + destruct (getprop (get entry (js "message")) (js "content")) as [c|]; [|discriminate].
      destruct (match c with Some (JString s) => Some s | _ => formatComplexContent c end);
        [|discriminate].
      destruct (Date_getTime Date_parse (get entry (js "timestamp"))); [|discriminate].
      destruct (entry_messages Date_parse entries) as [rest|]; [|discriminate].
      injection H as <-. simpl. f_equal. apply IH. reflexivity.
    + apply IH. exact H.
Qed.

Lemma find_first_match {A} (p : A -> bool) (before after : list A) (m : A) :
  (forall b, In b before -> p b = false) -> p m = true ->
  find p (before ++ m :: after) = Some m.
Proof.
  intros Hb Hm. induction before as [|b before IH]; simpl.
  - rewrite Hm. reflexivity.
  - rewrite (Hb b) by (left; reflexivity).
    apply IH. intros x Hx. apply Hb. right. exact Hx.
Qed.

(** The first 50 units of a text, newlines turned into blanks and the
    blanks at both ends removed. *)
Definition title_text (text : jstring) : jstring :=
  trim (replaceAll LF 32 (firstn 50 text)).

Definition has_role_user (m : ClaudeMessage) : bool := is_string (js "user") (role m).

(** The title, read off the messages. *)
Lemma title_of_first_user_message (messages : list ClaudeMessage) :
  (forall before m after,
      messages = before ++ m :: after ->
      (forall b, In b before -> has_role_user b = false) ->
      has_role_user m = true -> content m <> [] ->
      (50 < List.length (content m) ->
       generateSessionTitle messages = title_text (content m) ++ js "...")
      /\ (List.length (content m) <= 50 ->
          generateSessionTitle messages = title_text (content m)))
  /\ ((forall m, In m messages -> has_role_user m = false) ->
      generateSessionTitle messages = PLACEHOLDER).
Proof.
  split.
  - intros before m after -> Hb Hm Hc. unfold generateSessionTitle.
    unfold has_role_user in Hb, Hm.
    rewrite (find_first_match _ before after m Hb Hm).
    destruct (content m) as [|c r] eqn:E; [contradiction|].
    unfold title_text, substring0. split; intros Hlen.
    + apply Nat.ltb_lt in Hlen. rewrite Hlen. reflexivity.
    + apply Nat.ltb_ge in Hlen. rewrite Hlen, app_nil_r. reflexivity.
  - intros Hnone. unfold generateSessionTitle.
    destruct (find (fun m => is_string (js "user") (role m)) messages) as [m|] eqn:E;
      [|reflexivity].
    apply find_some in E. destruct E as [Hin Hm].
    pose proof (Hnone m Hin) as Hno. unfold has_role_user in Hno. congruence.
Qed.

Lemma status_pending_iff (entries : list json) :
  determineSessionStatus entries = pending
  <-> is_string (js "user") (get (last entries JNull) (js "type")) = true.
Proof.
  unfold determineSessionStatus.
  destruct (is_string (js "user") (get (last entries JNull) (js "type"))).
  - tauto.
  - destruct (is_string (js "assistant") (get (last entries JNull) (js "type")));
      split; discriminate.
Qed.

(** A timestamp [new Date] reads without a TypeError: one that prints. *)
Lemma Date_getTime_none (v : value) :
  Date_getTime Date_parse v = None <-> ToString v = None.
Proof.
  destruct v as [x|]; [|split; discriminate].
  destruct x as [|b|x|s|items|ps]; try (split; discriminate).
  - destruct b; split; discriminate.
  - unfold Date_getTime, ToString.
    destruct (ToString_json (JArray items)); simpl; split; congruence.
  - unfold Date_getTime, ToString.
    destruct (ToString_json (JObject ps)); simpl; split; congruence.
Qed.

(** An entry that is read without a TypeError whatever else it holds: an
    object whose timestamp prints and that, when it is a turn of the
    conversation, has a message object whose content is a string. *)
Definition plain_entry (entry : json) : Prop :=
  entry <> JNull
  /\ ToString (get entry (js "timestamp")) <> None
  /\ (is_turn entry = true ->
      exists m s, get entry (js "message") = Some m /\ m <> JNull
                  /\ get m (js "content") = Some (JString s)).

(** Reading the entries raises no TypeError: neither the loop that turns
    them into messages nor the reading of the first and of the last
    timestamp. *)
Definition read_without_error (entries : list json) : Prop :=
  entry_messages Date_parse entries <> None
  /\ Date_getTime Date_parse (get (hd JNull entries) (js "timestamp")) <> None
  /\ Date_getTime Date_parse (get (last entries JNull) (js "timestamp")) <> None.

Lemma entry_messages_plain (entries : list json) :
  Forall plain_entry entries -> entry_messages Date_parse entries <> None.
Proof.
  induction entries as [|entry entries IH]; intros F; simpl; [discriminate|].
  inversion F as [|? ? [Hnull [Htime Hturn]] Frest]; subst.
  specialize (IH Frest).
  unfold entry_message.
  assert (Ht : getprop (Some entry) (js "type") = Some (get entry (js "type"))).
  { destruct entry; try reflexivity. contradiction. }
  rewrite Ht. destruct (is_turn entry).
  - destruct (Hturn eq_refl) as [m [s [Hm [Hmn Hc]]]]. rewrite Hm.
    assert (Hg : getprop (Some m) (js "content") = Some (Some (JString s))).
    { destruct m; try (simpl; rewrite <- Hc; reflexivity). contradiction. }
    rewrite Hg.
    destruct (Date_getTime Date_parse (get entry (js "timestamp"))) eqn:Ed.
    + destruct (entry_messages Date_parse entries); [discriminate|contradiction].
    + apply Date_getTime_none in Ed. contradiction.
  - exact IH.
Qed.

Lemma plain_last (entries : list json) :
  entries <> [] -> Forall plain_entry entries -> plain_entry (last entries JNull).
Proof.
  intros Hne F. rewrite Forall_forall in F. apply F.
  destruct entries as [|e entries]; [contradiction|].
  clear F Hne. revert e. induction entries as [|e' entries IH]; intros e.
  - left. reflexivity.
  - right. apply (IH e').
Qed.

(** Plain entries are read without a TypeError. *)
Lemma plain_entries_read (entries : list json) :
  entries <> [] -> Forall plain_entry entries -> read_without_error entries.
Proof.
  intros Hne F. split; [apply entry_messages_plain; exact F|].
  split; intros H; apply Date_getTime_none in H.
  - destruct entries as [|e entries]; [contradiction|].
    inversion F as [|? ? [_ [Ht _]] _]; subst. exact (Ht H).
  - destruct (@plain_last entries Hne F) as [_ [Ht _]]. exact (Ht H).
Qed.

(** A title is at most 50 units and three dots long. *)
Theorem title_is_short (messages : list ClaudeMessage) :
  List.length (generateSessionTitle messages) <= 53.
Proof.
  unfold generateSessionTitle.
  destruct (find (fun m => is_string (js "user") (role m)) messages) as [m|];
    [|vm_compute; lia].
  destruct (content m) as [|c r] eqn:E; [vm_compute; lia|].
  rewrite length_app.
  pose proof (trim_length (replaceAll LF 32 (substring0 50 (c :: r)))) as Ht.
  unfold replaceAll, substring0 in *. rewrite length_map in Ht.
  pose proof (firstn_le_length 50 (c :: r)) as Hf.
  pose proof (length_firstn 50 (c :: r)) as Hl.
  destruct (Nat.ltb 50 (List.length (c :: r))); simpl List.length in *; lia.
Qed.

(** C3 (as amended).  For a transcript file that exists: when none of its
    lines parses, [getSession] returns no session.  When some line parses
    and reading the entries raises no TypeError, it returns a session whose
    message count is the number of entries of type [user] or [assistant];
    whose status is [pending] exactly when the last entry's type is [user];
    and whose title comes from the first message of role [user]: when that
    message has content, the first 50 units of it with newlines turned into
    blanks and the ends trimmed, followed by three dots exactly when the
    content is longer than 50 units; and the placeholder when no message
    has role [user].  When reading the entries raises a TypeError, it
    returns no session. *)
Theorem getSession_reads_transcript
  (fs : disk) (projectPath sessionId file : jstring) :
  fs (getProjectKey projectPath) (sessionId ++ js ".jsonl") = Some file ->
  (file_entries file = [] ->
   getSession Date_parse fs (Some projectPath) sessionId = None)
  /\ (file_entries file <> [] ->
      read_without_error (file_entries file) ->
      exists task,
        getSession Date_parse fs (Some projectPath) sessionId = Some task
        /\ List.length (messages task)
           = List.length (filter is_turn (file_entries file))
        /\ (task_status task = pending
            <-> is_string (js "user")
                  (get (last (file_entries file) JNull) (js "type")) = true)
        /\ (forall before m after,
               messages task = before ++ m :: after ->
               (forall b, In b before -> has_role_user b = false) ->
               has_role_user m = true -> Types.content m <> [] ->
               (50 < List.length (Types.content m) ->
                title task = title_text (Types.content m) ++ js "...")
               /\ (List.length (Types.content m) <= 50 ->
                   title task = title_text (Types.content m)))
        /\ ((forall m, In m (messages task) -> has_role_user m = false) ->
            title task = PLACEHOLDER))
  /\ (~ read_without_error (file_entries file) ->
      getSession Date_parse fs (Some projectPath) sessionId = None).
Proof.
  intros Hfile. unfold getSession. rewrite Hfile. unfold parseSessionFile.
  split; [|split].
  - intros ->. reflexivity.
  - intros Hne [Hok [Hfirst Hlast]].
    destruct (file_entries file) as [|firstEntry rest] eqn:E; [contradiction|].
    destruct (entry_messages Date_parse (firstEntry :: rest)) as [msgs|] eqn:Em;
      [|contradiction].
    simpl hd in Hfirst.
    destruct (Date_getTime Date_parse (get firstEntry (js "timestamp")));
      [|contradiction].
    destruct (Date_getTime Date_parse (get (last (firstEntry :: rest) JNull)
                                           (js "timestamp")));
      [|contradiction].
    eexists. split; [reflexivity|]. simpl messages. simpl title. simpl task_status.
    split; [exact (entry_messages_length _ _ Em)|].
    split; [apply status_pending_iff|].
    apply title_of_first_user_message.
  - intros Hbad. unfold read_without_error in Hbad.
    destruct (file_entries file) as [|firstEntry rest] eqn:E; [reflexivity|].
    simpl hd in Hbad.
    destruct (entry_messages Date_parse (firstEntry :: rest)); [|reflexivity].
    destruct (Date_getTime Date_parse (get firstEntry (js "timestamp")));
      [|reflexivity].
    destruct (Date_getTime Date_parse (get (last (firstEntry :: rest) JNull)
                                           (js "timestamp")));
      [|reflexivity].
    exfalso. apply Hbad. repeat split; discriminate.
Qed.

End Sessions.

Section SessionExamples.
Import SessionManager.

(** A disk whose every session file holds the given text. *)
Definition disk_of (content : jstring) : disk := fun _ _ => Some content.

(** A platform that reads no text as a date. *)
Definition no_date : jstring -> time := fun _ => NaN.

(** A transcript of two turns; the first has blanks before its text. *)
Definition TWO_TURNS : jstring :=
  jsq "{'type':'user','message':{'role':'user','content':'  hi'}}"
  ++ [LF] ++ js "not json" ++ [LF]
  ++ jsq "{'type':'assistant','message':{'role':'assistant','content':'hello'}}"
  ++ [LF].

(** A transcript of one turn whose timestamp is an object that hides
    [toString]. *)
Definition HIDDEN_TIME : jstring :=
  jsq "{'type':'user','message':{'role':'user','content':'hi'},'timestamp':{'toString':1}}".

(** C3 on the transcript [TWO_TURNS]. *)
Lemma getSession_reads_transcript_witness :
  exists task,
    getSession no_date (disk_of TWO_TURNS) (Some (js "/p")) (js "s") = Some task
    /\ List.length (messages task) = 2
    /\ task_status task <> pending
    /\ title task = js "hi".
Proof.
  destruct (getSession_reads_transcript no_date (disk_of TWO_TURNS)
              (js "/p") (js "s") TWO_TURNS eq_refl) as [_ [H _]].
  destruct H as [task [Hs [Hlen [Hst [Htitle _]]]]].
  - vm_compute. discriminate.
  - repeat split; vm_compute; discriminate.
  - exists task. split; [exact Hs|].
    split; [rewrite Hlen; vm_compute; reflexivity|].
    split.
    + intros Hp. apply Hst in Hp. vm_compute in Hp. discriminate.
    + vm_compute in Hs. injection Hs as <-.
      refine (proj2 (Htitle [] _ _ eq_refl _ _ _) _).
      * intros b [].
      * reflexivity.
      * discriminate.
      * vm_compute. lia.
Defined.

(** C3 as stated fails.  The title of the session read from [TWO_TURNS] is
    [hi], not the first 50 units of the first user message, which are
    [  hi].  A file whose one line, [null], parses yields no session, and so
    does a file whose one entry has a timestamp that cannot be read:
    whatever the platform reads as a date. *)
Lemma getSession_counterexample :
  (forall parse : jstring -> time,
      exists task,
        getSession parse (disk_of TWO_TURNS) (Some (js "/p")) (js "s") = Some task
        /\ option_map Types.content (hd_error (messages task)) = Some (js "  hi")
        /\ title task = js "hi"
        /\ title task <> firstn 50 (js "  hi"))
  /\ (file_entries (js "null") = [JNull]
      /\ forall parse : jstring -> time,
          getSession parse (disk_of (js "null")) (Some (js "/p")) (js "s") = None)
  /\ (List.length (file_entries HIDDEN_TIME) = 1
      /\ forall parse : jstring -> time,
          getSession parse (disk_of HIDDEN_TIME) (Some (js "/p")) (js "s") = None).
Proof.
  split; [|split].
  - intros parse. eexists. split; [vm_compute; reflexivity|].
    repeat split; try (vm_compute; reflexivity). vm_compute. discriminate.
  - split; [vm_compute; reflexivity|]. intros parse. vm_compute. reflexivity.
  - split; [vm_compute; reflexivity|]. intros parse. vm_compute. reflexivity.
Qed.

End SessionExamples.

(** ** The subprocess transport: the branches of [processStreamingLine] *)

Section ParsedLines.
Import StreamingClient.

(** A line that parses is handed to the body of the [try] block. *)
Lemma parsed_line (e : effects) (line : jstring) (data : json) :
  JSON_parse line = Some data ->
  run_line e line = fst (try_catch (process_data line data) (process_plain line) e).
Proof.
  intros Hparse. unfold run_line, processStreamingLine, try_catch, bind, lift.
  rewrite Hparse. reflexivity.
Qed.

(** Reading [data.type] of an object raises nothing. *)
Lemma getprop_type (data : json) (lit : jstring) :
  is_string lit (get data (js "type")) = true ->
  getprop (Some data) (js "type") = Some (get data (js "type")).
Proof. destruct data; try reflexivity. discriminate. Qed.

(** A complete line, read with an empty buffer, whose trimmed text is not
    blank: the request after the chunk. *)
Lemma complete_line (st : stream) (data : Buffer.bytes) (l : jstring) :
  Buffer.toString data = l ++ [LF] -> ~ In LF l -> messageBuffer st = [] ->
  trim l <> [] ->
  step st (Stdout data)
  = mkStream (run_line (eff st) (trim l)) [] true (settled st) (timer st).
Proof.
  intros Hdata Hl Hb Hne. rewrite step_stdout, Hdata, (receive_line st l Hl Hb).
  destruct (trim l); [contradiction|reflexivity].
Qed.

Lemma parsed_not_blank (l : jstring) (parsed : json) :
  JSON_parse (trim l) = Some parsed -> trim l <> [].
Proof. intros H E. rewrite E, JSON_parse_empty in H. discriminate. Qed.

(** The line of a session that starts. *)
Lemma init_line (e : effects) (line : jstring) (data : json) :
  JSON_parse line = Some data ->
  is_string (js "system") (get data (js "type")) = true ->
  is_string (js "init") (get data (js "subtype")) = true ->
  ToString (get data (js "session_id")) <> None ->
  run_line e line
  = mkEffects (calls e ++ [message progress (js "Initializing Claude session...")])
              (fullResponse e).
Proof.
  intros Hparse Htype Hsub Hid. rewrite (parsed_line e line data Hparse).
  unfold try_catch, process_data, bind, lift.
  rewrite (getprop_type data _ Htype). unfold ret. rewrite Htype, Hsub. simpl andb.
  destruct (ToString (get data (js "session_id"))); [|contradiction].
  reflexivity.
Qed.

(** What an [error] line reports: its [message], else the [message] of its
    [error], else [Unknown error]. *)
Lemma error_line (e : effects) (line : jstring) (data : json) :
  JSON_parse line = Some data ->
  is_string (js "error") (get data (js "type")) = true ->
  exists reported,
    run_line e line = mkEffects (calls e ++ [OnError reported]) (fullResponse e)
    /\ or_else (get data (js "message"))
         (or_else (getprop_opt (get data (js "error")) (js "message"))
                  (Some (JString (js "Unknown error")))) = Some reported.
Proof.
  intros Hparse Htype. rewrite (parsed_line e line data Hparse).
  unfold try_catch, process_data, bind, lift.
  rewrite (getprop_type data _ Htype). unfold ret.
  rewrite (is_string_inj (js "error") (js "system") _ Htype) by discriminate.
  rewrite (is_string_inj (js "error") (js "assistant") _ Htype) by discriminate.
  rewrite (is_string_inj (js "error") (js "result") _ Htype) by discriminate.
  rewrite Htype. simpl andb.
  destruct (or_else (get data (js "message")) _) as [r|] eqn:E.
  - exists r. split; reflexivity.
  - exfalso. unfold or_else in E.
    destruct (truthy (get data (js "message"))) eqn:T1.
    + rewrite E in T1. discriminate.
    + destruct (truthy (getprop_opt (get data (js "error")) (js "message"))) eqn:T2.
      * rewrite E in T2. discriminate.
      * discriminate.
Qed.

End ParsedLines.

(** ** The subprocess transport: the reply of the assistant *)

Section AssistantLines.
Import StreamingClient.

(** A content block that carries text. *)
Definition text_block (block : json) (s : jstring) : Prop :=
  is_string (js "text") (get block (js "type")) = true
  /\ get block (js "text") = Some (JString s).

(** The text of an assistant message: its content when that is a string, the
    texts of its blocks one after the other when it is a list of text
    blocks. *)
Inductive reply_text (msg : json) : jstring -> Prop :=
| reply_string (s : jstring) :
    get msg (js "content") = Some (JString s) -> reply_text msg s
| reply_blocks (blocks : list json) (texts : list jstring) :
    get msg (js "content") = Some (JArray blocks) ->
    Forall2 text_block blocks texts ->
    reply_text msg (List.concat texts).

Lemma text_blocks (blocks : list json) (texts : list jstring) (acc : jstring) (e : effects) :
  Forall2 text_block blocks texts ->
  process_blocks blocks acc e = (e, Returned (acc ++ List.concat texts)).
Proof.
  intros F. revert acc. induction F as [|b s blocks texts [Ht Hs] F IH]; intros acc; simpl.
  - rewrite app_nil_r. reflexivity.
  - unfold bind at 1. unfold process_block, bind, lift.
    rewrite (getprop_type b _ Ht). unfold ret. rewrite Ht, Hs. simpl.
    rewrite IH, app_assoc. reflexivity.
Qed.

(** What the collector keeps of a reply: its text, unless the heuristic
    takes it for thinking. *)
Definition kept (content : jstring) : jstring :=
  if isThinkingContent content then [] else content.

Definition reply_kind (content : jstring) : kind :=
  if isThinkingContent content then thinking else text.

Lemma assistant_reply (msg : json) (content : jstring) (e : effects) :
  reply_text msg content ->
  process_assistant msg e
  = match content with
    | [] => (e, Returned tt)
    | _ :: _ =>
        (mkEffects (calls e ++ [message (reply_kind content) content])
                   (fullResponse e ++ kept content), Returned tt)
    end.
Proof.
  intros H. unfold process_assistant.
  assert (Hc : (match get msg (js "content") with
                | Some (JArray blocks) => process_blocks blocks []
                | Some (JString s) => ret s
                | _ => ret []
                end) e = (e, Returned content)).
  { destruct H as [s Hs|blocks texts Hb F].
    - rewrite Hs. reflexivity.
    - rewrite Hb. apply (text_blocks blocks texts [] e F). }
  unfold bind at 1. rewrite Hc.
  destruct content as [|c r]; [reflexivity|].
  unfold reply_kind, kept, bind, emit, contentCollector.
  destruct (isThinkingContent (c :: r)); simpl; rewrite ?app_nil_r; reflexivity.
Qed.

Lemma reply_text_object (msg : json) (content : jstring) :
  reply_text msg content -> truthy (Some msg) = true.
Proof.
  intros H. assert (Hg : get msg (js "content") <> None)
    by (destruct H as [s Hs|blocks texts Hb _]; congruence).
  destruct msg; try reflexivity; simpl in Hg; contradiction.
Qed.

Lemma assistant_line (e : effects) (line : jstring) (data msg : json) (content : jstring) :
  JSON_parse line = Some data ->
  is_string (js "assistant") (get data (js "type")) = true ->
  get data (js "message") = Some msg ->
  reply_text msg content ->
  run_line e line
  = match content with
    | [] => e
    | _ :: _ => mkEffects (calls e ++ [message (reply_kind content) content])
                          (fullResponse e ++ kept content)
    end.
Proof.
  intros Hparse Htype Hmsg Hreply. rewrite (parsed_line e line data Hparse).
  unfold try_catch, process_data, bind, lift.
  rewrite (getprop_type data _ Htype). unfold ret.
  rewrite (is_string_inj (js "assistant") (js "system") _ Htype) by discriminate.
  rewrite Htype, Hmsg, (reply_text_object msg content Hreply). cbn [andb].
  rewrite (assistant_reply msg content e Hreply).
  destruct content; reflexivity.
Qed.

End AssistantLines.

(** ** The subprocess transport: a file written by the assistant *)

Section WrittenFiles.
Import StreamingClient.

(** A [tool_use] block of the tool [Write], with the path and the text of
    the file. *)
Definition write_block (block : json) (path body : jstring) : Prop :=
  is_string (js "tool_use") (get block (js "type")) = true
  /\ is_string (js "Write") (get block (js "name")) = true
  /\ exists input,
       get block (js "input") = Some input
       /\ get input (js "file_path") = Some (JString path)
       /\ get input (js "content") = Some (JString body).

Lemma or_else_string (s : jstring) :
  or_else (Some (JString s)) (Some (JString [])) = Some (JString s).
Proof. destruct s; reflexivity. Qed.

Lemma write_block_effects (block : json) (path body acc : jstring) (e : effects) :
  write_block block path body ->
  process_block block acc e
  = (mkEffects
       (calls e ++ [message tool_use
                      (js "Creating file: " ++ path ++ [LF] ++ js "```"
                       ++ detectedLang (fileExt path) ++ [LF] ++ body ++ [LF] ++ js "```")])
       (fullResponse e ++ body), Returned acc).
Proof.
  intros [Ht [Hn [input [Hi [Hp Hb]]]]].
  unfold process_block, bind, lift.
  rewrite (getprop_type block _ Ht). unfold ret.
  rewrite (is_string_inj (js "tool_use") (js "text") _ Ht) by discriminate.
  rewrite Ht, Hn, Hi. cbn [andb].
  assert (Hobj : forall name, getprop_opt (Some input) name = get input name).
  { intros name. destruct input; reflexivity. }
  rewrite !Hobj, Hp, Hb, !or_else_string.
  reflexivity.
Qed.

Lemma write_line (e : effects) (line : jstring) (data msg block : json) (path body : jstring) :
  JSON_parse line = Some data ->
  is_string (js "assistant") (get data (js "type")) = true ->
  get data (js "message") = Some msg ->
  get msg (js "content") = Some (JArray [block]) ->
  write_block block path body ->
  run_line e line
  = mkEffects
      (calls e ++ [message tool_use
                     (js "Creating file: " ++ path ++ [LF] ++ js "```"
                      ++ detectedLang (fileExt path) ++ [LF] ++ body ++ [LF] ++ js "```")])
      (fullResponse e ++ body).
Proof.
  intros Hparse Htype Hmsg Hc Hw. rewrite (parsed_line e line data Hparse).
  unfold try_catch, process_data, bind, lift.
  rewrite (getprop_type data _ Htype). unfold ret.
  rewrite (is_string_inj (js "assistant") (js "system") _ Htype) by discriminate.
  assert (Hobj : truthy (Some msg) = true).
  { destruct msg; try reflexivity; discriminate. }
  rewrite Htype, Hmsg, Hobj. cbn [andb].
  unfold process_assistant. rewrite Hc. simpl process_blocks.
  unfold bind. rewrite (write_block_effects block path body [] e Hw).
  reflexivity.
Qed.

End WrittenFiles.

(** ** The subprocess transport: what single lines do to a request *)

Section LineTheorems.
Import StreamingClient.

(** The line [system]/[init] of a session that starts is delivered as one
    [progress] event, [Initializing Claude session...]; nothing is added to
    the collected response. *)
Theorem init_line_is_progress
  (st : stream) (data : Buffer.bytes) (l : jstring) (parsed : json) :
  Buffer.toString data = l ++ [LF] -> ~ In LF l -> messageBuffer st = [] ->
  JSON_parse (trim l) = Some parsed ->
  is_string (js "system") (get parsed (js "type")) = true ->
  is_string (js "init") (get parsed (js "subtype")) = true ->
  ToString (get parsed (js "session_id")) <> None ->
  sink (step st (Stdout data))
  = sink st ++ [message progress (js "Initializing Claude session...")]
  /\ fullResponse (eff (step st (Stdout data))) = fullResponse (eff st).
Proof.
  intros Hdata Hl Hb Hparse Htype Hsub Hid.
  rewrite (complete_line st data l Hdata Hl Hb (parsed_not_blank l parsed Hparse)).
  unfold sink. simpl eff.
  rewrite (init_line (eff st) (trim l) parsed Hparse Htype Hsub Hid).
  split; reflexivity.
Qed.

Definition INIT_LINE : jstring :=
  jsq "{'type':'system','subtype':'init','session_id':'s-1','tools':[]}".

Lemma init_line_is_progress_witness :
  sink (step initial (line_out INIT_LINE))
  = sink initial ++ [message progress (js "Initializing Claude session...")]
  /\ fullResponse (eff (step initial (line_out INIT_LINE))) = fullResponse (eff initial).
Proof.
  eapply (init_line_is_progress initial (Buffer.of_ascii (INIT_LINE ++ [LF])) INIT_LINE).
  - reflexivity.
  - apply no_unit_dec. reflexivity.
  - reflexivity.
  - vm_compute. reflexivity.
  - reflexivity.
  - reflexivity.
  - discriminate.
Defined.

(** A line of type [error] is reported by one call of [onError]: with the
    [message] of the line when it has one, else with the [message] of its
    [error], else with [Unknown error].  The line does not end the request:
    the promise stays as it was, and nothing is added to the collected
    response. *)
Theorem error_line_is_reported
  (st : stream) (data : Buffer.bytes) (l : jstring) (parsed : json) :
  Buffer.toString data = l ++ [LF] -> ~ In LF l -> messageBuffer st = [] ->
  JSON_parse (trim l) = Some parsed ->
  is_string (js "error") (get parsed (js "type")) = true ->
  exists reported,
    sink (step st (Stdout data)) = sink st ++ [OnError reported]
    /\ (truthy (get parsed (js "message")) = true ->
        get parsed (js "message") = Some reported)
    /\ (truthy (get parsed (js "message")) = false ->
        truthy (getprop_opt (get parsed (js "error")) (js "message")) = true ->
        getprop_opt (get parsed (js "error")) (js "message") = Some reported)
    /\ (truthy (get parsed (js "message")) = false ->
        truthy (getprop_opt (get parsed (js "error")) (js "message")) = false ->
        reported = JString (js "Unknown error"))
    /\ settled (step st (Stdout data)) = settled st
    /\ fullResponse (eff (step st (Stdout data))) = fullResponse (eff st).
Proof.
  intros Hdata Hl Hb Hparse Htype.
  rewrite (complete_line st data l Hdata Hl Hb (parsed_not_blank l parsed Hparse)).
  destruct (error_line (eff st) (trim l) parsed Hparse Htype) as [reported [Hrun Hrep]].
  exists reported. unfold sink. simpl eff. simpl settled. rewrite Hrun.
  unfold or_else in Hrep.
  repeat split.
  - intros T. rewrite T in Hrep. exact Hrep.
  - intros T1 T2. rewrite T1, T2 in Hrep. exact Hrep.
  - intros T1 T2. rewrite T1, T2 in Hrep. injection Hrep as <-. reflexivity.
Qed.

Definition ERROR_LINE : jstring :=
  jsq "{'type':'error','error':{'message':'overloaded'}}".

Lemma error_line_is_reported_witness :
  exists reported,
    sink (step initial (line_out ERROR_LINE)) = sink initial ++ [OnError reported]
    /\ reported = JString (js "overloaded")
    /\ settled (step initial (line_out ERROR_LINE)) = Pending.
Proof.
  destruct (error_line_is_reported initial (Buffer.of_ascii (ERROR_LINE ++ [LF])) ERROR_LINE
              (JObject [(js "type", JString (js "error"));
                        (js "error", JObject [(js "message", JString (js "overloaded"))])]))
    as [reported [Hs [_ [H2 [_ [Hp _]]]]]];
    try reflexivity.
  - apply no_unit_dec. reflexivity.
  - exists reported. split; [exact Hs|]. split; [|exact Hp].
    specialize (H2 eq_refl eq_refl). injection H2 as <-. reflexivity.
Defined.

(** A message that is a number too small for a double is zero, which is
    not truthy: the error reported is [Unknown error]. *)
Lemma error_line_underflow :
  sendMessageStreaming [line_out (jsq "{'type':'error','message':1e-400}")]
  = [OnError (JString (js "Unknown error"))].
Proof. vm_compute. reflexivity. Qed.

(** The text of an assistant line, a string or a list of text blocks, is
    delivered as one event carrying the whole text: a [thinking] event when
    [isThinkingContent] holds of the text, a [text] event otherwise.  Only in
    the second case is the text added to the collected response.  A line
    whose text is empty delivers nothing. *)
Theorem assistant_text_is_one_event
  (st : stream) (data : Buffer.bytes) (l : jstring) (parsed msg : json) (content : jstring) :
  Buffer.toString data = l ++ [LF] -> ~ In LF l -> messageBuffer st = [] ->
  JSON_parse (trim l) = Some parsed ->
  is_string (js "assistant") (get parsed (js "type")) = true ->
  get parsed (js "message") = Some msg ->
  reply_text msg content ->
  (content = [] ->
   sink (step st (Stdout data)) = sink st
   /\ fullResponse (eff (step st (Stdout data))) = fullResponse (eff st))
  /\ (content <> [] ->
      sink (step st (Stdout data))
      = sink st ++ [message (if isThinkingContent content then thinking else text) content]
      /\ fullResponse (eff (step st (Stdout data)))
         = fullResponse (eff st) ++ (if isThinkingContent content then [] else content)).
Proof.
  intros Hdata Hl Hb Hparse Htype Hmsg Hreply.
  rewrite (complete_line st data l Hdata Hl Hb (parsed_not_blank l parsed Hparse)).
  unfold sink. simpl eff.
  rewrite (assistant_line (eff st) (trim l) parsed msg content Hparse Htype Hmsg Hreply).
  split.
  - intros ->. split; reflexivity.
  - intros Hne. destruct content as [|c r]; [contradiction|]. split; reflexivity.
Qed.

Definition TWO_BLOCKS_LINE : jstring :=
  jsq ("{'type':'assistant','message':{'content':"
       ++ "[{'type':'text','text':'The answer '},{'type':'text','text':'is 42.'}]}}").

Lemma assistant_text_is_one_event_witness :
  sink (step initial (line_out TWO_BLOCKS_LINE))
  = [message text (js "The answer is 42.")]
  /\ fullResponse (eff (step initial (line_out TWO_BLOCKS_LINE))) = js "The answer is 42.".
Proof.
  pose (b1 := JObject [(js "type", JString (js "text")); (js "text", JString (js "The answer "))]).
  pose (b2 := JObject [(js "type", JString (js "text")); (js "text", JString (js "is 42."))]).
  pose (msg := JObject [(js "content", JArray [b1; b2])]).
  refine (proj2 (assistant_text_is_one_event initial
                   (Buffer.of_ascii (TWO_BLOCKS_LINE ++ [LF])) TWO_BLOCKS_LINE
                   (JObject [(js "type", JString (js "assistant")); (js "message", msg)])
                   msg (List.concat [js "The answer "; js "is 42."])
                   _ _ _ _ _ _ _) _); try reflexivity.
  - apply no_unit_dec. reflexivity.
  - apply (reply_blocks msg [b1; b2] [js "The answer "; js "is 42."]); [reflexivity|].
    repeat constructor.
  - discriminate.
Defined.

(** A reply whose whole text the heuristic takes for thinking is delivered
    as a [thinking] event and then lost to the response: when the process
    exits with code 0 the request ends with the error
    [No response received from Claude CLI]. *)
Theorem thinking_reply_is_no_response
  (data : Buffer.bytes) (l : jstring) (parsed msg : json) (content : jstring) :
  Buffer.toString data = l ++ [LF] -> ~ In LF l ->
  JSON_parse (trim l) = Some parsed ->
  is_string (js "assistant") (get parsed (js "type")) = true ->
  get parsed (js "message") = Some msg ->
  reply_text msg content ->
  content <> [] -> isThinkingContent content = true ->
  sendMessageStreaming [Stdout data; Close (Some 0%Z)]
  = [message thinking content;
     OnError (JString NO_RESPONSE); OnError (JString NO_RESPONSE)].
Proof.
  intros Hdata Hl Hparse Htype Hmsg Hreply Hne Hthink.
  unfold sendMessageStreaming, run. simpl fold_left.
  rewrite sink_step_close.
  rewrite (complete_line initial data l Hdata Hl eq_refl (parsed_not_blank l parsed Hparse)).
  unfold sink, close_calls, rejection. simpl.
  rewrite (assistant_line (mkEffects [] []) (trim l) parsed msg content
             Hparse Htype Hmsg Hreply).
  destruct content as [|c r]; [contradiction|].
  unfold reply_kind, kept. rewrite Hthink. reflexivity.
Qed.

Definition LET_ME_REPLY : jstring :=
  jsq "{'type':'assistant','message':{'content':'Let me explain: 2 + 2 = 4'}}".

Lemma thinking_reply_is_no_response_witness :
  sendMessageStreaming [line_out LET_ME_REPLY; Close (Some 0%Z)]
  = [message thinking (js "Let me explain: 2 + 2 = 4");
     OnError (JString NO_RESPONSE); OnError (JString NO_RESPONSE)].
Proof.
  pose (msg := JObject [(js "content", JString (js "Let me explain: 2 + 2 = 4"))]).
  refine (thinking_reply_is_no_response (Buffer.of_ascii (LET_ME_REPLY ++ [LF])) LET_ME_REPLY
            (JObject [(js "type", JString (js "assistant")); (js "message", msg)])
            msg (js "Let me explain: 2 + 2 = 4") _ _ _ _ _ _ _ _); try reflexivity.
  - apply no_unit_dec. reflexivity.
  - apply reply_string. reflexivity.
  - discriminate.
Defined.

(** An assistant line whose one block is a use of the tool [Write] is
    delivered as one [tool_use] event that quotes the file, fenced and tagged
    with the language of its extension, and the text of the file is added to
    the collected response. *)
Theorem written_file_is_collected
  (st : stream) (data : Buffer.bytes) (l : jstring) (parsed msg block : json)
  (path body : jstring) :
  Buffer.toString data = l ++ [LF] -> ~ In LF l -> messageBuffer st = [] ->
  JSON_parse (trim l) = Some parsed ->
  is_string (js "assistant") (get parsed (js "type")) = true ->
  get parsed (js "message") = Some msg ->
  get msg (js "content") = Some (JArray [block]) ->
  write_block block path body ->
  sink (step st (Stdout data))
  = sink st ++ [message tool_use
                  (js "Creating file: " ++ path ++ [LF] ++ js "```"
                   ++ detectedLang (fileExt path) ++ [LF] ++ body ++ [LF] ++ js "```")]
  /\ fullResponse (eff (step st (Stdout data))) = fullResponse (eff st) ++ body.
Proof.
  intros Hdata Hl Hb Hparse Htype Hmsg Hc Hw.
  rewrite (complete_line st data l Hdata Hl Hb (parsed_not_blank l parsed Hparse)).
  unfold sink. simpl eff.
  rewrite (write_line (eff st) (trim l) parsed msg block path body Hparse Htype Hmsg Hc Hw).
  split; reflexivity.
Qed.

Definition WRITE_LINE : jstring :=
  jsq ("{'type':'assistant','message':{'content':[{'type':'tool_use','name':'Write',"
       ++ "'input':{'file_path':'src/Main.TS','content':'let x = 1'}}]}}").

Lemma written_file_is_collected_witness :
  sink (step initial (line_out WRITE_LINE))
  = [message tool_use
       (js "Creating file: src/Main.TS" ++ [LF] ++ js "```typescript" ++ [LF]
        ++ js "let x = 1" ++ [LF] ++ js "```")]
  /\ fullResponse (eff (step initial (line_out WRITE_LINE))) = js "let x = 1".
Proof.
  pose (input := JObject [(js "file_path", JString (js "src/Main.TS"));
                          (js "content", JString (js "let x = 1"))]).
  pose (block := JObject [(js "type", JString (js "tool_use"));
                          (js "name", JString (js "Write")); (js "input", input)]).
  pose (msg := JObject [(js "content", JArray [block])]).
  refine (written_file_is_collected initial (Buffer.of_ascii (WRITE_LINE ++ [LF])) WRITE_LINE
            (JObject [(js "type", JString (js "assistant")); (js "message", msg)])
            msg block (js "src/Main.TS") (js "let x = 1") _ _ _ _ _ _ _ _); try reflexivity.
  - apply no_unit_dec. reflexivity.
  - repeat split. exists input. repeat split.
Defined.

End LineTheorems.

(** ** The subprocess transport: the text after the last newline *)

Section Tails.
Import StreamingClient.

(** The text after a separator that holds no separator is the last
    fragment. *)
Lemma split_snoc_sep (sep : N) (b r : jstring) :
  no_unit sep r -> split sep (b ++ sep :: r) = split sep b ++ [r].
Proof.
  intros Hr. rewrite split_app. simpl split. rewrite N.eqb_refl.
  rewrite (split_no_unit Hr), app_nil_r.
  pose proof (split_not_nil sep b) as Hne.
  rewrite (app_removelast_last [] Hne) at 3.
  rewrite <- app_assoc. reflexivity.
Qed.

Lemma receive_tail (st : stream) (t rest : jstring) :
  ~ In LF rest ->
  receive st (t ++ LF :: rest)
  = mkStream (eff (receive st (t ++ [LF]))) rest true (settled st) (timer st).
Proof.
  intros Hrest. unfold receive. simpl eff.
  rewrite !app_assoc.
  rewrite (split_snoc_sep LF (messageBuffer st ++ t) rest Hrest).
  assert (Hnil : no_unit LF []) by (intros []).
  rewrite (split_snoc_sep LF (messageBuffer st ++ t) [] Hnil).
  rewrite !removelast_last, last_last. reflexivity.
Qed.

(** What the process writes after its last newline reaches the line buffer
    and nothing else: the handler of ['close'] does not read the buffer, so
    the sink of a request receives the same calls whether that text was
    written or not. *)
Theorem unterminated_tail_is_dropped
  (st : stream) (d1 d2 : Buffer.bytes) (t rest : jstring) (code : option Z) :
  Buffer.toString d1 = t ++ LF :: rest -> Buffer.toString d2 = t ++ [LF] ->
  ~ In LF rest ->
  sink (run st [Stdout d1; Close code]) = sink (run st [Stdout d2; Close code])
  /\ messageBuffer (run st [Stdout d1; Close code]) = rest.
Proof.
  intros H1 H2 Hrest. unfold run. simpl fold_left.
  rewrite !sink_step_close, !step_stdout, H1, H2, (receive_tail st t rest Hrest).
  split.
  - reflexivity.
  - unfold step. simpl. unfold on_close, stop_timer, settle, call, with_eff.
    destruct code as [[|p|p]|]; simpl;
      repeat match goal with
             | |- context [if ?b then _ else _] => destruct b; simpl
             | |- context [match settled ?s with _ => _ end] => destruct (settled s); simpl
             end; reflexivity.
Qed.

Lemma unterminated_tail_is_dropped_witness :
  sink (run initial [Stdout (Buffer.of_ascii (js "hello" ++ LF :: js "world"));
                     Close (Some 0%Z)])
  = sink (run initial [Stdout (Buffer.of_ascii (js "hello" ++ [LF])); Close (Some 0%Z)])
  /\ messageBuffer (run initial [Stdout (Buffer.of_ascii (js "hello" ++ LF :: js "world"));
                                 Close (Some 0%Z)]) = js "world".
Proof.
  apply (unterminated_tail_is_dropped initial _ _ (js "hello") (js "world"));
    try reflexivity.
  apply no_unit_dec. reflexivity.
Defined.

End Tails.

(** ** Lower case: what the sources read of it *)

Section LowerCase.
Import StreamingClient.

Definition is_ascii (c : N) : bool := N.ltb c 128.

(** A text with one unit, 128, in place of each run of units outside
    ASCII: its ASCII units, and which of them are neighbours. *)
Definition mark (r : jstring) : jstring :=
  match r with
  | c :: _ => if N.eqb c 128 then r else 128%N :: r
  | [] => [128%N]
  end.

Fixpoint ascii_runs (s : jstring) : jstring :=
  match s with
  | [] => []
  | c :: s' => if is_ascii c then c :: ascii_runs s' else mark (ascii_runs s')
  end.

Lemma mark_head (r : jstring) : exists r', mark r = 128%N :: r'.
Proof.
  destruct r as [|c r]; simpl; [eexists; reflexivity|].
  destruct (N.eqb c 128) eqn:E; [|eexists; reflexivity].
  apply N.eqb_eq in E. subst c. eexists. reflexivity.
Qed.

Lemma ascii_differs (x c : N) : is_ascii x = true -> is_ascii c = false -> N.eqb x c = false.
Proof.
  unfold is_ascii. intros Hx Hc. apply N.ltb_lt in Hx. apply N.ltb_ge in Hc.
  apply N.eqb_neq. lia.
Qed.

Lemma ascii_not_mark (x : N) : is_ascii x = true -> N.eqb x 128 = false.
Proof. intros Hx. apply (ascii_differs x 128 Hx). reflexivity. Qed.

Lemma startsWith_ascii_runs (p s : jstring) :
  forallb is_ascii p = true -> startsWith p (ascii_runs s) = startsWith p s.
Proof.
  revert s. induction p as [|x p IH]; intros s Hp; [reflexivity|].
  simpl in Hp. apply andb_true_iff in Hp. destruct Hp as [Hx Hp].
  destruct s as [|c s]; [reflexivity|]. simpl ascii_runs.
  destruct (is_ascii c) eqn:Hc.
  - simpl. rewrite (IH s Hp). reflexivity.
  - destruct (mark_head (ascii_runs s)) as [r' ->]. simpl.
    rewrite (ascii_not_mark x Hx), (ascii_differs x c Hx Hc). reflexivity.
Qed.

Lemma includes_mark (p r : jstring) :
  p <> [] -> forallb is_ascii p = true -> includes p (mark r) = includes p r.
Proof.
  intros Hne Hp. destruct p as [|x p]; [contradiction|].
  simpl in Hp. apply andb_true_iff in Hp. destruct Hp as [Hx _].
  destruct r as [|c r].
  - simpl. rewrite (ascii_not_mark x Hx). reflexivity.
  - simpl mark. destruct (N.eqb c 128); [reflexivity|].
    change (includes (x :: p) (128%N :: c :: r))
      with (startsWith (x :: p) (128%N :: c :: r) || includes (x :: p) (c :: r)).
    simpl startsWith at 1. rewrite (ascii_not_mark x Hx). reflexivity.
Qed.

(** A search for an ASCII phrase reads the ASCII units of a text and which
    of them are neighbours, nothing else. *)
Lemma includes_ascii_runs (p s : jstring) :
  p <> [] -> forallb is_ascii p = true -> includes p (ascii_runs s) = includes p s.
Proof.
  intros Hne Hp. induction s as [|c s IH]; [reflexivity|].
  change (includes p (c :: s)) with (startsWith p (c :: s) || includes p s).
  rewrite <- IH, <- (startsWith_ascii_runs p (c :: s) Hp). simpl ascii_runs.
  destruct (is_ascii c).
  - reflexivity.
  - rewrite (includes_mark p _ Hne Hp).
    destruct p as [|x p]; [contradiction|].
    simpl in Hp. apply andb_true_iff in Hp. destruct Hp as [Hx _].
    destruct (mark_head (ascii_runs s)) as [r' E]. rewrite E.
    simpl startsWith. rewrite (ascii_not_mark x Hx). reflexivity.
Qed.

(** What [isThinkingContent] answers when [lowered] is what the engine
    returns for [content.toLowerCase()]. *)
Definition verdict (lowered content : jstring) : bool :=
  existsb (fun indicator => includes (toLowerCase indicator) lowered) thinkingIndicators
  || startsWith THINKING_FACE content
  || includes (js "...") content.

Lemma existsb_agree {A} (f g : A -> bool) (l : list A) :
  Forall (fun a => f a = g a) l -> existsb f l = existsb g l.
Proof.
  induction 1 as [|a l Ha _ IH]; [reflexivity|]. simpl. rewrite Ha, IH. reflexivity.
Qed.

(** The heuristic depends on the lower-case form of the content through its
    ASCII units only: any form with the ASCII units of [toLowerCase], the
    same of them neighbours, gives the answer [isThinkingContent] gives. *)
Theorem verdict_reads_ascii (content lowered : jstring) :
  ascii_runs lowered = ascii_runs (toLowerCase content) ->
  verdict lowered content = isThinkingContent content.
Proof.
  intros H. unfold verdict, isThinkingContent. f_equal. f_equal.
  apply existsb_agree.
  assert (Hind : Forall (fun indicator =>
                           toLowerCase indicator <> []
                           /\ forallb is_ascii (toLowerCase indicator) = true)
                        thinkingIndicators).
  { repeat constructor; discriminate. }
  eapply Forall_impl; [|exact Hind].
  intros indicator [Hne Hp]. cbv beta.
  rewrite <- (includes_ascii_runs _ lowered Hne Hp), H.
  apply includes_ascii_runs; assumption.
Qed.

(** The Kelvin sign and the dotted capital I in a phrase: the lines
    [THIN(U+212A)ING it over] and [FIRST, (U+0130) do] are taken for
    thinking. *)
Lemma isThinkingContent_kelvin :
  isThinkingContent (js "THIN" ++ 8490%N :: js "ING it over") = true
  /\ isThinkingContent (js "FIRST, " ++ 304%N :: js " do") = true
  /\ isThinkingContent (js "THIN" ++ 8491%N :: js "ING it over") = false.
Proof. repeat split; vm_compute; reflexivity. Qed.

End LowerCase.

(** ** Session identifiers *)

Section Identifiers.
Import SessionManager.

(** A lower-case hexadecimal digit. *)
Definition is_hex (c : N) : bool :=
  is_digit c || (N.leb 97 c && N.leb c 102).

Lemma below_16 (n : N) :
  (n < 16)%N ->
  In n [0; 1; 2; 3; 4; 5; 6; 7; 8; 9; 10; 11; 12; 13; 14; 15]%N.
Proof.
  intros H. destruct n as [|p]; [left; reflexivity|].
  do 4 (try destruct p as [p|p|]); try lia;
    simpl; repeat first [left; reflexivity | right].
Qed.

Lemma toString16_digit (n : N) :
  (n < 16)%N -> N_toString16 n = [hex_digit n] /\ is_hex (hex_digit n) = true.
Proof.
  intros H. apply below_16 in H. simpl in H.
  repeat (destruct H as [<-|H]; [split; reflexivity|]). contradiction.
Qed.

Lemma toString16_variant (n : N) :
  (n < 16)%N ->
  exists v, N_toString16 (N.lor (N.land n 3) 8) = [v] /\ In v [56; 57; 97; 98]%N.
Proof.
  intros H. apply below_16 in H. simpl in H.
  repeat (destruct H as [<-|H];
          [eexists; split; [reflexivity|simpl; repeat first [left; reflexivity | right]]|]).
  contradiction.
Qed.

(** The shape of a version-4 UUID: groups of 8, 4, 4, 4 and 12 lower-case
    hexadecimal digits between dashes, the third group starting with [4]
    and the fourth with [8], [9], [a] or [b]. *)
Definition uuid_v4 (s : jstring) : Prop :=
  exists (a b c d e : jstring) (v : N),
    s = a ++ DASH :: b ++ DASH :: 52%N :: c ++ DASH :: v :: d ++ DASH :: e
    /\ List.length a = 8 /\ List.length b = 4 /\ List.length c = 3
    /\ List.length d = 3 /\ List.length e = 12
    /\ forallb is_hex (a ++ b ++ c ++ d ++ e) = true
    /\ In v [56; 57; 97; 98]%N.

(** Whatever the random numbers drawn, [generateSessionId] returns a
    well-formed version-4 UUID. *)
Theorem generateSessionId_is_uuid (random16 : nat -> N) :
  (forall i, (random16 i < 16)%N) -> uuid_v4 (generateSessionId random16).
Proof.
  intros H. unfold generateSessionId, UUID_TEMPLATE.
  cbn [js list_ascii_of_string map N_of_ascii].
  cbn -[N_toString16 N.lor N.land].
  destruct (toString16_variant (random16 15) (H 15)) as [v [Hv Hin]].
  rewrite Hv.
  repeat match goal with
         | |- context [N_toString16 (random16 ?i)] =>
             rewrite (proj1 (toString16_digit (random16 i) (H i)))
         end.
  cbn [app].
  exists [hex_digit (random16 0); hex_digit (random16 1); hex_digit (random16 2);
          hex_digit (random16 3); hex_digit (random16 4); hex_digit (random16 5);
          hex_digit (random16 6); hex_digit (random16 7)],
         [hex_digit (random16 8); hex_digit (random16 9); hex_digit (random16 10);
          hex_digit (random16 11)],
         [hex_digit (random16 12); hex_digit (random16 13); hex_digit (random16 14)],
         [hex_digit (random16 16); hex_digit (random16 17); hex_digit (random16 18)],
         [hex_digit (random16 19); hex_digit (random16 20); hex_digit (random16 21);
          hex_digit (random16 22); hex_digit (random16 23); hex_digit (random16 24);
          hex_digit (random16 25); hex_digit (random16 26); hex_digit (random16 27);
          hex_digit (random16 28); hex_digit (random16 29); hex_digit (random16 30)],
         v.
  repeat split; try exact Hin.
  cbn [app forallb].
  repeat match goal with
         | |- context [is_hex (hex_digit (random16 ?i))] =>
             rewrite (proj2 (toString16_digit (random16 i) (H i)))
         end.
  reflexivity.
Qed.

(** The identifier drawn when every random number is 10. *)
Lemma generateSessionId_is_uuid_witness :
  uuid_v4 (generateSessionId (fun _ => 10%N))
  /\ generateSessionId (fun _ => 10%N) = js "aaaaaaaa-aaaa-4aaa-aaaa-aaaaaaaaaaaa".
Proof.
  split; [|reflexivity].
  apply generateSessionId_is_uuid. intros i. reflexivity.
Defined.

End Identifiers.

(** ** Sessions: what the reader returns *)

Section SessionFacts.
Import SessionManager.

Variable Date_parse : jstring -> time.

Lemma parseSessionFile_shape (file sessionId : jstring) (task : ClaudeTask) :
  parseSessionFile Date_parse file sessionId = Some task ->
  id task = sessionId
  /\ Types.sessionId (metadata task) = sessionId
  /\ projectDir (metadata task) = None
  /\ task_status task = determineSessionStatus (file_entries file)
  /\ entry_messages Date_parse (file_entries file) = Some (messages task)
  /\ description task
     = js "Claude Code Session - "
       ++ N_toString (N.of_nat (List.length (messages task))) ++ js " messages"
  /\ Date_getTime Date_parse (get (hd JNull (file_entries file)) (js "timestamp"))
     = Some (createdAt task)
  /\ Date_getTime Date_parse (get (last (file_entries file) JNull) (js "timestamp"))
     = Some (updatedAt task).
Proof.
  unfold parseSessionFile.
  destruct (file_entries file) as [|firstEntry rest]; [discriminate|].
  destruct (entry_messages Date_parse (firstEntry :: rest)) as [msgs|]; [|discriminate].
  simpl hd.
  destruct (Date_getTime Date_parse (get firstEntry (js "timestamp")));
    [|discriminate].
  destruct (Date_getTime Date_parse (get (last (firstEntry :: rest) JNull)
                                         (js "timestamp")));
    [|discriminate].
  intros H. injection H as <-. repeat split.
Qed.

(** A session [getSession] returns is the one asked for: its file exists,
    it carries the identifier of the request, as [id] and in its metadata,
    and it is [pending] or [completed], never [running] or [error].  Without
    a workspace folder, or without the file, there is no session. *)
Theorem getSession_returns_requested
  (fs : disk) (workspaceFolder : option jstring) (sessionId : jstring) :
  (forall task,
      getSession Date_parse fs workspaceFolder sessionId = Some task ->
      sessionExists fs workspaceFolder sessionId = true
      /\ id task = sessionId
      /\ Types.sessionId (metadata task) = sessionId
      /\ (task_status task = pending \/ task_status task = completed))
  /\ (sessionExists fs workspaceFolder sessionId = false ->
      getSession Date_parse fs workspaceFolder sessionId = None).
Proof.
  unfold getSession, sessionExists. split.
  - intros task H. destruct workspaceFolder as [projectPath|]; [|discriminate].
    destruct (fs (getProjectKey projectPath) (sessionId ++ js ".jsonl")) as [file|];
      [|discriminate].
    destruct (parseSessionFile_shape file sessionId task H) as [H1 [H2 [_ [H4 _]]]].
    repeat split; try assumption.
    rewrite H4. unfold determineSessionStatus.
    destruct (is_string (js "user") _); [left; reflexivity|].
    destruct (is_string (js "assistant") _); right; reflexivity.
  - destruct workspaceFolder as [projectPath|]; [|reflexivity].
    destruct (fs (getProjectKey projectPath) (sessionId ++ js ".jsonl")); [discriminate|].
    reflexivity.
Qed.

(** The files of a project that yield a session. *)
Definition yields_session (f : jstring * jstring) : bool :=
  match parseSessionFile Date_parse (snd f) (fst f) with
  | Some _ => true
  | None => false
  end.

Lemma getProjectSessions_ids (files : list (jstring * jstring)) :
  map id (getProjectSessions Date_parse files) = map fst (filter yields_session files).
Proof.
  induction files as [|[sid file] files IH]; simpl; [reflexivity|].
  unfold yields_session at 1. simpl.
  destruct (parseSessionFile Date_parse file sid) as [task|] eqn:E; [|exact IH].
  simpl. rewrite IH.
  destruct (parseSessionFile_shape file sid task E) as [-> _]. reflexivity.
Qed.

(** [getProjectSessions] keeps the order of the listing, most recently
    modified first: its sessions are those of the files that yield one, each
    under the identifier of its file; [getLatestSessionId] is the first of
    them, if any. *)
Theorem getProjectSessions_in_order (files : list (jstring * jstring)) :
  map id (getProjectSessions Date_parse files) = map fst (filter yields_session files)
  /\ getLatestSessionId Date_parse files
     = hd_error (map fst (filter yields_session files)).
Proof.
  pose proof (getProjectSessions_ids files) as H.
  split; [exact H|].
  unfold getLatestSessionId. rewrite <- H.
  destruct (getProjectSessions Date_parse files); reflexivity.
Qed.

(** What a message keeps of the entry it was read from. *)
Definition message_of_entry (m : ClaudeMessage) (entry : json) : Prop :=
  msg_id m = get entry (js "uuid")
  /\ role m = getprop_opt (get entry (js "message")) (js "role")
  /\ Date_getTime Date_parse (get entry (js "timestamp")) = Some (timestamp m)
  /\ forall s, getprop_opt (get entry (js "message")) (js "content") = Some (JString s) ->
               Types.content m = s.

Lemma entry_messages_in_order (entries : list json) (msgs : list ClaudeMessage) :
  entry_messages Date_parse entries = Some msgs ->
  Forall2 message_of_entry msgs (filter is_turn entries).
Proof.
  revert msgs. induction entries as [|entry entries IH]; intros msgs H; simpl in H.
  - injection H as <-. constructor.
  - unfold entry_message in H. simpl filter.
    destruct (getprop (Some entry) (js "type")) as [t|]; [|discriminate].
    destruct (is_turn entry); [|apply IH; exact H].
    destruct (getprop (get entry (js "message")) (js "content")) as [c|] eqn:Ec;
      [|discriminate].
    destruct (match c with Some (JString s) => Some s | _ => formatComplexContent c end)
      as [text|] eqn:Et; [|discriminate].
    destruct (Date_getTime Date_parse (get entry (js "timestamp"))) as [time|] eqn:Ed;
      [|discriminate].
    destruct (entry_messages Date_parse entries) as [rest|]; [|discriminate].
    injection H as <-. constructor; [|apply IH; reflexivity].
    split; [reflexivity|]. split; [reflexivity|]. split; [exact Ed|].
    simpl. intros s Hs.
    assert (Hc : c = Some (JString s)).
    { destruct (get entry (js "message")) as [[]|]; simpl in Ec, Hs;
        try discriminate; congruence. }
    subst c. congruence.
Qed.

(** The messages of a session are the entries of type [user] or [assistant]
    of its transcript, in the order of the file, none twice: each message
    has the [uuid], the role and the time of its entry, and its content when
    that is a string. *)
Theorem parseSessionFile_messages_in_order (file sessionId : jstring) (task : ClaudeTask) :
  parseSessionFile Date_parse file sessionId = Some task ->
  Forall2 message_of_entry (messages task) (filter is_turn (file_entries file)).
Proof.
  intros H. destruct (parseSessionFile_shape file sessionId task H) as [_ [_ [_ [_ [Hm _]]]]].
  apply entry_messages_in_order. exact Hm.
Qed.

(** The sessions of all project directories, each tagged with its
    directory, in the order in which [getAllSessions] reads them. *)
Definition sessions_read (dirs : list (jstring * list (jstring * jstring))) : list ClaudeTask :=
  flat_map (fun d => map (fun task => with_projectDir task (fst d))
                         (getProjectSessions Date_parse (snd d))) dirs.

(** [getAllSessions] loses and invents nothing: its result is a
    rearrangement of the sessions of all project directories, each tagged
    with its directory, as many as there are session files that yield a
    session.  When the [updatedAt] of every session read is a time, the
    result is sorted by [updatedAt], latest first. *)
Theorem getAllSessions_sorted_complete (dirs : list (jstring * list (jstring * jstring))) :
  Permutation (sessions_read dirs) (getAllSessions Date_parse dirs)
  /\ List.length (getAllSessions Date_parse dirs)
     = list_sum (map (fun d => List.length (filter yields_session (snd d))) dirs)
  /\ (Forall (fun task => updatedAt task <> NaN) (sessions_read dirs) ->
      StronglySorted (fun a b => time_le (updatedAt b) (updatedAt a))
        (getAllSessions Date_parse dirs)).
Proof.
  unfold getAllSessions, sessions_read.
  set (all := flat_map _ dirs).
  pose proof (sort_perm updatedAt all) as Hperm.
  split; [exact Hperm|].
  split; [|intros Htimed; apply (@sort_sorted _ updatedAt); exact Htimed].
  transitivity (List.length all); [symmetry; apply Permutation_length; exact Hperm|].
  clear Hperm. subst all.
  induction dirs as [|[dir files] dirs IH]; simpl; [reflexivity|].
  rewrite length_app, length_map, IH. f_equal.
  rewrite <- (length_map id (getProjectSessions Date_parse files)).
  rewrite (getProjectSessions_ids files), length_map. reflexivity.
Qed.

End SessionFacts.

(** ** Sessions: contents, corrupt lines and project paths *)

Section TranscriptFacts.
Import SessionManager.

Variable Date_parse : jstring -> time.

Lemma format_text_items (items : list json) (texts : list jstring) (formatted : jstring) :
  Forall2 text_block items texts ->
  format_items items formatted = Some (formatted ++ List.concat texts).
Proof.
  intros F. revert formatted.
  induction F as [|item s items texts [Ht Hs] F IH]; intros formatted; simpl.
  - rewrite app_nil_r. reflexivity.
  - unfold format_item. rewrite (getprop_type item _ Ht), Ht, Hs. cbn [ToString ToString_json].
    rewrite IH, app_assoc. reflexivity.
Qed.

(** A content that is a list of text items is formatted as the texts one
    after the other, the blanks at both ends removed; whatever the items,
    the formatted text of a list has no blank at either end. *)
Theorem formatComplexContent_text_items :
  (forall (items : list json) (texts : list jstring),
      Forall2 text_block items texts ->
      formatComplexContent (Some (JArray items)) = Some (trim (List.concat texts)))
  /\ (forall (items : list json) (s : jstring),
         formatComplexContent (Some (JArray items)) = Some s -> trim s = s).
Proof.
  split.
  - intros items texts F. unfold formatComplexContent.
    rewrite (format_text_items items texts [] F). reflexivity.
  - intros items s. unfold formatComplexContent.
    destruct (format_items items []) as [t|]; simpl; [|discriminate].
    intros H. injection H as <-. apply trim_idem.
Qed.

Lemma formatComplexContent_text_items_witness :
  formatComplexContent
    (Some (JArray [JObject [(js "type", JString (js "text")); (js "text", JString (js " Hi "))];
                   JObject [(js "type", JString (js "text")); (js "text", JString (js "there "))]]))
  = Some (js "Hi there").
Proof.
  rewrite (proj1 formatComplexContent_text_items _ [js " Hi "; js "there "]).
  - reflexivity.
  - repeat constructor.
Defined.

(** *** Blank text *)

Lemma trimStart_nil_iff (s : jstring) :
  trimStart s = [] <-> forallb is_js_space s = true.
Proof.
  induction s as [|c s IH]; simpl; [tauto|].
  destruct (is_js_space c); simpl; [exact IH|]. split; discriminate.
Qed.

Lemma blank_rev (s : jstring) :
  forallb is_js_space (rev s) = true <-> forallb is_js_space s = true.
Proof.
  rewrite !forallb_forall. split; intros H c Hc; apply H.
  - rewrite <- in_rev. exact Hc.
  - rewrite <- in_rev in Hc. exact Hc.
Qed.

Lemma not_blank_ends (s : jstring) :
  trim s <> [] -> trimStart s <> [] /\ trimEnd s <> [].
Proof.
  intros H. assert (Hs : trimStart s <> []).
  { intros E. apply H. unfold trim. rewrite E. reflexivity. }
  split; [exact Hs|].
  unfold trimEnd. intros E. apply Hs.
  assert (Hr : trimStart (rev s) = []).
  { destruct (trimStart (rev s)); [reflexivity|].
    simpl in E. apply app_eq_nil in E. destruct E; discriminate. }
  apply trimStart_nil_iff. apply blank_rev. apply trimStart_nil_iff. exact Hr.
Qed.

Lemma trimStart_app (a r : jstring) :
  trimStart a <> [] -> trimStart (a ++ r) = trimStart a ++ r.
Proof.
  induction a as [|c a IH]; simpl; [contradiction|].
  destruct (is_js_space c); [exact IH|reflexivity].
Qed.

Lemma trimEnd_app (l b : jstring) :
  trimEnd b <> [] -> trimEnd (l ++ b) = l ++ trimEnd b.
Proof.
  unfold trimEnd. intros H.
  assert (Hr : trimStart (rev b) <> []).
  { intros E. apply H. rewrite E. reflexivity. }
  rewrite rev_app_distr, (trimStart_app (rev b) (rev l) Hr), rev_app_distr, rev_involutive.
  reflexivity.
Qed.

(** Trimming a text leaves its middle alone when both ends hold something. *)
Lemma trim_middle (a m b : jstring) :
  trim a <> [] -> trim b <> [] ->
  trim (a ++ m ++ b) = trimStart a ++ m ++ trimEnd b.
Proof.
  intros Ha Hb. destruct (not_blank_ends a Ha) as [Ha' _].
  destruct (not_blank_ends b Hb) as [_ Hb']. unfold trim.
  rewrite (trimStart_app a (m ++ b) Ha'), app_assoc, (trimEnd_app _ b Hb'), <- app_assoc.
  reflexivity.
Qed.

Lemma split_at_sep (sep : N) (a r : jstring) :
  split sep (a ++ sep :: r) = split sep a ++ split sep r.
Proof.
  rewrite split_app. simpl split. rewrite N.eqb_refl, app_nil_r.
  pose proof (split_not_nil sep a) as Hne.
  rewrite (app_removelast_last [] Hne) at 3.
  rewrite <- app_assoc. reflexivity.
Qed.

Lemma parse_lines_app (l1 l2 : list jstring) :
  parse_lines (l1 ++ l2) = parse_lines l1 ++ parse_lines l2.
Proof.
  induction l1 as [|l l1 IH]; simpl; [reflexivity|].
  destruct (JSON_parse l); simpl; rewrite IH; reflexivity.
Qed.

Lemma file_entries_corrupt (a junk b : jstring) :
  trim a <> [] -> trim b <> [] -> ~ In LF junk -> JSON_parse junk = None ->
  file_entries (a ++ LF :: junk ++ LF :: b) = file_entries (a ++ LF :: b).
Proof.
  intros Ha Hb Hj Hparse. unfold file_entries, file_lines.
  replace (a ++ LF :: junk ++ LF :: b) with (a ++ (LF :: junk ++ [LF]) ++ b)
    by (simpl; rewrite <- app_assoc; reflexivity).
  change (a ++ LF :: b) with (a ++ [LF] ++ b).
  rewrite !trim_middle by assumption.
  simpl app. rewrite <- app_assoc. simpl app.
  rewrite !split_at_sep, (@split_no_unit LF junk Hj).
  rewrite !filter_app, !parse_lines_app. f_equal.
  simpl filter. destruct (trim junk); simpl; [reflexivity|].
  rewrite Hparse. reflexivity.
Qed.

(** A line in the middle of a transcript that does not parse, whatever it
    holds, is skipped: the session read is the one of the transcript
    without the line. *)
Theorem corrupt_line_is_skipped (a junk b sessionId : jstring) :
  trim a <> [] -> trim b <> [] -> ~ In LF junk -> JSON_parse junk = None ->
  parseSessionFile Date_parse (a ++ LF :: junk ++ LF :: b) sessionId
  = parseSessionFile Date_parse (a ++ LF :: b) sessionId.
Proof.
  intros Ha Hb Hj Hparse. unfold parseSessionFile.
  rewrite (file_entries_corrupt a junk b Ha Hb Hj Hparse). reflexivity.
Qed.

End TranscriptFacts.

Section ProjectPaths.
Import SessionManager.

Lemma replaceAll_back (s : jstring) :
  ~ In DASH s -> replaceAll 45 47 (replaceAll 47 45 s) = s.
Proof.
  unfold replaceAll. rewrite map_map. intros H.
  induction s as [|c s IH]; simpl; [reflexivity|].
  rewrite IH by (intros Hin; apply H; right; exact Hin). f_equal.
  destruct (N.eqb c 47) eqn:E.
  - apply N.eqb_eq in E. subst c. reflexivity.
  - destruct (N.eqb c 45) eqn:E'; [|reflexivity].
    apply N.eqb_eq in E'. subst c. exfalso. apply H. left. reflexivity.
Qed.

(** The project path [getAllSessions] would rebuild from the key of an
    absolute path is never that path: the slash at its start is lost.  For a
    path without a dash, what is rebuilt is the path without that slash. *)
Theorem projectDir_loses_leading_slash (rest : jstring) :
  projectDir_of (getProjectKey (SLASH :: rest)) <> SLASH :: rest
  /\ (~ In DASH rest -> projectDir_of (getProjectKey (SLASH :: rest)) = rest).
Proof.
  assert (E : getProjectKey (SLASH :: rest) = replaceAll 47 45 rest) by reflexivity.
  rewrite E. split.
  - intros H. apply (f_equal (@List.length N)) in H.
    unfold projectDir_of, replaceAll in H. rewrite !length_map in H. simpl in H. lia.
  - apply replaceAll_back.
Qed.

Lemma projectDir_loses_leading_slash_witness :
  ~ In DASH (js "home/u/app")
  /\ projectDir_of (getProjectKey (js "/home/u/app")) = js "home/u/app".
Proof.
  assert (H : ~ In DASH (js "home/u/app")) by (apply no_unit_dec; reflexivity).
  split; [exact H|].
  exact (proj2 (projectDir_loses_leading_slash (js "home/u/app")) H).
Defined.

End ProjectPaths.

Section TranscriptExamples.
Import SessionManager.

Definition USER_LINE : jstring :=
  jsq "{'type':'user','uuid':'u1','message':{'role':'user','content':'hi'}}".

Definition ASSISTANT_LINE : jstring :=
  jsq "{'type':'assistant','uuid':'a1','message':{'role':'assistant','content':'hello'}}".

(** [getSession] on a disk whose files all hold the transcript
    [TWO_TURNS]. *)
Lemma getSession_returns_requested_witness :
  exists task,
    getSession no_date (disk_of TWO_TURNS) (Some (js "/p")) (js "s") = Some task
    /\ sessionExists (disk_of TWO_TURNS) (Some (js "/p")) (js "s") = true
    /\ id task = js "s"
    /\ Types.sessionId (metadata task) = js "s".
Proof.
  pose proof (proj1 (getSession_returns_requested no_date (disk_of TWO_TURNS)
                       (Some (js "/p")) (js "s"))) as H.
  destruct (getSession no_date (disk_of TWO_TURNS) (Some (js "/p")) (js "s"))
    as [task|] eqn:E.
  - exists task. split; [reflexivity|].
    destruct (H task eq_refl) as [H1 [H2 [H3 _]]]. repeat split; assumption.
  - vm_compute in E. discriminate.
Defined.

Lemma parseSessionFile_messages_in_order_witness :
  exists task,
    parseSessionFile no_date (USER_LINE ++ LF :: ASSISTANT_LINE) (js "s") = Some task
    /\ Forall2 (message_of_entry no_date) (messages task)
         (filter is_turn (file_entries (USER_LINE ++ LF :: ASSISTANT_LINE)))
    /\ map msg_id (messages task) = [Some (JString (js "u1")); Some (JString (js "a1"))].
Proof.
  destruct (parseSessionFile no_date (USER_LINE ++ LF :: ASSISTANT_LINE) (js "s"))
    as [task|] eqn:E.
  - exists task. split; [reflexivity|]. split.
    + exact (parseSessionFile_messages_in_order no_date _ _ task E).
    + vm_compute in E. injection E as <-. reflexivity.
  - vm_compute in E. discriminate.
Defined.

Lemma corrupt_line_is_skipped_witness :
  parseSessionFile no_date
    (USER_LINE ++ LF :: js "{'type':'user'" ++ LF :: ASSISTANT_LINE) (js "s")
  = parseSessionFile no_date (USER_LINE ++ LF :: ASSISTANT_LINE) (js "s").
Proof.
  apply corrupt_line_is_skipped.
  - vm_compute. discriminate.
  - vm_compute. discriminate.
  - apply no_unit_dec. reflexivity.
  - reflexivity.
Defined.

(** Two project directories with three session files, one of them
    corrupt; the entries of the others carry the times 5 and 7. *)
Definition TWO_PROJECTS : list (jstring * list (jstring * jstring)) :=
  [(js "home-u-app",
    [(js "a", jsq "{'type':'user','message':{'role':'user','content':'hi'},'timestamp':5}")]);
   (js "home-u-lib",
    [(js "b", jsq "{'type':'user','message':{'role':'user','content':'yo'},'timestamp':7}");
     (js "c", js "not json")])].

Lemma getAllSessions_sorted_complete_witness :
  map id (getAllSessions no_date TWO_PROJECTS) = [js "b"; js "a"]
  /\ StronglySorted (fun a b => time_le (updatedAt b) (updatedAt a))
       (getAllSessions no_date TWO_PROJECTS).
Proof.
  split; [vm_compute; reflexivity|].
  apply (proj2 (proj2 (getAllSessions_sorted_complete no_date TWO_PROJECTS))).
  vm_compute. repeat constructor; discriminate.
Defined.

End TranscriptExamples.

(** ** The subprocess transport of the manager *)

Section ManagerTransport.
Import StreamingClient.
Import Manager.

(** A line that holds something fires exactly one event, whether it parses
    or not. *)
Lemma process_text_one (line : jstring) :
  trim line <> [] -> exists m, process_text line = [m].
Proof.
  intros Hne. unfold process_text.
  destruct (JSON_parse line) as [data|].
  - destruct (processStreamingJSON data) as [m|]; [exists m; reflexivity|].
    destruct (trim line); [contradiction|]. eexists. reflexivity.
  - destruct (trim line); [contradiction|]. eexists. reflexivity.
Qed.

Definition not_blank (line : jstring) : bool :=
  match trim line with
  | [] => false
  | _ :: _ => true
  end.

Lemma fire_lines_count (lines : list jstring) :
  exists msgs : list StreamingMessage,
    fire_lines lines = map OnMessage msgs
    /\ List.length msgs = List.length (filter not_blank lines).
Proof.
  induction lines as [|l lines [msgs [E Hlen]]]; simpl.
  - exists []. split; reflexivity.
  - unfold not_blank at 1. destruct (trim l) as [|c r] eqn:Et.
    + exists msgs. split; assumption.
    + destruct (process_text_one l) as [m Hm]; [rewrite Et; discriminate|].
      exists (m :: msgs). rewrite Hm, E. simpl. split; [reflexivity|].
      rewrite Hlen. reflexivity.
Qed.

(** Standard output fires one message event for each complete line that is
    not blank, JSON or not, and nothing else: no completion and no error. *)
Theorem cli_one_event_per_line (st : cli) (chunk : jstring) :
  exists msgs : list StreamingMessage,
    fired (cli_receive st chunk) = fired st ++ map OnMessage msgs
    /\ List.length msgs
       = List.length (filter not_blank (removelast (split LF (buffer st ++ chunk))))
    /\ outcome (cli_receive st chunk) = outcome st.
Proof.
  unfold cli_receive. simpl.
  destruct (fire_lines_count (removelast (split LF (buffer st ++ chunk)))) as [msgs [E Hlen]].
  exists msgs. rewrite E. repeat split. exact Hlen.
Qed.

Lemma cli_buffer_no_newline (st : cli) (chunk : jstring) :
  ~ In LF (buffer (cli_receive st chunk)).
Proof. unfold cli_receive. simpl. apply last_split_no_unit. Qed.

Lemma cli_flush (st : cli) :
  ~ In LF (buffer st) -> fired (cli_receive st [LF]) = fired st ++ fire_lines [buffer st].
Proof.
  intros H. unfold cli_receive. simpl fired.
  rewrite (@split_app_sep LF (buffer st) [] H). reflexivity.
Qed.

(** When the process closes, what is left in the line buffer is processed
    as a line: the events fired are those a final newline would have fired.
    On exit code 0 the completion follows, even when nothing was written;
    on any other exit code no completion is fired and the promise is
    rejected with the exit code. *)
Theorem cli_close_flushes (st0 : cli) (text : jstring) (code : option Z) :
  let st := cli_receive st0 text in
  fired (cli_on_close st code)
  = fired (cli_receive st [LF])
      ++ (if match code with Some 0%Z => true | _ => false end
          then [OnComplete COMPLETED] else [])
  /\ (outcome st0 = Pending ->
      outcome (cli_on_close st code)
      = if match code with Some 0%Z => true | _ => false end
        then Resolved
        else Rejected (js "Claude Code process exited with code " ++ code_text code)).
Proof.
  intros st.
  rewrite (cli_flush st (cli_buffer_no_newline st0 text)).
  unfold cli_on_close. split.
  - destruct code as [[|p|p]|]; simpl; rewrite ?app_nil_r; reflexivity.
  - intros Hp. destruct code as [[|p|p]|]; simpl; rewrite Hp; reflexivity.
Qed.

Lemma cli_close_flushes_witness :
  fired (cli_on_close (cli_receive cli_initial (js "{}" ++ LF :: js "bye")) (Some 0%Z))
  = [message text (js "{}"); message text (js "bye"); OnComplete COMPLETED]
  /\ fired (cli_on_close (cli_receive cli_initial []) (Some 0%Z)) = [OnComplete COMPLETED]
  /\ outcome (cli_on_close (cli_receive cli_initial []) (Some 2%Z))
     = Rejected (js "Claude Code process exited with code 2").
Proof.
  destruct (cli_close_flushes cli_initial (js "{}" ++ LF :: js "bye") (Some 0%Z)) as [H1 _].
  destruct (cli_close_flushes cli_initial [] (Some 2%Z)) as [_ H2].
  split; [rewrite H1; reflexivity|].
  split; [reflexivity|].
  rewrite (H2 eq_refl). reflexivity.
Defined.

End ManagerTransport.

(** ** The message of the manager *)

Section ContextMessages.
Import Manager.

Lemma split_join (sep : N) (ls : list jstring) :
  ls <> [] -> Forall (no_unit sep) ls -> split sep (join_parts [sep] ls) = ls.
Proof.
  induction ls as [|l ls IH]; intros Hne F; [contradiction|].
  inversion F as [|? ? Hl Hls]; subst.
  destruct ls as [|l2 ls].
  - simpl. apply split_no_unit. exact Hl.
  - change (join_parts [sep] (l :: l2 :: ls))
      with (l ++ sep :: join_parts [sep] (l2 :: ls)).
    rewrite (@split_app_sep sep l _ Hl), IH; [reflexivity|discriminate|exact Hls].
Qed.

Lemma Forall_firstn {A} (P : A -> Prop) (n : nat) (l : list A) :
  Forall P l -> Forall P (firstn n l).
Proof.
  intros F. revert n. induction F as [|x l Hx F IH]; intros [|n]; simpl;
    constructor; auto.
Qed.

Lemma Forall_skipn {A} (P : A -> Prop) (n : nat) (l : list A) :
  Forall P l -> Forall P (skipn n l).
Proof.
  intros F. revert n. induction F as [|x l Hx F IH]; intros [|n]; simpl;
    try constructor; auto.
Qed.

(** The lines of the current file. *)
Definition lines_of (file : FileContext) : list jstring :=
  split LF match file_content file with Some c => c | None => [] end.

(** The code quoted for a selection is made of whole lines of the file:
    split into lines again, it is the lines from the first to the last line
    of the selection, as many as the selection spans.  A selection that
    starts beyond the end of the content quotes nothing. *)
Theorem selectedCode_is_whole_lines (file : FileContext) (sel : Selection) :
  let first := N.to_nat (pos_line (sel_start sel)) in
  let last := N.to_nat (pos_line (sel_end sel)) in
  (first <= last -> last < List.length (lines_of file) ->
   split LF (selectedCode file sel) = slice first (last + 1) (lines_of file)
   /\ List.length (split LF (selectedCode file sel)) = last - first + 1
   /\ forall i, i <= last - first ->
                nth i (split LF (selectedCode file sel)) [] = nth (first + i) (lines_of file) [])
  /\ (List.length (lines_of file) <= first -> selectedCode file sel = []).
Proof.
  intros first last. unfold selectedCode. fold (lines_of file). fold first. fold last.
  split.
  - intros Hle Hlt.
    assert (Hlen : List.length (slice first (last + 1) (lines_of file)) = last - first + 1).
    { unfold slice. rewrite length_firstn, length_skipn. lia. }
    assert (Hs : split LF (join_parts [LF] (slice first (last + 1) (lines_of file)))
                 = slice first (last + 1) (lines_of file)).
    { apply split_join.
      - intros E. rewrite E in Hlen. simpl in Hlen. lia.
      - unfold slice. apply Forall_firstn, Forall_skipn, split_fragments. }
    rewrite Hs. split; [reflexivity|]. split; [exact Hlen|].
    intros i Hi. unfold slice.
    rewrite nth_firstn.
    replace (Nat.ltb i (last + 1 - first)) with true
      by (symmetry; apply Nat.ltb_lt; lia).
    rewrite nth_skipn. reflexivity.
  - intros Hout. unfold slice. rewrite skipn_all2 by exact Hout.
    rewrite firstn_nil. reflexivity.
Qed.

Definition THREE_LINES : FileContext :=
  mkFileContext (js "a.ts") (Some (js "one" ++ LF :: js "two" ++ LF :: js "three")) None.

Lemma selectedCode_is_whole_lines_witness :
  selectedCode THREE_LINES (mkSelection (mkPosition 1 2) (mkPosition 2 0))
  = js "two" ++ LF :: js "three"
  /\ split LF (selectedCode THREE_LINES (mkSelection (mkPosition 1 2) (mkPosition 2 0)))
     = [js "two"; js "three"].
Proof.
  split; [reflexivity|].
  destruct (selectedCode_is_whole_lines THREE_LINES
              (mkSelection (mkPosition 1 2) (mkPosition 2 0))) as [H _].
  destruct H as [H _].
  - vm_compute. lia.
  - vm_compute. lia.
  - rewrite H. reflexivity.
Defined.

Lemma quoted_cons (c : N) (m : jstring) :
  quoted_argument (c :: m)
  = (if N.eqb c QUOTE then [BACKSLASH; QUOTE]
     else [if N.eqb c LF then 32%N else c]) ++ quoted_argument m.
Proof.
  unfold quoted_argument, escape_quotes, replaceAll. simpl flat_map.
  rewrite map_app. destruct (N.eqb c QUOTE); reflexivity.
Qed.

Lemma quoted_quotes (m pre post : jstring) :
  quoted_argument m = pre ++ QUOTE :: post -> exists pre', pre = pre' ++ [BACKSLASH].
Proof.
  revert pre. induction m as [|c m IH]; intros pre H.
  - destruct pre; discriminate.
  - rewrite quoted_cons in H. destruct (N.eqb c QUOTE) eqn:E.
    + destruct pre as [|x [|y pre]]; simpl in H.
      * discriminate.
      * injection H as <- _. exists []. reflexivity.
      * injection H as <- <- H. destruct (IH pre H) as [pre' ->].
        exists (BACKSLASH :: QUOTE :: pre'). reflexivity.
    + destruct pre as [|x pre]; simpl in H.
      * injection H as H _. exfalso. apply N.eqb_neq in E.
        destruct (N.eqb c LF); [discriminate|]. congruence.
      * injection H as <- H. destruct (IH pre H) as [pre' ->].
        eexists (_ :: pre'). reflexivity.
Qed.

(** The argument [callClaudeCodeCLI] puts between double quotes on the
    command line holds no newline, and every double quote in it follows a
    backslash.  A message without double quotes and newlines is passed as
    it is. *)
Theorem quoted_argument_is_escaped (m : jstring) :
  ~ In LF (quoted_argument m)
  /\ (forall pre post, quoted_argument m = pre ++ QUOTE :: post ->
                       exists pre', pre = pre' ++ [BACKSLASH])
  /\ (~ In QUOTE m -> ~ In LF m -> quoted_argument m = m).
Proof.
  split; [|split].
  - unfold quoted_argument. apply replaceAll_notin. discriminate.
  - apply quoted_quotes.
  - induction m as [|c m IH]; intros Hq Hl; [reflexivity|].
    rewrite quoted_cons.
    destruct (N.eqb c QUOTE) eqn:E.
    + apply N.eqb_eq in E. exfalso. apply Hq. left. exact E.
    + destruct (N.eqb c LF) eqn:E'.
      * apply N.eqb_eq in E'. exfalso. apply Hl. left. exact E'.
      * simpl. rewrite IH; [reflexivity| |]; intros Hin; [apply Hq|apply Hl]; right; exact Hin.
Qed.

Lemma quoted_argument_is_escaped_witness :
  quoted_argument (js "say " ++ QUOTE :: js "hi" ++ QUOTE :: LF :: js "now")
  = js "say " ++ BACKSLASH :: QUOTE :: js "hi" ++ BACKSLASH :: QUOTE :: js " now"
  /\ quoted_argument (js "plain text") = js "plain text".
Proof.
  split; [reflexivity|].
  apply (proj2 (proj2 (quoted_argument_is_escaped (js "plain text"))));
    apply no_unit_dec; reflexivity.
Defined.

End ContextMessages.

(** ** The tasks of the manager *)

Section Tasks.
Import Manager.

Lemma set_nth_same {A} (a : nat) (x : A) (l : list A) :
  a < List.length l -> nth_error (set_nth a x l) a = Some x.
Proof.
  revert a. induction l as [|y l IH]; intros [|a] H; simpl in *; try lia.
  - reflexivity.
  - apply IH. lia.
Qed.

Lemma set_nth_other {A} (a b : nat) (x : A) (l : list A) :
  b <> a -> nth_error (set_nth a x l) b = nth_error l b.
Proof.
  revert a b. induction l as [|y l IH]; intros [|a] [|b] H; simpl; try reflexivity.
  - contradiction.
  - apply IH. lia.
Qed.

Lemma set_nth_length {A} (a : nat) (x : A) (l : list A) :
  List.length (set_nth a x l) = List.length l.
Proof.
  revert a. induction l as [|y l IH]; intros [|a]; simpl; try reflexivity.
  rewrite IH. reflexivity.
Qed.

Lemma deref_bound (s : store) (a : nat) (task : ClaudeTask) :
  deref s a = Some task -> a < List.length (objects s).
Proof.
  unfold deref. intros H. apply nth_error_Some. congruence.
Qed.

(** The title after some messages: a task still called [New Task] is named
    after the first message of role [user], three dots appended. *)
Definition titled (title0 : jstring) (ms : list ClaudeMessage) : jstring :=
  if str_eqb title0 NEW_TASK then
    match find has_role_user ms with
    | Some m => substring0 50 (Types.content m) ++ js "..."
    | None => title0
    end
  else title0.

Lemma dotted_is_not_new (t : jstring) : str_eqb (t ++ js "...") NEW_TASK = false.
Proof.
  destruct (str_eqb (t ++ js "...") NEW_TASK) eqn:E; [|reflexivity].
  apply str_eqb_eq in E. apply (f_equal (@rev N)) in E.
  rewrite rev_app_distr in E. discriminate.
Qed.

Lemma titled_cons (title0 : jstring) (m : ClaudeMessage) (ms : list ClaudeMessage) :
  titled (if has_role_user m && str_eqb title0 NEW_TASK
          then substring0 50 (Types.content m) ++ js "..."
          else title0) ms
  = titled title0 (m :: ms).
Proof.
  unfold titled. simpl find.
  destruct (has_role_user m); destruct (str_eqb title0 NEW_TASK) eqn:E; simpl;
    rewrite ?dotted_is_not_new, ?E; reflexivity.
Qed.

Lemma update_existing (useSDK : bool) (s : store) (a : nat) (task : ClaudeTask)
      (sid : jstring) (t1 t2 now : Z) (m : ClaudeMessage) :
  currentTask s = Some a -> deref s a = Some task ->
  updateCurrentTask useSDK s sid t1 t2 now m
  = mkStore (set_nth a (record_message now m task) (objects s))
            (tasks s) (Some a) (onTaskUpdate s ++ [a]) (starting s).
Proof.
  intros Hc Hd. unfold updateCurrentTask. rewrite Hc. cbv zeta. rewrite Hc, Hd.
  reflexivity.
Qed.

(** Messages recorded in a task that is current. *)
Lemma record_all_existing (useSDK : bool) (rs : list recording) :
  forall (s : store) (a : nat) (task : ClaudeTask),
    currentTask s = Some a -> deref s a = Some task ->
    currentTask (record_all useSDK s rs) = Some a
    /\ tasks (record_all useSDK s rs) = tasks s
    /\ (forall b, b <> a -> deref (record_all useSDK s rs) b = deref s b)
    /\ exists task',
         deref (record_all useSDK s rs) a = Some task'
         /\ id task' = id task
         /\ messages task' = messages task ++ map recorded rs
         /\ title task' = titled (title task) (map recorded rs)
         /\ task_status task'
            = if existsb has_role_user (map recorded rs) then running else task_status task.
Proof.
  induction rs as [|r rs IH]; intros s a task Hc Hd.
  - unfold record_all. simpl.
    split; [exact Hc|]. split; [reflexivity|]. split; [reflexivity|].
    exists task. split; [exact Hd|]. split; [reflexivity|].
    split; [rewrite app_nil_r; reflexivity|].
    split; [|reflexivity].
    unfold titled. simpl. destruct (str_eqb (title task) NEW_TASK); reflexivity.
  - unfold record_all. simpl fold_left.
    rewrite (update_existing useSDK s a task _ _ _ _ _ Hc Hd).
    set (s1 := mkStore _ _ _ _ _).
    assert (Hd1 : deref s1 a = Some (record_message (recorded_at r) (recorded r) task)).
    { unfold deref, s1. simpl. apply set_nth_same. exact (deref_bound s a task Hd). }
    destruct (IH s1 a _ eq_refl Hd1) as [H1 [H2 [H3 [task' [H4 [H5 [H6 [H7 H8]]]]]]]].
    fold (record_all useSDK s1 rs).
    split; [exact H1|]. split; [exact H2|]. split.
    + intros b Hb. rewrite (H3 b Hb). unfold deref, s1. simpl.
      apply set_nth_other. exact Hb.
    + exists task'. split; [exact H4|]. split; [exact H5|]. split; [|split].
      * rewrite H6. simpl. rewrite <- app_assoc. reflexivity.
      * rewrite H7. simpl title. apply titled_cons.
      * rewrite H8. simpl. unfold has_role_user at 2.
        destruct (is_string (js "user") (role (recorded r))); simpl;
          destruct (existsb has_role_user (map recorded rs)); reflexivity.
Qed.

(** A store whose list of tasks holds addresses of objects. *)
Definition well_formed (s : store) : Prop :=
  Forall (fun a => a < List.length (objects s)) (tasks s).

Lemma deref_add_task (s : store) (task : ClaudeTask) (b : nat) :
  b < List.length (objects s) -> deref (add_task s task) b = deref s b.
Proof.
  intros H. unfold deref, add_task. simpl. apply nth_error_app1. exact H.
Qed.

(** Without the SDK, the messages recorded from a state without a current
    task all go to one new task: it is the current task and the first of
    [getTasks()], before the tasks that were there, which are unchanged; it
    holds the messages in the order of the calls; it is named after the
    first message of role [user], cut at 50 units and always followed by
    three dots; and it is [running] once a message of role [user] was
    recorded. *)
Theorem recorded_messages_are_listed (s : store) (r : recording) (rs : list recording) :
  currentTask s = None -> well_formed s ->
  exists task,
    getCurrentTask (record_all false s (r :: rs)) = Some task
    /\ getTasks (record_all false s (r :: rs)) = Some task :: getTasks s
    /\ id task = fresh_id r
    /\ messages task = map recorded (r :: rs)
    /\ title task
       = match find has_role_user (map recorded (r :: rs)) with
         | Some m => substring0 50 (Types.content m) ++ js "..."
         | None => NEW_TASK
         end
    /\ task_status task
       = if existsb has_role_user (map recorded (r :: rs)) then running else pending.
Proof.
  intros Hnone Hwf.
  set (new := new_task (fresh_id r) NEW_TASK (fresh_createdAt r) (fresh_updatedAt r)).
  set (a := List.length (objects s)).
  set (s0 := add_task s new).
  assert (Hc0 : currentTask s0 = Some a) by reflexivity.
  assert (Hd0 : deref s0 a = Some new).
  { unfold deref, s0, add_task. simpl. rewrite nth_error_app2 by (unfold a; lia).
    unfold a. rewrite Nat.sub_diag. reflexivity. }
  assert (E : record_all false s (r :: rs) = record_all false s0 (r :: rs)).
  { unfold record_all. simpl fold_left. f_equal.
    unfold updateCurrentTask. rewrite Hnone. simpl startNewTask. fold new. fold s0.
    rewrite Hc0. reflexivity. }
  rewrite E.
  destruct (record_all_existing false (r :: rs) s0 a new Hc0 Hd0)
    as [H1 [H2 [H3 [task [H4 [H5 [H6 [H7 H8]]]]]]]].
  exists task. split; [|split; [|split; [|split; [|split]]]].
  - unfold getCurrentTask. rewrite H1. exact H4.
  - unfold getTasks. rewrite H2. change (tasks s0) with (a :: tasks s).
    cbn [map]. rewrite H4. f_equal.
    apply map_ext_in. intros b Hb.
    unfold well_formed in Hwf. rewrite Forall_forall in Hwf. specialize (Hwf b Hb).
    rewrite H3 by (unfold a; lia). apply deref_add_task. exact Hwf.
  - exact H5.
  - rewrite H6. reflexivity.
  - rewrite H7. reflexivity.
  - rewrite H8. reflexivity.
Qed.

End Tasks.

Section TaskExamples.
Import Manager.

(** The first message of a conversation and its answer. *)
Definition ASKED : recording :=
  mkRecording (js "id-1") 1 1 2
    (mkClaudeMessage (Some (JString (js "2"))) (Some (JString (js "user")))
       (js "Explain this") (Millis 2)).

Definition ANSWERED : recording :=
  mkRecording (js "id-2") 3 3 4
    (mkClaudeMessage (Some (JString (js "4"))) (Some (JString (js "assistant")))
       (js "Sure.") (Millis 4)).

Lemma recorded_messages_are_listed_witness :
  exists task,
    getCurrentTask (record_all false empty_store [ASKED; ANSWERED]) = Some task
    /\ getTasks (record_all false empty_store [ASKED; ANSWERED]) = [Some task]
    /\ id task = js "id-1"
    /\ messages task = [recorded ASKED; recorded ANSWERED]
    /\ title task = js "Explain this..."
    /\ task_status task = running.
Proof.
  destruct (recorded_messages_are_listed empty_store ASKED [ANSWERED])
    as [task [H1 [H2 [H3 [H4 [H5 H6]]]]]].
  - reflexivity.
  - constructor.
  - exists task. repeat split; assumption.
Defined.

(** With the SDK, a message recorded when there is no current task is
    recorded nowhere: the task that [startNewTask] creates once it goes on
    has no message. *)
Theorem first_message_with_sdk_is_not_recorded
  (s : store) (sid : jstring) (t1 t2 now : Z) (m : ClaudeMessage)
  (sid' : jstring) (t1' t2' : Z) :
  currentTask s = None -> starting s = 0 ->
  getTasks (updateCurrentTask true s sid t1 t2 now m) = getTasks s
  /\ getCurrentTask (updateCurrentTask true s sid t1 t2 now m) = None
  /\ exists task,
       getCurrentTask (startNewTask_resumed (updateCurrentTask true s sid t1 t2 now m)
                         sid' t1' t2') = Some task
       /\ id task = sid' /\ messages task = [].
Proof.
  intros Hnone Hstart.
  assert (E : updateCurrentTask true s sid t1 t2 now m
              = mkStore (objects s) (tasks s) None (onTaskUpdate s) 1).
  { unfold updateCurrentTask. rewrite Hnone. simpl. rewrite Hnone, Hstart. reflexivity. }
  rewrite E. split; [reflexivity|]. split; [reflexivity|].
  exists (new_task sid' NEW_TASK t1' t2'). split; [|split; reflexivity].
  unfold getCurrentTask, startNewTask_resumed, add_task, deref. simpl.
  rewrite nth_error_app2 by lia. rewrite Nat.sub_diag. reflexivity.
Qed.

Lemma first_message_with_sdk_is_not_recorded_witness :
  getTasks (updateCurrentTask true empty_store (js "x") 1 1 2 (recorded ASKED)) = []
  /\ getCurrentTask (updateCurrentTask true empty_store (js "x") 1 1 2 (recorded ASKED)) = None
  /\ exists task,
       getCurrentTask
         (startNewTask_resumed
            (updateCurrentTask true empty_store (js "x") 1 1 2 (recorded ASKED))
            (js "sdk-1") 3 3) = Some task
       /\ id task = js "sdk-1" /\ messages task = [].
Proof.
  apply (first_message_with_sdk_is_not_recorded empty_store); reflexivity.
Defined.

End TaskExamples.

(** ** The subprocess transport: what the calls made so far do not change *)

Section Frames.
Import StreamingClient.
Local Open Scope js_scope.

(** A computation that reads nothing of the calls made so far: it adds its
    own calls to them, and does to [fullResponse] what it does when no call
    was made. *)
Definition framed {A} (m : M A) : Prop :=
  forall c f,
    m (mkEffects c f)
    = (mkEffects (c ++ calls (fst (m (mkEffects [] f))))
                 (fullResponse (fst (m (mkEffects [] f)))),
       snd (m (mkEffects [] f))).

Lemma framed_ret {A} (a : A) : framed (ret a).
Proof. intros c f. simpl. rewrite app_nil_r. reflexivity. Qed.

Lemma framed_throw {A} : framed (@throw A).
Proof. intros c f. simpl. rewrite app_nil_r. reflexivity. Qed.

Lemma framed_lift {A} (o : option A) : framed (lift o).
Proof. destruct o; [apply framed_ret|apply framed_throw]. Qed.

Lemma framed_emit (x : SinkCall) : framed (emit x).
Proof. intros c f. reflexivity. Qed.

Lemma framed_bind {A B} (m : M A) (k : A -> M B) :
  framed m -> (forall a, framed (k a)) -> framed (bind m k).
Proof.
  intros Hm Hk c f. unfold bind. rewrite (Hm c f).
  destruct (m (mkEffects [] f)) as [[c1 f1] [a|]]; simpl.
  - rewrite (Hk a (c ++ c1) f1), (Hk a c1 f1). simpl. rewrite app_assoc. reflexivity.
  - reflexivity.
Qed.

Lemma framed_try_catch {A} (m h : M A) :
  framed m -> framed h -> framed (try_catch m h).
Proof.
  intros Hm Hh c f. unfold try_catch. rewrite (Hm c f).
  destruct (m (mkEffects [] f)) as [[c1 f1] [a|]]; simpl.
  - reflexivity.
  - rewrite (Hh (c ++ c1) f1), (Hh c1 f1). simpl. rewrite app_assoc. reflexivity.
Qed.

Lemma framed_collect (v : value) (k : kind) : framed (contentCollector v k).
Proof.
  destruct k; simpl; try apply framed_ret.
  apply framed_bind; [apply framed_lift|].
  intros s c f. simpl. rewrite app_nil_r. reflexivity.
Qed.

Lemma framed_when (b : bool) (body : M unit) : framed body -> framed (when b body).
Proof. destruct b; simpl; [auto|intros; apply framed_ret]. Qed.

Ltac framed_step :=
  match goal with
  | |- framed (ret _) => apply framed_ret
  | |- framed throw => apply framed_throw
  | |- framed (lift _) => apply framed_lift
  | |- framed (emit _) => apply framed_emit
  | |- framed (contentCollector _ _) => apply framed_collect
  | |- framed (when _ _) => apply framed_when
  | |- framed (bind _ _) => apply framed_bind; [|intros]
  | |- framed (try_catch _ _) => apply framed_try_catch
  | |- framed (if ?b then _ else _) => destruct b
  | |- framed (match ?x with _ => _ end) => destruct x
  end.

Lemma framed_block (block : json) (acc : jstring) : framed (process_block block acc).
Proof. unfold process_block, message. repeat framed_step. Qed.

Lemma framed_blocks (blocks : list json) (acc : jstring) :
  framed (process_blocks blocks acc).
Proof.
  revert acc. induction blocks as [|b blocks IH]; intros acc; simpl.
  - apply framed_ret.
  - apply framed_bind; [apply framed_block|intros; apply IH].
Qed.

Lemma framed_assistant (msg : json) : framed (process_assistant msg).
Proof.
  unfold process_assistant, message.
  apply framed_bind.
  - destruct (get msg (js "content")) as [[]|]; try apply framed_ret.
    apply framed_blocks.
  - intros. repeat framed_step.
Qed.

Lemma framed_result (data : json) : framed (process_result data).
Proof. unfold process_result, message. repeat framed_step. Qed.

Lemma framed_data (line : jstring) (data : json) : framed (process_data line data).
Proof.
  unfold process_data, message.
  apply framed_bind; [apply framed_lift|]. intros dtype.
  destruct (_ && _); [repeat framed_step|].
  destruct (_ && _).
  { destruct (get data (js "message")); [apply framed_assistant|apply framed_ret]. }
  destruct (is_string (js "result") dtype); [apply framed_result|].
  destruct (is_string (js "error") dtype); repeat framed_step.
Qed.

Lemma framed_plain (line : jstring) : framed (process_plain line).
Proof. unfold process_plain, message. repeat framed_step. Qed.

Lemma framed_line (line : jstring) : framed (processStreamingLine line).
Proof.
  unfold processStreamingLine.
  apply framed_try_catch; [|apply framed_plain].
  apply framed_bind; [apply framed_lift|intros; apply framed_data].
Qed.

Lemma run_line_framed (line : jstring) (c : list SinkCall) (f : jstring) :
  run_line (mkEffects c f) line
  = mkEffects (c ++ calls (run_line (mkEffects [] f) line))
              (fullResponse (run_line (mkEffects [] f) line)).
Proof. unfold run_line. rewrite (framed_line line c f). reflexivity. Qed.

Lemma process_lines_framed (lines : list jstring) (c : list SinkCall) (f : jstring) :
  process_lines (mkEffects c f) lines
  = mkEffects (c ++ calls (process_lines (mkEffects [] f) lines))
              (fullResponse (process_lines (mkEffects [] f) lines)).
Proof.
  revert c f. induction lines as [|l lines IH]; intros c f.
  - simpl. rewrite app_nil_r. reflexivity.
  - unfold process_lines in *. simpl fold_left.
    destruct (trim l) as [|x r] eqn:E.
    + apply IH.
    + rewrite (run_line_framed (x :: r) c f).
      destruct (run_line (mkEffects [] f) (x :: r)) as [c1 f1]. simpl calls.
      simpl fullResponse.
      rewrite (IH (c ++ c1) f1), (IH c1 f1). simpl. rewrite app_assoc. reflexivity.
Qed.

(** A request with other calls in its sink. *)
Definition with_calls (st : stream) (c : list SinkCall) : stream :=
  mkStream (mkEffects c (fullResponse (eff st))) (messageBuffer st) (hasReceivedData st)
           (settled st) (timer st).

Lemma with_calls_sink (st : stream) : with_calls st (sink st) = st.
Proof. destruct st as [[c f] b h p t]. reflexivity. Qed.

(** A process event adds its calls to the sink, whatever the sink holds,
    and changes the rest of the request in the same way. *)
Lemma step_framed (st : stream) (c : list SinkCall) (ev : ProcessEvent) :
  step (with_calls st c) ev
  = with_calls (step (with_calls st []) ev) (c ++ sink (step (with_calls st []) ev)).
Proof.
  destruct st as [[c0 f] b h p t]. unfold with_calls. simpl.
  destruct ev as [data|data|code|msg|].
  - rewrite !step_stdout. unfold receive, sink. simpl.
    rewrite (process_lines_framed _ c f). reflexivity.
  - unfold step, sink. simpl. unfold on_stderr, call, with_eff. simpl.
    destruct (_ || _); destruct p; simpl; rewrite ?app_nil_r; reflexivity.
  - unfold step, sink. simpl. unfold on_close, stop_timer, settle, call, with_eff. simpl.
    destruct code as [[|q|q]|]; simpl;
      try destruct (negb h || _); destruct p; simpl;
        rewrite <- ?app_assoc; reflexivity.
  - unfold step, sink. simpl. unfold on_error, settle, call, with_eff. simpl.
    destruct p; simpl; rewrite <- ?app_assoc; reflexivity.
  - unfold step, sink. simpl. unfold on_timeout, stop_timer, settle, call, with_eff. simpl.
    destruct t; destruct p; simpl; rewrite <- ?app_assoc, ?app_nil_r; reflexivity.
Qed.

Lemma with_calls_twice (st : stream) (c c' : list SinkCall) :
  with_calls (with_calls st c) c' = with_calls st c'.
Proof. reflexivity. Qed.

Lemma run_framed (evs : list ProcessEvent) (st : stream) (c : list SinkCall) :
  run (with_calls st c) evs
  = with_calls (run (with_calls st []) evs) (c ++ sink (run (with_calls st []) evs)).
Proof.
  revert st c. induction evs as [|ev evs IH]; intros st c.
  - unfold run, with_calls, sink. simpl. rewrite app_nil_r. reflexivity.
  - change (run (with_calls st c) (ev :: evs)) with (run (step (with_calls st c) ev) evs).
    change (run (with_calls st []) (ev :: evs))
      with (run (step (with_calls st []) ev) evs).
    rewrite (step_framed st c ev).
    set (s1 := step (with_calls st []) ev).
    assert (Hs : run s1 evs
                 = with_calls (run (with_calls s1 []) evs)
                     (sink s1 ++ sink (run (with_calls s1 []) evs))).
    { rewrite <- (with_calls_sink s1) at 1. apply IH. }
    rewrite (IH s1 (c ++ sink s1)), Hs. unfold with_calls, sink. simpl.
    rewrite app_assoc. reflexivity.
Qed.

(** What standard error adds to the sink. *)
Definition stderr_calls (data : Buffer.bytes) : list SinkCall :=
  if includes (js "error") (toLowerCase (Buffer.toString data))
     || includes (js "failed") (toLowerCase (Buffer.toString data))
  then [OnError (JString (Buffer.toString data))]
  else [].

Lemma step_stderr (st : stream) (data : Buffer.bytes) :
  step st (Stderr data) = with_calls st (sink st ++ stderr_calls data).
Proof.
  destruct st as [[c f] b h p t].
  unfold step, stderr_calls, with_calls, sink. simpl. unfold on_stderr, call, with_eff. simpl.
  destruct (_ || _); destruct p; simpl; rewrite ?app_nil_r; reflexivity.
Qed.

(** Standard error is a side channel.  What the process writes there adds
    at most one call to the sink, [onError] with the text written, when the
    text holds [error] or [failed] in any case; it changes nothing else: the
    calls before and after it, the collected response and the outcome of
    the request are those of the same request without it. *)
Theorem stderr_is_a_side_channel
  (st : stream) (before after : list ProcessEvent) (data : Buffer.bytes) :
  exists rest : list SinkCall,
    sink (run st (before ++ Stderr data :: after))
    = sink (run st before) ++ stderr_calls data ++ rest
    /\ sink (run st (before ++ after)) = sink (run st before) ++ rest
    /\ settled (run st (before ++ Stderr data :: after)) = settled (run st (before ++ after))
    /\ fullResponse (eff (run st (before ++ Stderr data :: after)))
       = fullResponse (eff (run st (before ++ after))).
Proof.
  rewrite !run_app. set (s1 := run st before).
  change (run s1 (Stderr data :: after)) with (run (step s1 (Stderr data)) after).
  rewrite (step_stderr s1 data).
  rewrite (run_framed after s1 (sink s1 ++ stderr_calls data)).
  assert (Hs : run s1 after
               = with_calls (run (with_calls s1 []) after)
                   (sink s1 ++ sink (run (with_calls s1 []) after))).
  { rewrite <- (with_calls_sink s1) at 1. apply run_framed. }
  rewrite Hs.
  exists (sink (run (with_calls s1 []) after)).
  unfold with_calls, sink. simpl. rewrite <- app_assoc. repeat split.
Qed.

End Frames.

(** ** The direct transport: one query *)

Section Queries.
Import SDKClient.

Lemma read_bounded (fuel : nat) :
  forall (yielded : list json) (failing : bool) (count : nat) (full : jstring),
    maxMessages < count + List.length yielded -> count <= maxMessages ->
    fuel = maxMessages - count ->
    read_messages yielded failing count full
    = read_messages (firstn (maxMessages - count) yielded) false count full.
Proof.
  unfold maxMessages.
  induction fuel as [|fuel IH]; intros yielded failing count full Hlen Hcount Hfuel.
  - assert (E : 10 - count = 0) by lia. rewrite E. simpl firstn.
    destruct yielded as [|msg rest]; [simpl in Hlen; lia|].
    unfold read_messages, maxMessages.
    replace (Nat.ltb 10 (S count)) with true by (symmetry; apply Nat.ltb_lt; lia).
    reflexivity.
  - destruct yielded as [|msg rest]; [simpl in Hlen; lia|].
    assert (E : 10 - count = S (10 - S count)) by lia.
    rewrite E. simpl firstn. cbn [read_messages].
    destruct (Nat.ltb maxMessages (S count)); [reflexivity|].
    destruct (getprop (Some msg) (js "type")) as [mtype|]; [|reflexivity].
    destruct (is_string (js "result") mtype && truthy (get msg (js "result")));
      [reflexivity|].
    assert (Hrest : 10 < S count + List.length rest) by (simpl in Hlen; lia).
    assert (Hf : fuel = 10 - S count) by lia.
    destruct (truthy (get msg (js "content"))).
    + destruct (ToString (get msg (js "content"))); [|reflexivity].
      apply IH; [assumption|lia|assumption].
    + apply IH; [assumption|lia|assumption].
Qed.

(** A query answers with a text that is never blank: when nothing was
    collected the text says so; [outputTokens] is the length of the text.
    And a query reads at most ten messages: what follows the tenth does not
    change the answer, not even an error of the query. *)
Theorem executeSDKQuery_is_bounded
  (message : jstring) (yielded : list json) (failing : bool) :
  (forall response,
      executeSDKQuery true message yielded failing = Some response ->
      trim (content response) <> []
      /\ outputTokens response = List.length (content response)
      /\ inputTokens response = List.length message)
  /\ (10 < List.length yielded ->
      executeSDKQuery true message yielded failing
      = executeSDKQuery true message (firstn 10 yielded) false).
Proof.
  split.
  - intros response. unfold executeSDKQuery.
    destruct (read_messages yielded failing 0 []) as [full|]; [|discriminate].
    intros H. injection H as <-. simpl. repeat split.
    destruct (trim full) eqn:E; [vm_compute; discriminate|].
    rewrite E. discriminate.
  - intros Hlen. unfold executeSDKQuery.
    rewrite (read_bounded maxMessages yielded failing 0 [] Hlen (Nat.le_0_l _) eq_refl).
    reflexivity.
Qed.

(** A message that carries one letter. *)
Definition WORD : json :=
  JObject [(js "type", JString (js "assistant")); (js "content", JString (js "a"))].

Lemma executeSDKQuery_is_bounded_witness :
  executeSDKQuery true (js "hi") (repeat WORD 12) true
  = Some (mkResponse (js "aaaaaaaaaa") 2 10)
  /\ executeSDKQuery true (js "hi") [] false = Some (mkResponse NOTHING_RECEIVED 2 38).
Proof.
  split; [|reflexivity].
  rewrite (proj2 (executeSDKQuery_is_bounded (js "hi") (repeat WORD 12) true)).
  - reflexivity.
  - simpl. lia.
Defined.

End Queries.

(** ** The chat view: what reaches the webview *)

Section ChatView.
Import ChatProvider.

Variable formatThinkingText : json -> json.
Variable formatToolUsage : value -> value -> json.
Variable hasAnsiCodes : json -> bool.
Variable toStyledSpans : json -> json.
Variable Progress : Type.

Let post := post Progress.
Let provider := provider Progress.
Let happening := happening Progress.
Let handle : provider -> happening -> provider :=
  handle formatThinkingText formatToolUsage hasAnsiCodes toStyledSpans (Progress := Progress).
Let handle_all : provider -> list happening -> provider :=
  handle_all formatThinkingText formatToolUsage hasAnsiCodes toStyledSpans (Progress := Progress).

(** Reading the posts from the first: whether the last of [showTyping] and
    [streamingComplete] seen was [streamingComplete]. *)
Definition marker (b : bool) (p : post) : bool :=
  match p with
  | streamingComplete _ _ _ => true
  | showTyping _ => false
  | _ => b
  end.

Definition completed_last (b : bool) (posts : list post) : bool := fold_left marker posts b.

(** No [streamingMessage] is posted while the last marker is
    [streamingComplete]. *)
Fixpoint gated (b : bool) (posts : list post) : bool :=
  match posts with
  | [] => true
  | p :: rest =>
      match p with
      | streamingMessage _ _ _ _ _ _ => negb b
      | _ => true
      end && gated (marker b p) rest
  end.

(** A post that belongs to a stream names the stream. *)
Definition names_stream (p : post) : Prop :=
  match p with
  | streamingMessage _ messageId _ _ _ _ => messageId <> None
  | streamingProgress messageId _ => messageId <> None
  | streamingComplete _ messageId _ => messageId <> None
  | _ => True
  end.

Lemma gated_app (l1 l2 : list post) (b : bool) :
  gated b (l1 ++ l2) = gated b l1 && gated (completed_last b l1) l2.
Proof.
  revert b. induction l1 as [|p l1 IH]; intros b; simpl; [reflexivity|].
  rewrite IH, andb_assoc. reflexivity.
Qed.

Lemma completed_last_app (l1 l2 : list post) (b : bool) :
  completed_last b (l1 ++ l2) = completed_last (completed_last b l1) l2.
Proof. apply fold_left_app. Qed.

Lemma completed_needs_typing (mid : list post) (b : bool) :
  completed_last b mid = false -> b = false \/ In (showTyping Progress) mid.
Proof.
  revert b. induction mid as [|p mid IH]; intros b H; simpl in *; [left; exact H|].
  destruct (IH _ H) as [E|Hin]; [|right; right; exact Hin].
  destruct p; simpl in E; try (left; exact E); try discriminate.
  right. left. reflexivity.
Qed.

(** What holds of a provider whatever happened to it. *)
Definition consistent (p : provider) : Prop :=
  gated false (posted p) = true
  /\ (completed_last false (posted p) = true -> isStreaming p = false /\ view p = true)
  /\ (isStreaming p = true -> streamingMessageId p <> None)
  /\ Forall names_stream (posted p).

Lemma consistent_created : consistent (created Progress).
Proof. repeat split; try discriminate. constructor. Qed.

Lemma consistent_posts (posts new : list post) (v str : bool) (sid : option jstring)
      (ms : list ClaudeMessage) :
  gated false posts = true -> Forall names_stream posts ->
  gated (completed_last false posts) new = true ->
  (completed_last (completed_last false posts) new = true -> str = false /\ v = true) ->
  (str = true -> sid <> None) ->
  Forall names_stream new ->
  consistent (mkProvider v ms str sid (posts ++ new)).
Proof.
  intros Hg Hn Hg' Hc Hid Hn'. unfold consistent. simpl.
  rewrite gated_app, completed_last_app, Hg, Hg'.
  split; [reflexivity|]. split; [exact Hc|]. split; [exact Hid|].
  apply Forall_app. split; assumption.
Qed.

Lemma consistent_quiet (posts : list post) (v str : bool) (sid : option jstring)
      (ms : list ClaudeMessage) :
  gated false posts = true -> Forall names_stream posts ->
  (completed_last false posts = true -> str = false /\ v = true) ->
  (str = true -> sid <> None) ->
  consistent (mkProvider v ms str sid posts).
Proof.
  intros Hg Hn Hc Hid. unfold consistent. simpl.
  split; [exact Hg|]. split; [exact Hc|]. split; [exact Hid|exact Hn].
Qed.

Lemma consistent_handle (p : provider) (h : happening) :
  consistent p -> consistent (handle p h).
Proof.
  intros [Hg [Hc [Hid Hn]]].
  destruct p as [v ms str sid posts]. simpl in *.
  assert (Hview : v = false -> completed_last false posts = false).
  { intros ->. destruct (completed_last false posts); [|reflexivity].
    destruct (Hc eq_refl). discriminate. }
  assert (Hopen : str = true -> completed_last false posts = false).
  { intros ->. destruct (completed_last false posts); [|reflexivity].
    destruct (Hc eq_refl). discriminate. }
  destruct h as [|now|useStreaming [msg|]|m|fraction|finalMessage|message| |context];
    unfold handle, ChatProvider.handle, resolveWebviewView, handleSendMessage_begin,
      handleSendMessage_end, handleStreamingMessage, updateStreamingProgress,
      finalizeStreamingMessage, addMessage_, clearChat, sendWorkspaceContext, postMessage;
    simpl.
  - apply consistent_quiet; try assumption.
    intros H. destruct (Hc H). split; [assumption|reflexivity].
  - destruct v; simpl.
    + apply consistent_posts; try assumption; try reflexivity; try discriminate.
      repeat constructor.
    + apply consistent_quiet; try assumption; try discriminate.
      rewrite (Hview eq_refl). discriminate.
  - destruct v; simpl.
    + rewrite <- app_assoc. simpl app.
      apply consistent_posts; try assumption; try reflexivity; try discriminate.
      * simpl. intros H. destruct (Hc H). split; [reflexivity|assumption].
      * repeat constructor.
    + apply consistent_quiet; try assumption; try discriminate.
      rewrite (Hview eq_refl). discriminate.
  - destruct useStreaming; simpl; apply consistent_quiet; try assumption; try discriminate.
    intros H. destruct (Hc H). split; [reflexivity|assumption].
  - destruct v; simpl; [|apply consistent_quiet; assumption].
    destruct str; simpl; [|apply consistent_quiet; assumption].
    destruct (match type m with
              | StreamingClient.thinking => _
              | StreamingClient.tool_use => _
              | StreamingClient.tool_result => _
              | StreamingClient.progress => _
              | _ => _
              end) as [processedContent cssClass].
    simpl. rewrite <- app_assoc. simpl app.
    apply consistent_posts; try assumption.
    + rewrite (Hopen eq_refl). reflexivity.
    + repeat constructor. simpl. apply Hid. reflexivity.
  - destruct v; simpl; [|apply consistent_quiet; assumption].
    destruct str; simpl; [|apply consistent_quiet; assumption].
    apply consistent_posts; try assumption; try reflexivity.
    repeat constructor. simpl. apply Hid. reflexivity.
  - destruct v; simpl; [|apply consistent_quiet; assumption].
    destruct str; simpl; [|apply consistent_quiet; assumption].
    rewrite <- app_assoc. simpl app.
    apply consistent_posts; try assumption; try reflexivity; try discriminate.
    + intros _. split; reflexivity.
    + repeat constructor. simpl. apply Hid. reflexivity.
  - destruct v; simpl; [|apply consistent_quiet; assumption].
    apply consistent_posts; try assumption; try reflexivity.
    repeat constructor.
  - destruct v; simpl; [|apply consistent_quiet; assumption].
    apply consistent_posts; try assumption; try reflexivity.
    repeat constructor.
  - destruct v; simpl; [|apply consistent_quiet; assumption].
    apply consistent_posts; try assumption; try reflexivity.
    repeat constructor.
Qed.

Lemma consistent_all (hs : list happening) (p : provider) :
  consistent p -> consistent (handle_all p hs).
Proof.
  revert p. induction hs as [|h hs IH]; intros p H; [exact H|].
  apply (IH (handle p h)). apply consistent_handle. exact H.
Qed.

(** Whatever happens to a provider, a stream that was completed stays
    completed in the webview: no [streamingMessage] is posted after a
    [streamingComplete] unless a [showTyping], the start of the next
    request, was posted between them; and every post that belongs to a
    stream names its stream. *)
Theorem no_streaming_message_after_complete (hs : list happening) :
  (forall (before between after : list post) (id id' : option jstring)
          (finalMessage : ClaudeMessage) (k : StreamingClient.kind) (c : json)
          (cssClass : jstring) (md : value),
      posted (handle_all (created Progress) hs)
      = before ++ streamingComplete Progress id finalMessage
               :: between ++ streamingMessage Progress id' k c cssClass md :: after ->
      In (showTyping Progress) between)
  /\ Forall names_stream (posted (handle_all (created Progress) hs)).
Proof.
  destruct (consistent_all hs (created Progress) consistent_created) as [Hg [_ [_ Hn]]].
  split; [|exact Hn].
  intros before between after id id' finalMessage k c cssClass md E.
  unfold provider, handle_all in *. rewrite E in Hg.
  rewrite gated_app in Hg. apply andb_true_iff in Hg. destruct Hg as [_ Hg].
  simpl in Hg. rewrite gated_app in Hg. apply andb_true_iff in Hg. destruct Hg as [_ Hg].
  simpl in Hg. apply andb_true_iff in Hg. destruct Hg as [Hg _].
  apply negb_true_iff in Hg.
  destruct (completed_needs_typing between true Hg) as [H|H]; [discriminate|exact H].
Qed.

End ChatView.

Section ChatViewExamples.
Import ChatProvider.

Definition HELLO : Message :=
  mkIncoming StreamingClient.text (JString (js "Hello")) None.

Definition DONE : ClaudeMessage :=
  mkClaudeMessage (Some (JString (js "9"))) (Some (JString (js "assistant")))
    (js "Streaming response completed") (Millis 9).

(** Two requests; an event of the first arrives after its completion. *)
Definition TWO_REQUESTS : list (happening nat) :=
  [Resolved nat; SendBegins nat 1; OnStreamingMessage nat HELLO;
   OnStreamingComplete nat DONE; OnStreamingMessage nat HELLO;
   SendBegins nat 2; OnStreamingMessage nat HELLO].

Lemma no_streaming_message_after_complete_witness :
  posted (handle_all (fun c => c) (fun _ _ => JNull) (fun _ => false) (fun c => c)
            (created nat) TWO_REQUESTS)
  = [showTyping nat; hideTyping nat;
     streamingMessage nat (Some (js "1")) StreamingClient.text (JString (js "Hello"))
       (js "streaming-text") None;
     hideTyping nat; streamingComplete nat (Some (js "1")) DONE;
     showTyping nat; hideTyping nat;
     streamingMessage nat (Some (js "2")) StreamingClient.text (JString (js "Hello"))
       (js "streaming-text") None]
  /\ In (showTyping nat) [showTyping nat; hideTyping nat].
Proof.
  split; [reflexivity|].
  apply (proj1 (no_streaming_message_after_complete
                  (fun c => c) (fun _ _ => JNull) (fun _ => false) (fun c => c)
                  nat TWO_REQUESTS)
               [showTyping nat; hideTyping nat;
                streamingMessage nat (Some (js "1")) StreamingClient.text
                  (JString (js "Hello")) (js "streaming-text") None;
                hideTyping nat]
               [showTyping nat; hideTyping nat] []
               (Some (js "1")) (Some (js "2")) DONE StreamingClient.text
               (JString (js "Hello")) (js "streaming-text") None).
  reflexivity.
Defined.

End ChatViewExamples.
